(** * youtube-transcript-ts: a shallow embedding and its verified properties

    The development follows the layout of the TypeScript sources:

    - [JsString], [JsNumber], [JsMap], [JsValue]: the fragment of the
      JavaScript runtime the sources rely on (string methods, IEEE-754
      binary64 numbers with [Math.floor], [Math.round], [%],
      [Number::toString] and [parseFloat], [Map] objects, the values a
      JSON or XML reader builds);
    - [Settings], [Proxies], [Errors], [Types]: settings.ts, proxies.ts,
      errors.ts and types.ts;
    - [Fetched], [Catalog], [Playability], [Fetcher], [Parser],
      [TrackFetch]: the classes of transcripts.ts;
    - [Formatters]: formatters.ts;
    - [Samples], [Vocabulary]: data and notions the properties refer to;
    - the properties, one section for each component.

    JavaScript numbers are modelled by Rocq's primitive binary64 floats, so
    every arithmetic step evaluates exactly as it does in the engine.
    JavaScript strings are modelled by [string]; a character stands for one
    code unit below 256. The transport, the entity decoder and the XML
    reader are collaborators of the sources and parameters here. *)

From Stdlib Require Import ZArith List String Ascii Bool Lia Floats DecimalString.
From Equations Require Import Equations.
Import ListNotations.

Set Implicit Arguments.
Local Open Scope Z_scope.

(* ===================================================================== *)
(** * Strings as the sources use them *)
(* ===================================================================== *)

Module JsString.

Local Open Scope string_scope.

Definition LF : ascii := "010"%char.
Definition CR : ascii := "013"%char.

(** The line break written [\n] in the sources. *)
Definition nl : string := String LF EmptyString.

(** The double-quote character. *)
Definition dq : string := String "034"%char EmptyString.

(** [s.startsWith(p)] *)
Fixpoint startsWith (s p : string) : bool :=
  match p, s with
  | EmptyString, _ => true
  | String c p', String d s' => Ascii.eqb c d && startsWith s' p'
  | String _ _, EmptyString => false
  end.

(** [s.includes(sub)] *)
Fixpoint includes (s sub : string) : bool :=
  startsWith s sub
  || match s with
     | EmptyString => false
     | String _ s' => includes s' sub
     end.

(** [s.slice(n)] for [0 <= n]. *)
Fixpoint drop (n : nat) (s : string) : string :=
  match n, s with
  | O, _ => s
  | S n', String _ s' => drop n' s'
  | S _, EmptyString => EmptyString
  end.

(** [s.slice(0, n)] for [0 <= n]. *)
Fixpoint take (n : nat) (s : string) : string :=
  match n, s with
  | S n', String c s' => String c (take n' s')
  | _, _ => EmptyString
  end.

(** [parts.join(sep)] *)
Fixpoint join (sep : string) (parts : list string) : string :=
  match parts with
  | [] => ""
  | [p] => p
  | p :: rest => p ++ sep ++ join sep rest
  end.

(** The filler [padStart] prepends: [pad] repeated and cut to [n]
    characters ([cur] is what is left of the current copy of [pad]). *)
Fixpoint filler (n : nat) (pad cur : string) : string :=
  match n with
  | O => ""
  | S n' =>
      match cur with
      | String c cur' => String c (filler n' pad cur')
      | EmptyString =>
          match pad with
          | String c pad' => String c (filler n' pad pad')
          | EmptyString => ""
          end
      end
  end.

(** [s.padStart(targetLength, pad)] *)
Definition padStart (targetLength : nat) (pad s : string) : string :=
  filler (targetLength - String.length s) pad pad ++ s.

(** The replacement text of [String.prototype.replace] with a string
    pattern (GetSubstitution without captures): [$$] is a dollar sign,
    [$&] the matched text, [$`] what precedes the match and [$'] what
    follows it; any other character stands for itself. *)
Fixpoint getSubstitution (matched before after template : string) : string :=
  match template with
  | EmptyString => ""
  | String c rest =>
      if Ascii.eqb c "$"%char then
        match rest with
        | String d rest' =>
            if Ascii.eqb d "$"%char then
              "$" ++ getSubstitution matched before after rest'
            else if Ascii.eqb d "&"%char then
              matched ++ getSubstitution matched before after rest'
            else if Ascii.eqb d "`"%char then
              before ++ getSubstitution matched before after rest'
            else if Ascii.eqb d "'"%char then
              after ++ getSubstitution matched before after rest'
            else String c (getSubstitution matched before after rest)
        | EmptyString => "$"
        end
      else String c (getSubstitution matched before after rest)
  end.

(** [s.replace(pattern, replacement)] with a string pattern: only the
    first occurrence is replaced. [seen] is the text already passed over. *)
Fixpoint replace_from (seen s pattern replacement : string) : option string :=
  if startsWith s pattern then
    let after := drop (String.length pattern) s in
    Some (getSubstitution pattern seen after replacement ++ after)
  else
    match s with
    | EmptyString => None
    | String c s' =>
        match replace_from (seen ++ String c "") s' pattern replacement with
        | Some r => Some (String c r)
        | None => None
        end
    end.

Definition replace (s pattern replacement : string) : string :=
  match replace_from "" s pattern replacement with
  | Some r => r
  | None => s
  end.

(** Character classes of the regular expressions in the sources. *)
Definition is_digit (c : ascii) : bool :=
  let n := nat_of_ascii c in (48 <=? n)%nat && (n <=? 57)%nat.

Definition is_alpha (c : ascii) : bool :=
  let n := nat_of_ascii c in
  ((65 <=? n)%nat && (n <=? 90)%nat) || ((97 <=? n)%nat && (n <=? 122)%nat).

(** [\w] *)
Definition is_word (c : ascii) : bool :=
  is_alpha c || is_digit c || Ascii.eqb c "_"%char.

(** [\s], and the white space [parseFloat] skips, among code units below
    256: TAB, LF, VT, FF, CR, SPACE and NBSP. *)
Definition is_space (c : ascii) : bool :=
  let n := nat_of_ascii c in
  ((9 <=? n)%nat && (n <=? 13)%nat) || (n =? 32)%nat || (n =? 160)%nat.

(** Line terminators, which [.] does not match. *)
Definition is_line_terminator (c : ascii) : bool :=
  Ascii.eqb c LF || Ascii.eqb c CR.

(** ASCII lower-casing, as the [i] flag compares letters. *)
Definition lower (c : ascii) : ascii :=
  let n := nat_of_ascii c in
  if (65 <=? n)%nat && (n <=? 90)%nat then ascii_of_nat (n + 32) else c.

(** [s] starts with [p], letters compared without case. *)
Fixpoint startsWith_ci (s p : string) : bool :=
  match p, s with
  | EmptyString, _ => true
  | String c p', String d s' => Ascii.eqb (lower c) (lower d) && startsWith_ci s' p'
  | String _ _, EmptyString => false
  end.

End JsString.

(* ===================================================================== *)
(** * Numbers: IEEE-754 binary64, as in the engine *)
(* ===================================================================== *)

Module JsNumber.

Import JsString.
Local Open Scope string_scope.
Local Open Scope Z_scope.

(** The integer [z] as a number (nearest, ties to even). *)
Definition of_Z (z : Z) : float :=
  SF2Prim (binary_normalize prec emax z 0 false).

(** The signed integer mantissa of a finite number [+-m * 2^e]. *)
Definition signed (s : bool) (m : positive) : Z :=
  if s then Z.neg m else Z.pos m.

(** [Math.floor(x)]: a number with a fractional part has a negative
    exponent [e]; its floor is the integer quotient by [2^-e]. *)
Definition Math_floor (x : float) : float :=
  match Prim2SF x with
  | S754_finite s m e =>
      if 0 <=? e then x else of_Z (signed s m / 2 ^ (- e))
  | _ => x
  end.

(** [Math.round(x)]: the nearest integer, a tie going up; a result of
    zero keeps the sign of [x]. *)
Definition Math_round (x : float) : float :=
  match Prim2SF x with
  | S754_finite s m e =>
      if 0 <=? e then x
      else
        let q := (2 * signed s m + 2 ^ (- e)) / 2 ^ (- e + 1) in
        if q =? 0 then (if s then neg_zero else zero) else of_Z q
  | _ => x
  end.

(** [n % d] (Number::remainder): exact, with the sign of the dividend. *)
Definition rem (n d : float) : float :=
  match Prim2SF n, Prim2SF d with
  | S754_nan, _ => nan
  | _, S754_nan => nan
  | S754_infinity _, _ => nan
  | _, S754_infinity _ => n
  | _, S754_zero _ => nan
  | S754_zero _, _ => n
  | S754_finite sn mn en, S754_finite _ md ed =>
      let e := Z.min en ed in
      let r := (Z.pos mn * 2 ^ (en - e)) mod (Z.pos md * 2 ^ (ed - e)) in
      if r =? 0 then (if sn then neg_zero else zero)
      else SF2Prim (binary_normalize prec emax (if sn then - r else r) e false)
  end.

(** The fraction [num / den] ([0 <= num], [0 < den]) as a number: nearest,
    ties to even. The quotient is taken with at least 66 bits and one
    sticky bit, then rounded once. *)
Definition of_fraction (num den : Z) : float :=
  if num =? 0 then zero
  else
    let k := Z.max 0 (66 + Z.log2 den - Z.log2 num) in
    let q := (num * 2 ^ k) / den in
    let sticky := if (num * 2 ^ k) mod den =? 0 then 0 else 1 in
    SF2Prim (binary_normalize prec emax (2 * q + sticky) (- (k + 1)) false).

(** The decimal digits of a non-negative integer. *)
Definition digits_of (z : Z) : string :=
  NilZero.string_of_uint (N.to_uint (Z.to_N z)).

(** The value of a string of decimal digits. *)
Fixpoint value_of (acc : Z) (s : string) : Z :=
  match s with
  | EmptyString => acc
  | String c s' => value_of (10 * acc + (Z.of_nat (nat_of_ascii c) - 48)) s'
  end.

(** [10^z] as a fraction. *)
Definition pow10 (z : Z) : Z * Z :=
  if 0 <=? z then (10 ^ z, 1) else (1, 10 ^ (- z)).

(** For [num / den < 1]: the least [j >= 1] with [1 <= num/den * 10^j]. *)
Fixpoint first_digit_at (fuel : nat) (num den j : Z) : Z :=
  match fuel with
  | O => j
  | S fuel' =>
      if den <=? num * 10 ^ j then j else first_digit_at fuel' num den (j + 1)
  end.

(** The decade of a positive fraction: [n] with
    [10^(n-1) <= num/den < 10^n]. *)
Definition decade (num den : Z) : Z :=
  if den <=? num then Z.of_nat (String.length (digits_of (num / den)))
  else 1 - first_digit_at 400 num den 1.

(** Number::toString, step 5: integers [n], [k], [s] with [k >= 1],
    [10^(k-1) <= s < 10^k], [s * 10^(n-k)] a decimal that reads back as
    [x], [k] as small as possible and then [s * 10^(n-k)] as close to [x]
    as possible (the even [s] on a tie). [x] is positive and finite, equal
    to [num / den]. *)
Fixpoint shortest (fuel : nat) (x : float) (num den n k : Z) : Z * Z * Z :=
  let '(sn, sd) := pow10 (n - k) in
  let a := num * sd in
  let b := den * sn in
  let lo := a / b in
  let hi := lo + 1 in
  let ok c := PrimFloat.eqb (of_fraction (c * sn) sd) x in
  let pick c := if c =? 10 ^ k then (1, n + 1, 1) else (c, n, k) in
  let next :=
    match fuel with
    | O => pick lo
    | S fuel' => shortest fuel' x num den n (k + 1)
    end in
  match ok lo, ok hi with
  | true, true =>
      match 2 * (a mod b) ?= b with
      | Lt => pick lo
      | Gt => pick hi
      | Eq => if Z.even lo then pick lo else pick hi
      end
  | true, false => pick lo
  | false, true => pick hi
  | false, false => next
  end.

(** [k] zeros. *)
Definition zeros (k : Z) : string :=
  JsString.filler (Z.to_nat k) "0" "0".

(** Number::toString(x) in radix 10. *)
Definition toString (x : float) : string :=
  match Prim2SF x with
  | S754_nan => "NaN"
  | S754_zero _ => "0"
  | S754_infinity s => if s then "-Infinity" else "Infinity"
  | S754_finite sg m e =>
      let '(num, den) := if 0 <=? e then (Z.pos m * 2 ^ e, 1) else (Z.pos m, 2 ^ (- e)) in
      let '(s, n, k) := shortest 20 (abs x) num den (decade num den) 1 in
      let ds := digits_of s in
      let body :=
        if (k <=? n) && (n <=? 21) then ds ++ zeros (n - k)
        else if (0 <? n) && (n <=? 21) then
          JsString.take (Z.to_nat n) ds ++ "." ++ JsString.drop (Z.to_nat n) ds
        else if (-6 <? n) && (n <=? 0) then "0." ++ zeros (- n) ++ ds
        else
          let ex := n - 1 in
          let es := (if ex <? 0 then "-" else "+") ++ digits_of (Z.abs ex) in
          if k =? 1 then ds ++ "e" ++ es
          else JsString.take 1 ds ++ "." ++ JsString.drop 1 ds ++ "e" ++ es
      in
      ((if sg then "-" else "") ++ body)%string
  end.

(** The longest prefix of [s] made of characters in [p], and the rest. *)
Fixpoint span (p : ascii -> bool) (s : string) : string * string :=
  match s with
  | EmptyString => ("", "")
  | String c s' =>
      if p c then let '(a, b) := span p s' in (String c a, b) else ("", s)
  end.

(** An optional sign: whether it is [-], and the rest. *)
Definition sign_of (s : string) : bool * string :=
  match s with
  | String c r =>
      if Ascii.eqb c "-"%char then (true, r)
      else if Ascii.eqb c "+"%char then (false, r)
      else (false, s)
  | EmptyString => (false, s)
  end.

(** The exponent part (the letter e, an optional sign, digits) at the
    head of [s], or 0 when there is no complete one. *)
Definition exponent_of (s : string) : Z :=
  match s with
  | String c r =>
      if Ascii.eqb c "e"%char || Ascii.eqb c "E"%char then
        let '(neg, r') := sign_of r in
        let '(ds, _) := span is_digit r' in
        match ds with
        | EmptyString => 0
        | _ => if neg then - value_of 0 ds else value_of 0 ds
        end
      else 0
  | EmptyString => 0
  end.

(** The number [d * 10^e] for a digit string [d]. A product below
    [10^-330] rounds to zero and a non-zero one above [10^310] to
    infinity, so the powers of ten that are computed stay small. *)
Definition of_decimal (d : string) (e : Z) : float :=
  let v := value_of 0 d in
  if v =? 0 then zero
  else if Z.of_nat (String.length d) + e <? -330 then zero
  else if 310 <? e then infinity
  else let '(sn, sd) := pow10 e in of_fraction (v * sn) sd.

(** [parseFloat(input)]: leading white space is skipped, then the longest
    prefix that is a decimal literal is read; [NaN] when there is none. *)
Definition parseFloat (input : string) : float :=
  let '(_, s) := span is_space input in
  let '(neg, s1) := sign_of s in
  let magnitude :=
    if startsWith s1 "Infinity" then infinity
    else
      let '(ip, r1) := span is_digit s1 in
      let '(fp, r2) :=
        match r1 with
        | String c r => if Ascii.eqb c "."%char then span is_digit r else ("", r1)
        | EmptyString => ("", r1)
        end in
      match ip ++ fp with
      | EmptyString => nan
      | ds => of_decimal ds (exponent_of r2 - Z.of_nat (String.length fp))
      end in
  if neg then (- magnitude)%float else magnitude.

End JsNumber.

(* ===================================================================== *)
(** * settings.ts *)
(* ===================================================================== *)

Module Settings.

Import JsString.
Local Open Scope string_scope.

Definition WATCH_URL : string := "https://www.youtube.com/watch?v={video_id}".

Definition INNERTUBE_API_URL : string :=
  "https://www.youtube.com/youtubei/v1/player?key={api_key}".

(** [INNERTUBE_CONTEXT.client]: client name and version. *)
Definition INNERTUBE_CONTEXT : string * string := ("ANDROID", "20.10.38").

Definition formatWatchUrl (videoId : string) : string :=
  replace WATCH_URL "{video_id}" videoId.

Definition formatInnertubeUrl (apiKey : string) : string :=
  replace INNERTUBE_API_URL "{api_key}" apiKey.

End Settings.

(* ===================================================================== *)
(** * proxies.ts *)
(* ===================================================================== *)

Module Proxies.

Import JsString.
Local Open Scope string_scope.
Local Open Scope Z_scope.

Inductive ProxyType : Type := generic | webshare.

Record ProxyConfigDict : Type := { http : string; https : string }.

(** The [ProxyConfig] interface. The retry count is an integer. *)
Record ProxyConfig : Type := {
  type : ProxyType;
  toProxyDict : ProxyConfigDict;
  preventKeepingConnectionsAlive : bool;
  retriesWhenBlocked : Z
}.

(** [a || b] on optional strings: the empty string is falsy. *)
Definition or_else (a b : option string) : option string :=
  match a with
  | Some (String _ _) => a
  | _ => b
  end.

(** [new GenericProxyConfig({httpUrl, httpsUrl})]; [None] stands for the
    [InvalidProxyConfig] it throws when neither URL is given. *)
Definition GenericProxyConfig (httpUrl httpsUrl : option string) : option ProxyConfig :=
  match or_else httpUrl httpsUrl, or_else httpsUrl httpUrl with
  | Some (String c u), Some (String c' u') =>
      Some {| type := generic;
              toProxyDict := {| http := String c u; https := String c' u' |};
              preventKeepingConnectionsAlive := false;
              retriesWhenBlocked := 0 |}
  | _, _ => None
  end.

Definition DEFAULT_DOMAIN_NAME : string := "p.webshare.io".
Definition DEFAULT_PORT : Z := 80.

(** [toUpperCase] on one code unit below 256. The letters a to z, and
    the accented letters 224 to 254 without the division sign 247, have
    their capital 32 below; the sharp s 223 is written SS; every other
    code unit stands as it is. The capitals of the micro sign 181 and of
    the y with diaeresis 255 are the code units 924 and 376, which a
    [string] does not hold: these two are left as they are, so
    [toUpperCase] is that of the engine on the strings without them. *)
Definition upper (c : ascii) : string :=
  let n := nat_of_ascii c in
  if (n =? 223)%nat then "SS"
  else if ((97 <=? n)%nat && (n <=? 122)%nat)
          || ((224 <=? n)%nat && (n <=? 254)%nat && negb (n =? 247)%nat)
       then String (ascii_of_nat (n - 32)) ""
       else String c "".

(** [s.toUpperCase()] *)
Fixpoint toUpperCase (s : string) : string :=
  match s with
  | EmptyString => ""
  | String c s' => upper c ++ toUpperCase s'
  end.

Record WebshareProxyConfigOptions : Type := {
  proxyUsername : string;
  proxyPassword : string;
  filterIpLocations : option (list string);
  opt_retriesWhenBlocked : option Z;
  domainName : option string;
  proxyPort : option Z
}.

Definition from_option {A : Type} (o : option A) (d : A) : A :=
  match o with Some a => a | None => d end.

(** [WebshareProxyConfig.url] *)
Definition webshare_url (o : WebshareProxyConfigOptions) : string :=
  let locationCodes :=
    join "" (map (fun code => "-" ++ toUpperCase code) (from_option (filterIpLocations o) [])) in
  "http://" ++ proxyUsername o ++ locationCodes ++ "-rotate:" ++ proxyPassword o
  ++ "@" ++ from_option (domainName o) DEFAULT_DOMAIN_NAME
  ++ ":" ++ JsNumber.toString (JsNumber.of_Z (from_option (proxyPort o) DEFAULT_PORT)) ++ "/".

(** [new WebshareProxyConfig(options)] *)
Definition WebshareProxyConfig (o : WebshareProxyConfigOptions) : ProxyConfig :=
  {| type := webshare;
     toProxyDict := {| http := webshare_url o; https := webshare_url o |};
     preventKeepingConnectionsAlive := true;
     retriesWhenBlocked := from_option (opt_retriesWhenBlocked o) 10 |}.

End Proxies.

(* ===================================================================== *)
(** * errors.ts *)
(* ===================================================================== *)

Module Errors.

Import JsString.
Local Open Scope string_scope.

(** The exception classes the library throws. [Foreign] stands for any
    exception that is not one of the library's own: one raised by the
    transport, by a JSON or XML reader, or a [TypeError] of the engine. *)
Inductive Error : Type :=
| YouTubeDataUnparsable (videoId : string)
| YouTubeRequestFailed (videoId reason : string)
| VideoUnplayable (videoId : string) (reason : option string) (subReasons : list string)
| VideoUnavailable (videoId : string)
| InvalidVideoId (videoId : string)
| RequestBlocked (videoId : string) (_proxyConfig : option Proxies.ProxyConfig)
| IpBlocked (videoId : string) (_proxyConfig : option Proxies.ProxyConfig)
| TranscriptsDisabled (videoId : string)
| AgeRestricted (videoId : string)
| NotTranslatable (videoId : string)
| TranslationLanguageNotAvailable (videoId : string)
| FailedToCreateConsentCookie (videoId : string)
| NoTranscriptFound (videoId : string) (requestedLanguageCodes : list string)
                    (transcriptData : string)
| PoTokenRequired (videoId : string)
| Foreign (name message : string).

(** [error instanceof RequestBlocked]: [IpBlocked] extends [RequestBlocked]. *)
Definition instanceof_RequestBlocked (e : Error) : bool :=
  match e with
  | RequestBlocked _ _ | IpBlocked _ _ => true
  | _ => false
  end.

(** [error.withProxyConfig(proxyConfig)], defined on [RequestBlocked] and
    inherited by [IpBlocked]. *)
Definition withProxyConfig (e : Error) (proxyConfig : option Proxies.ProxyConfig) : Error :=
  match e with
  | RequestBlocked v _ => RequestBlocked v proxyConfig
  | IpBlocked v _ => IpBlocked v proxyConfig
  | _ => e
  end.

Definition GITHUB_REFERRAL : string :=
  nl ++ nl ++ "If you are sure that the described cause is not responsible for this error "
  ++ "and that a transcript should be retrievable, please create an issue at "
  ++ "https://github.com/user/youtube-transcript-api-ts/issues. "
  ++ "Please add which version of youtube-transcript-api you are using "
  ++ "and provide the information needed to replicate the error. "
  ++ "Also make sure that there are no open issues which already describe your problem!".

Definition BASE_CAUSE_MESSAGE : string :=
  "YouTube is blocking requests from your IP. This usually is due to one of the "
  ++ "following reasons:" ++ nl
  ++ "- You have done too many requests and your IP has been blocked by YouTube" ++ nl
  ++ "- You are doing requests from an IP belonging to a cloud provider (like AWS, "
  ++ "Google Cloud Platform, Azure, etc.). Unfortunately, most IPs from cloud "
  ++ "providers are blocked by YouTube." ++ nl ++ nl.

Definition RequestBlocked_CAUSE_MESSAGE : string :=
  BASE_CAUSE_MESSAGE
  ++ "There are two things you can do to work around this:" ++ nl
  ++ "1. Use proxies to hide your IP address, as explained in the " ++ dq ++ "Working around "
  ++ "IP bans" ++ dq ++ " section of the README "
  ++ "(https://github.com/user/youtube-transcript-api-ts"
  ++ "?tab=readme-ov-file"
  ++ "#working-around-ip-bans-requestblocked-or-ipblocked-exception)." ++ nl
  ++ "2. (NOT RECOMMENDED) If you authenticate your requests using cookies, you "
  ++ "will be able to continue doing requests for a while. However, YouTube will "
  ++ "eventually permanently ban the account that you have used to authenticate "
  ++ "with! So only do this if you don't mind your account being banned!".

Definition WITH_GENERIC_PROXY_CAUSE_MESSAGE : string :=
  "YouTube is blocking your requests, despite you using proxies. Keep in mind "
  ++ "that a proxy is just a way to hide your real IP behind the IP of that proxy, "
  ++ "but there is no guarantee that the IP of that proxy won't be blocked as "
  ++ "well." ++ nl ++ nl
  ++ "The only truly reliable way to prevent IP blocks is rotating through a large "
  ++ "pool of residential IPs, by using a provider like Webshare "
  ++ "(https://www.webshare.io/?referral_code=w0xno53eb50g), which provides you "
  ++ "with a pool of >30M residential IPs (make sure to purchase "
  ++ dq ++ "Residential" ++ dq ++ " proxies, NOT " ++ dq ++ "Proxy Server" ++ dq
  ++ " or " ++ dq ++ "Static Residential" ++ dq ++ "!)." ++ nl ++ nl
  ++ "You will find more information on how to easily integrate Webshare here: "
  ++ "https://github.com/user/youtube-transcript-api-ts"
  ++ "?tab=readme-ov-file#using-webshare".

Definition WITH_WEBSHARE_PROXY_CAUSE_MESSAGE : string :=
  "YouTube is blocking your requests, despite you using Webshare proxies. "
  ++ "Please make sure that you have purchased " ++ dq ++ "Residential" ++ dq ++ " proxies and "
  ++ "NOT " ++ dq ++ "Proxy Server" ++ dq ++ " or " ++ dq ++ "Static Residential" ++ dq
  ++ ", as those won't work as "
  ++ "reliably! The free tier also uses " ++ dq ++ "Proxy Server" ++ dq ++ " and will NOT work!"
  ++ nl ++ nl
  ++ "The only reliable option is using " ++ dq ++ "Residential" ++ dq ++ " proxies (not "
  ++ dq ++ "Static "
  ++ "Residential" ++ dq ++ "), as this allows you to rotate through a pool of over 30M IPs, "
  ++ "which means you will always find an IP that hasn't been blocked by YouTube "
  ++ "yet!" ++ nl ++ nl
  ++ "You can support the development of this open source project by making your "
  ++ "Webshare purchases through this affiliate link: "
  ++ "https://www.webshare.io/?referral_code=w0xno53eb50g " ++ nl ++ nl
  ++ "Thank you for your support! <3".

Definition IpBlocked_CAUSE_MESSAGE : string :=
  BASE_CAUSE_MESSAGE
  ++ "Ways to work around this are explained in the " ++ dq ++ "Working around IP "
  ++ "bans" ++ dq ++ " section of the README (https://github.com/user/youtube-transcript-api-ts"
  ++ "?tab=readme-ov-file"
  ++ "#working-around-ip-bans-requestblocked-or-ipblocked-exception)." ++ nl.

(** The [causeMessage] getter of [RequestBlocked], shared by [IpBlocked];
    [own] is the static [CAUSE_MESSAGE] of the instance's class. *)
Definition blocked_causeMessage (own : string) (pc : option Proxies.ProxyConfig) : string :=
  match option_map Proxies.type pc with
  | Some Proxies.webshare => WITH_WEBSHARE_PROXY_CAUSE_MESSAGE
  | Some Proxies.generic => WITH_GENERIC_PROXY_CAUSE_MESSAGE
  | None => own
  end.

(** [this.causeMessage] *)
Definition causeMessage (e : Error) : string :=
  match e with
  | YouTubeDataUnparsable _ =>
      "The data required to fetch the transcript is not parsable. This should "
      ++ "not happen, please open an issue (make sure to include the video ID)!"
  | YouTubeRequestFailed _ reason => "Request to YouTube failed: " ++ reason
  | VideoUnplayable _ reason subReasons =>
      let reasonText :=
        match reason with Some r => r | None => "No reason specified!" end in
      let reasonText' :=
        match subReasons with
        | [] => reasonText
        | _ => reasonText ++ nl ++ nl ++ "Additional Details:" ++ nl
               ++ join nl (map (fun r => " - " ++ r) subReasons)
        end in
      "The video is unplayable for the following reason: " ++ reasonText'
  | VideoUnavailable _ => "The video is no longer available"
  | InvalidVideoId _ =>
      "You provided an invalid video id. Make sure you are using the video id and NOT the url!"
      ++ nl ++ nl
      ++ "Do NOT run: `YouTubeTranscriptApi.fetch(" ++ dq
      ++ "https://www.youtube.com/watch?v=1234" ++ dq ++ ")`" ++ nl
      ++ "Instead run: `YouTubeTranscriptApi.fetch(" ++ dq ++ "1234" ++ dq ++ ")`"
  | RequestBlocked _ pc => blocked_causeMessage RequestBlocked_CAUSE_MESSAGE pc
  | IpBlocked _ pc => blocked_causeMessage IpBlocked_CAUSE_MESSAGE pc
  | TranscriptsDisabled _ => "Subtitles are disabled for this video"
  | AgeRestricted _ =>
      "This video is age-restricted. Therefore, you are unable to retrieve "
      ++ "transcripts for it without authenticating yourself." ++ nl ++ nl
      ++ "Cookie Authentication is currently not supported for age-restricted videos."
  | NotTranslatable _ => "The requested language is not translatable"
  | TranslationLanguageNotAvailable _ =>
      "The requested translation language is not available"
  | FailedToCreateConsentCookie _ =>
      "Failed to automatically give consent to saving cookies"
  | NoTranscriptFound _ codes data =>
      "No transcripts were found for any of the requested language codes: "
      ++ join ", " codes ++ nl ++ nl ++ data
  | PoTokenRequired _ =>
      "The requested video cannot be retrieved without a PO Token. If this happens, "
      ++ "please open a GitHub issue!"
  | Foreign _ _ => ""
  end.

(** [this.buildErrorMessage()], and the [message] of a foreign exception. *)
Definition message (e : Error) : string :=
  match e with
  | Foreign _ m => m
  | YouTubeDataUnparsable v | YouTubeRequestFailed v _ | VideoUnplayable v _ _
  | VideoUnavailable v | InvalidVideoId v | RequestBlocked v _ | IpBlocked v _
  | TranscriptsDisabled v | AgeRestricted v | NotTranslatable v
  | TranslationLanguageNotAvailable v | FailedToCreateConsentCookie v
  | NoTranscriptFound v _ _ | PoTokenRequired v =>
      let errorMessage :=
        nl ++ "Could not retrieve a transcript for the video "
        ++ Settings.formatWatchUrl v ++ "!" in
      match causeMessage e with
      | EmptyString => errorMessage
      | causeMsg =>
          errorMessage ++ nl ++ "This is most likely caused by:" ++ nl ++ nl
          ++ causeMsg ++ GITHUB_REFERRAL
      end
  end.

(** A computation that returns a value or throws. *)
Inductive Result (A : Type) : Type :=
| Ok (a : A)
| Throw (e : Error).
Arguments Ok {A} a.
Arguments Throw {A} e.

(** The [causeMessage] getter of [VideoUnplayable], read on an instance
    under construction: a field is [None] as long as the constructor has
    not assigned it. [this.reason ?? 'No reason specified!'] takes an
    unassigned reason like [null]; [this.subReasons.length] on an
    unassigned [subReasons] is the [TypeError] of reading a property of
    [undefined]. *)
Definition VideoUnplayable_causeMessage (reason : option (option string))
    (subReasons : option (list string)) : Result string :=
  let reasonText :=
    match reason with Some (Some r) => r | _ => "No reason specified!" end in
  match subReasons with
  | None =>
      Throw (Foreign "TypeError" "Cannot read properties of undefined (reading 'length')")
  | Some subs =>
      let reasonText' :=
        match subs with
        | [] => reasonText
        | _ => reasonText ++ nl ++ nl ++ "Additional Details:" ++ nl
               ++ join nl (map (fun r => " - " ++ r) subs)
        end in
      Ok ("The video is unplayable for the following reason: " ++ reasonText')
  end.

(** [new VideoUnplayable(videoId, reason, subReasons)]. The constructor
    starts with [super(videoId)], and the constructor of
    [CouldNotRetrieveTranscript] ends with
    [this.message = this.buildErrorMessage()], which reads the getter of
    the instance's own class: that is the getter above, at a time when
    neither [reason] nor [subReasons] is assigned. Only after [super]
    has returned does the constructor assign the two fields and build
    the message again. No other class fails there: the getter of
    [NoTranscriptFound] guards its two fields, that of
    [YouTubeRequestFailed] writes an unassigned reason into the text,
    that of [RequestBlocked] reads its proxy configuration with [?.],
    and the other classes keep the getter of the base class. *)
Definition new_VideoUnplayable (videoId : string) (reason : option string)
    (subReasons : list string) : Result Error :=
  match VideoUnplayable_causeMessage None None with
  | Throw e => Throw e
  | Ok _ =>
      match VideoUnplayable_causeMessage (Some reason) (Some subReasons) with
      | Throw e => Throw e
      | Ok _ => Ok (VideoUnplayable videoId reason subReasons)
      end
  end.

End Errors.

(* ===================================================================== *)
(** * types.ts and the [FetchedTranscript] class of transcripts.ts *)
(* ===================================================================== *)

Module Types.

Record TranscriptSnippet : Type := {
  text : string;
  start : float;
  duration : float
}.

Record TranslationLanguage : Type := {
  tl_language : string;
  tl_languageCode : string
}.

End Types.

Module Fetched.

Import Types.

Record FetchedTranscript : Type := {
  snippets : list TranscriptSnippet;
  videoId : string;
  language : string;
  languageCode : string;
  isGenerated : bool
}.

(** [transcript\[Symbol.iterator\]()], spread into an array. *)
Definition iterate (t : FetchedTranscript) : list TranscriptSnippet := snippets t.

(** [transcript.get(index)] is [this.snippets\[index\]] for an integer
    index: an array has an element at an index from 0 up to its length,
    and reading any other index gives [undefined], here [None]. *)
Definition get (t : FetchedTranscript) (index : Z) : option TranscriptSnippet :=
  if index <? 0 then None else nth_error (snippets t) (Z.to_nat index).

(** [transcript.length] *)
Definition length (t : FetchedTranscript) : Z := Z.of_nat (List.length (snippets t)).

(** [transcript.toRawData()] *)
Definition toRawData (t : FetchedTranscript) : list (string * float * float) :=
  map (fun snippet => (text snippet, start snippet, duration snippet)) (snippets t).

End Fetched.

(* ===================================================================== *)
(** * formatters.ts *)
(* ===================================================================== *)

Module Formatters.

Import JsString Types Fetched.
Local Open Scope string_scope.

(** [TextFormatter] *)
Definition TextFormatter_formatTranscript (transcript : FetchedTranscript) : string :=
  join nl (map text (iterate transcript)).

Definition TextFormatter_formatTranscripts (transcripts : list FetchedTranscript) : string :=
  join (nl ++ nl ++ nl) (map TextFormatter_formatTranscript transcripts).

(** The abstract methods of [TextBasedFormatter]. *)
Class TextBasedFormatter : Type := {
  formatTimestamp : float -> float -> float -> float -> string;
  formatTranscriptHeader : list string -> string;
  formatTranscriptHelper : nat -> string -> TranscriptSnippet -> string
}.

Section TextBased.

Context {F : TextBasedFormatter}.

Definition secondsToTimestamp (time : float) : string :=
  let hours := JsNumber.Math_floor (time / 3600)%float in
  let remainder := JsNumber.rem time 3600%float in
  let mins := JsNumber.Math_floor (remainder / 60)%float in
  let secs := JsNumber.Math_floor (JsNumber.rem remainder 60%float) in
  let ms := JsNumber.Math_round ((time - JsNumber.Math_floor time) * 1000)%float in
  formatTimestamp hours mins secs ms.

(** The end time shown for [snippets\[i\]], the body of the loop up to
    [adjustedEnd]. *)
Definition adjustedEnd (snippets : list TranscriptSnippet) (i : nat)
    (snippet : TranscriptSnippet) : float :=
  let end_ := (start snippet + duration snippet)%float in
  let nextStart :=
    if (i <? List.length snippets - 1)%nat then
      match nth_error snippets (i + 1) with
      | Some next => start next
      | None => end_
      end
    else end_ in
  if (nextStart <? end_)%float then nextStart else end_.

(** One turn of the loop: the line pushed for [snippets\[i\]]. *)
Definition cue (snippets : list TranscriptSnippet) (i : nat)
    (snippet : TranscriptSnippet) : string :=
  let timeText :=
    secondsToTimestamp (start snippet) ++ " --> "
    ++ secondsToTimestamp (adjustedEnd snippets i snippet) in
  formatTranscriptHelper i timeText snippet.

(** [for (let i = 0; i < snippets.length; i++)], over the elements from
    index [i] on. *)
Fixpoint cues (snippets : list TranscriptSnippet) (i : nat)
    (from_i : list TranscriptSnippet) : list string :=
  match from_i with
  | [] => []
  | snippet :: rest => cue snippets i snippet :: cues snippets (S i) rest
  end.

Definition formatTranscript (transcript : FetchedTranscript) : string :=
  let snippets := iterate transcript in
  formatTranscriptHeader (cues snippets 0 snippets).

End TextBased.

(** [n.toString().padStart(width, '0')] *)
Definition padded (width : nat) (n : float) : string :=
  padStart width "0" (JsNumber.toString n).

(** The sequence number [index + 1] of a cue. *)
Definition sequence_number (index : nat) : string :=
  JsNumber.toString (JsNumber.of_Z (Z.of_nat index) + 1)%float.

#[export] Instance SRTFormatter : TextBasedFormatter := {|
  formatTimestamp hours mins secs ms :=
    padded 2 hours ++ ":" ++ padded 2 mins ++ ":" ++ padded 2 secs ++ "," ++ padded 3 ms;
  formatTranscriptHeader lines := join (nl ++ nl) lines ++ nl;
  formatTranscriptHelper index timeText snippet :=
    sequence_number index ++ nl ++ timeText ++ nl ++ text snippet
|}.

#[export] Instance WebVTTFormatter : TextBasedFormatter := {|
  formatTimestamp hours mins secs ms :=
    padded 2 hours ++ ":" ++ padded 2 mins ++ ":" ++ padded 2 secs ++ "." ++ padded 3 ms;
  formatTranscriptHeader lines := "WEBVTT" ++ nl ++ nl ++ join (nl ++ nl) lines ++ nl;
  formatTranscriptHelper _index timeText snippet := timeText ++ nl ++ text snippet
|}.

End Formatters.

(* ===================================================================== *)
(** * The [Map] objects of the catalog *)
(* ===================================================================== *)

(** A JavaScript [Map] with string keys keeps its entries in insertion
    order; setting a key that is present replaces the value in place. *)
Module JsMap.

Section WithValues.

Variable V : Type.

Definition t : Type := list (string * V).

Definition empty : t := [].

Fixpoint get (m : t) (key : string) : option V :=
  match m with
  | [] => None
  | (k, v) :: rest => if String.eqb k key then Some v else get rest key
  end.

Definition has (m : t) (key : string) : bool :=
  match get m key with Some _ => true | None => false end.

Fixpoint set (m : t) (key : string) (value : V) : t :=
  match m with
  | [] => [(key, value)]
  | (k, v) :: rest =>
      if String.eqb k key then (k, value) :: rest else (k, v) :: set rest key value
  end.

Definition values (m : t) : list V := map snd m.

(** [new Map(entries)] *)
Definition of_entries (entries : list (string * V)) : t :=
  fold_left (fun m kv => set m (fst kv) (snd kv)) entries empty.

End WithValues.

Arguments empty {V}.

End JsMap.

(* ===================================================================== *)
(** * transcripts.ts: [Transcript] and [TranscriptList] *)
(* ===================================================================== *)

Module Catalog.

Import JsString Types Errors.
Local Open Scope string_scope.

(** A caption track. The [httpClient] field is the transport every object
    of one catalog shares; it is the ambient state of the network
    operations and is not repeated here. *)
Record Transcript : Type := {
  videoId : string;
  _url : string;
  language : string;
  languageCode : string;
  isGenerated : bool;
  translationLanguages : list TranslationLanguage
}.

(** The private [translationLanguagesDict] the constructor derives. *)
Definition translationLanguagesDict (t : Transcript) : JsMap.t string :=
  JsMap.of_entries (map (fun tl => (tl_languageCode tl, tl_language tl))
                        (translationLanguages t)).

Definition isTranslatable (t : Transcript) : bool :=
  (0 <? List.length (translationLanguages t))%nat.

Definition translate (t : Transcript) (languageCode : string) : Result Transcript :=
  if negb (isTranslatable t) then Throw (NotTranslatable (videoId t))
  else if negb (JsMap.has (translationLanguagesDict t) languageCode) then
    Throw (TranslationLanguageNotAvailable (videoId t))
  else
    match JsMap.get (translationLanguagesDict t) languageCode with
    | Some target_language =>
        Ok {| videoId := videoId t;
              _url := _url t ++ "&tlang=" ++ languageCode;
              language := target_language;
              languageCode := languageCode;
              isGenerated := true;
              translationLanguages := [] |}
    | None => Throw (TranslationLanguageNotAvailable (videoId t))
    end.

Definition Transcript_toString (t : Transcript) : string :=
  let translationDesc := if isTranslatable t then "[TRANSLATABLE]" else "" in
  languageCode t ++ " (" ++ dq ++ language t ++ dq ++ ")" ++ translationDesc.

Record TranscriptList : Type := {
  tl_videoId : string;
  manuallyCreatedTranscripts : JsMap.t Transcript;
  generatedTranscripts : JsMap.t Transcript;
  _translationLanguages : list TranslationLanguage
}.

(** [CaptionTrack] and [CaptionsJson] of types.ts; [name.runs] and
    [languageName.runs] are kept as the list of their [text] fields. *)
Record CaptionTrack : Type := {
  baseUrl : string;
  name_runs : list string;
  ct_languageCode : string;
  kind : option string;
  ct_isTranslatable : option bool
}.

Record CaptionsJson : Type := {
  captionTracks : list CaptionTrack;
  cj_translationLanguages : option (list (list string * string))
}.

(** [runs\[0\].text]; reading [text] of a missing first run is a
    [TypeError]. *)
Definition first_run_text (runs : list string) : Result string :=
  match runs with
  | r :: _ => Ok r
  | [] => Throw (Foreign "TypeError" "Cannot read properties of undefined (reading 'text')")
  end.

Fixpoint build_translationLanguages (l : list (list string * string))
  : Result (list TranslationLanguage) :=
  match l with
  | [] => Ok []
  | (languageName_runs, code) :: rest =>
      match first_run_text languageName_runs with
      | Throw e => Throw e
      | Ok lang =>
          match build_translationLanguages rest with
          | Throw e => Throw e
          | Ok tls => Ok ({| tl_language := lang; tl_languageCode := code |} :: tls)
          end
      end
  end.

(** The loop of [TranscriptList.build] over the caption tracks. *)
Fixpoint build_tracks (videoId : string) (translationLanguages : list TranslationLanguage)
    (tracks : list CaptionTrack) (manual generated : JsMap.t Transcript)
  : Result (JsMap.t Transcript * JsMap.t Transcript) :=
  match tracks with
  | [] => Ok (manual, generated)
  | caption :: rest =>
      let isGenerated :=
        match kind caption with Some k => String.eqb k "asr" | None => false end in
      match first_run_text (name_runs caption) with
      | Throw e => Throw e
      | Ok lang =>
          let transcript :=
            {| videoId := videoId;
               _url := replace (baseUrl caption) "&fmt=srv3" "";
               language := lang;
               languageCode := ct_languageCode caption;
               isGenerated := isGenerated;
               translationLanguages :=
                 match ct_isTranslatable caption with
                 | Some true => translationLanguages
                 | _ => []
                 end |} in
          if isGenerated then
            build_tracks videoId translationLanguages rest manual
              (JsMap.set generated (ct_languageCode caption) transcript)
          else
            build_tracks videoId translationLanguages rest
              (JsMap.set manual (ct_languageCode caption) transcript) generated
      end
  end.

(** [TranscriptList.build(httpClient, videoId, captionsJson)] *)
Definition build (videoId : string) (captionsJson : CaptionsJson) : Result TranscriptList :=
  match build_translationLanguages
          (match cj_translationLanguages captionsJson with Some l => l | None => [] end) with
  | Throw e => Throw e
  | Ok translationLanguages =>
      match build_tracks videoId translationLanguages (captionTracks captionsJson)
              JsMap.empty JsMap.empty with
      | Throw e => Throw e
      | Ok (manual, generated) =>
          Ok {| tl_videoId := videoId;
                manuallyCreatedTranscripts := manual;
                generatedTranscripts := generated;
                _translationLanguages := translationLanguages |}
      end
  end.

(** [transcriptList\[Symbol.iterator\]()], spread into an array. *)
Definition iterate (l : TranscriptList) : list Transcript :=
  (JsMap.values (manuallyCreatedTranscripts l) ++ JsMap.values (generatedTranscripts l))%list.

Definition getLanguageDescription (transcriptStrings : list string) : string :=
  match join nl (map (fun t => " - " ++ t) transcriptStrings) with
  | EmptyString => "None"
  | description => description
  end.

Definition TranscriptList_toString (l : TranscriptList) : string :=
  let manualDescriptions :=
    map Transcript_toString (JsMap.values (manuallyCreatedTranscripts l)) in
  let generatedDescriptions :=
    map Transcript_toString (JsMap.values (generatedTranscripts l)) in
  let translationDescriptions :=
    map (fun tl => tl_languageCode tl ++ " (" ++ dq ++ tl_language tl ++ dq ++ ")")
        (_translationLanguages l) in
  "For this video (" ++ tl_videoId l
  ++ ") transcripts are available in the following languages:" ++ nl ++ nl
  ++ "(MANUALLY CREATED)" ++ nl ++ getLanguageDescription manualDescriptions ++ nl ++ nl
  ++ "(GENERATED)" ++ nl ++ getLanguageDescription generatedDescriptions ++ nl ++ nl
  ++ "(TRANSLATION LANGUAGES)" ++ nl ++ getLanguageDescription translationDescriptions.

(** The inner loop of [_findTranscript]: the first of [transcriptDicts]
    that has [languageCode]. *)
Fixpoint lookup_tiers (transcriptDicts : list (JsMap.t Transcript)) (languageCode : string)
  : option Transcript :=
  match transcriptDicts with
  | [] => None
  | transcriptDict :: rest =>
      match JsMap.get transcriptDict languageCode with
      | Some transcript => Some transcript
      | None => lookup_tiers rest languageCode
      end
  end.

(** The outer loop of [_findTranscript], over the language codes. *)
Fixpoint lookup_codes (languageCodes : list string) (transcriptDicts : list (JsMap.t Transcript))
  : option Transcript :=
  match languageCodes with
  | [] => None
  | languageCode :: rest =>
      match lookup_tiers transcriptDicts languageCode with
      | Some transcript => Some transcript
      | None => lookup_codes rest transcriptDicts
      end
  end.

Definition _findTranscript (l : TranscriptList) (languageCodes : list string)
    (transcriptDicts : list (JsMap.t Transcript)) : Result Transcript :=
  match lookup_codes languageCodes transcriptDicts with
  | Some transcript => Ok transcript
  | None => Throw (NoTranscriptFound (tl_videoId l) languageCodes (TranscriptList_toString l))
  end.

Definition findTranscript (l : TranscriptList) (languageCodes : list string) : Result Transcript :=
  _findTranscript l languageCodes [manuallyCreatedTranscripts l; generatedTranscripts l].

Definition findGeneratedTranscript (l : TranscriptList) (languageCodes : list string)
  : Result Transcript :=
  _findTranscript l languageCodes [generatedTranscripts l].

Definition findManuallyCreatedTranscript (l : TranscriptList) (languageCodes : list string)
  : Result Transcript :=
  _findTranscript l languageCodes [manuallyCreatedTranscripts l].

End Catalog.

(* ===================================================================== *)
(** * transcripts.ts: the playability interpreter *)
(* ===================================================================== *)

Module Playability.

Import JsString Errors.
Local Open Scope string_scope.

(** [PlayabilityStatus] of types.ts, as the JSON reader delivers it: any
    field may be missing. *)
Record Run : Type := { run_text : option string }.
Record Subreason : Type := { runs : option (list Run) }.
Record PlayerErrorMessageRenderer : Type := { subreason : option Subreason }.
Record ErrorScreen : Type := { playerErrorMessageRenderer : option PlayerErrorMessageRenderer }.

Record PlayabilityStatus : Type := {
  status : option string;
  reason : option string;
  errorScreen : option ErrorScreen
}.

Definition OK : string := "OK".
Definition ERROR : string := "ERROR".
Definition LOGIN_REQUIRED : string := "LOGIN_REQUIRED".

Definition BOT_DETECTED : string := "Sign in to confirm you're not a bot".
Definition AGE_RESTRICTED : string := "This video may be inappropriate for some users.".
Definition VIDEO_UNAVAILABLE : string := "This video is unavailable".

(** [a === b] for a value that may be [undefined] and a string constant. *)
Definition equals (a : option string) (b : string) : bool :=
  match a with Some a' => String.eqb a' b | None => false end.

Definition bind_option {A B : Type} (o : option A) (f : A -> option B) : option B :=
  match o with Some a => f a | None => None end.

(** [playabilityStatus?.errorScreen?.playerErrorMessageRenderer?.subreason?.runs ?? \[\]] *)
Definition subreasons (playabilityStatus : option PlayabilityStatus) : list Run :=
  match bind_option playabilityStatus (fun p =>
        bind_option (errorScreen p) (fun e =>
        bind_option (playerErrorMessageRenderer e) (fun r =>
        bind_option (subreason r) runs))) with
  | Some l => l
  | None => []
  end.

Definition subReasonTexts (playabilityStatus : option PlayabilityStatus) : list string :=
  filter (fun text => (0 <? String.length text)%nat)
         (map (fun run => match run_text run with Some t => t | None => "" end)
              (subreasons playabilityStatus)).

Definition assertPlayability (playabilityStatus : option PlayabilityStatus)
    (videoId : string) : Result unit :=
  let status := bind_option playabilityStatus status in
  match status with
  | None => Ok tt
  | Some st =>
      if String.eqb st OK then Ok tt
      else
        let reason := bind_option playabilityStatus reason in
        let login_failure :=
          if String.eqb st LOGIN_REQUIRED then
            if equals reason BOT_DETECTED then Some (RequestBlocked videoId None)
            else if equals reason AGE_RESTRICTED then Some (AgeRestricted videoId)
            else None
          else None in
        match login_failure with
        | Some failure => Throw failure
        | None =>
            if String.eqb st ERROR && equals reason VIDEO_UNAVAILABLE then
              if startsWith videoId "http://" || startsWith videoId "https://" then
                Throw (InvalidVideoId videoId)
              else Throw (VideoUnavailable videoId)
            else
              match new_VideoUnplayable videoId reason (subReasonTexts playabilityStatus) with
              | Ok failure => Throw failure
              | Throw e => Throw e
              end
        end
  end.

End Playability.

(* ===================================================================== *)
(** * transcripts.ts: [TranscriptListFetcher] *)
(* ===================================================================== *)

Module Fetcher.

Import JsString Errors Catalog Playability.
Local Open Scope string_scope.
Local Open Scope Z_scope.

(** The captions part of the player response, before it is checked. *)
Record RawCaptions : Type := {
  raw_captionTracks : option (list CaptionTrack);
  raw_translationLanguages : option (list (list string * string))
}.

Record Captions : Type := { playerCaptionsTracklistRenderer : option RawCaptions }.

Record InnertubeResponse : Type := {
  playabilityStatus : option PlayabilityStatus;
  captions : option Captions
}.

(** What the transport answers. [text()] and [json()] may reject. *)
Record HttpResponse : Type := {
  status : Z;
  statusText : string;
  text : Result string;
  json : Result InnertubeResponse
}.

(** The transport ([HttpClient]) is a collaborator: a state [St] that the
    requests and [setCookie] act on, and a fixed proxy configuration. *)
Class HttpClient (St : Type) : Type := {
  get : string -> St -> Result HttpResponse * St;
  post : string -> (string * string) * string -> St -> Result HttpResponse * St;
  setCookie : string -> string -> string -> St -> St;
  getProxyConfig : option Proxies.ProxyConfig
}.

(** [httpClient.retriesWhenBlocked]: [proxyConfig?.retriesWhenBlocked ?? 0] *)
Definition retriesWhenBlocked {St : Type} {client : HttpClient St} : Z :=
  match getProxyConfig with
  | Some proxyConfig => Proxies.retriesWhenBlocked proxyConfig
  | None => 0
  end.

(** Asynchronous code over the transport: a state transformer that
    returns or throws. *)
Definition Async (St A : Type) : Type := St -> Result A * St.

Definition ret {St A : Type} (a : A) : Async St A := fun s => (Ok a, s).

Definition throw {St A : Type} (e : Error) : Async St A := fun s => (Throw e, s).

Definition lift {St A : Type} (r : Result A) : Async St A := fun s => (r, s).

Definition bind {St A B : Type} (m : Async St A) (f : A -> Async St B) : Async St B :=
  fun s =>
    match m s with
    | (Ok a, s') => f a s'
    | (Throw e, s') => (Throw e, s')
    end.

Notation "'let*' x ':=' m 'in' k" := (bind m (fun x => k))
  (at level 10, x name, m at level 100, k at level 200).

(** The characters of an API key: letters, digits, underscore, hyphen. *)
Definition is_key_char (c : ascii) : bool :=
  is_alpha c || is_digit c || Ascii.eqb c "_"%char || Ascii.eqb c "-"%char.

(** The pattern of [extractInnertubeApiKey] (the quoted label
    INNERTUBE_API_KEY, a colon, white space, and a quoted key of one or
    more key characters) tried at the head of [s]: the captured key. The
    white space and the key are read greedily; neither can give a
    character back, as a quote follows each. *)
Definition api_key_at (s : string) : option string :=
  let label := dq ++ "INNERTUBE_API_KEY" ++ dq ++ ":" in
  if startsWith s label then
    let '(_, r1) := JsNumber.span is_space (drop (String.length label) s) in
    match r1 with
    | String q r2 =>
        if Ascii.eqb q "034"%char then
          match JsNumber.span is_key_char r2 with
          | (String k key, String q' _) =>
              if Ascii.eqb q' "034"%char then Some (String k key) else None
          | _ => None
          end
        else None
    | EmptyString => None
    end
  else None.

(** [s.match(re)\[1\]] for a pattern without the [g] flag: the leftmost
    position at which the pattern matches. *)
Fixpoint search (at_head : string -> option string) (s : string) : option string :=
  match at_head s with
  | Some captured => Some captured
  | None =>
      match s with
      | EmptyString => None
      | String _ s' => search at_head s'
      end
  end.

(** The lazy capture of [createConsentCookie] at the head of [s]: the
    text up to the first quote, which must come before any line
    terminator. *)
Fixpoint until_quote (s : string) : option string :=
  match s with
  | EmptyString => None
  | String c r =>
      if Ascii.eqb c "034"%char then Some ""
      else if is_line_terminator c then None
      else option_map (String c) (until_quote r)
  end.

(** The pattern of [createConsentCookie] (the attribute name=v, then
    value= and a quoted value) tried at the head of [s]. *)
Definition consent_value_at (s : string) : option string :=
  let label := "name=" ++ dq ++ "v" ++ dq ++ " value=" ++ dq in
  if startsWith s label then until_quote (drop (String.length label) s) else None.

Definition CONSENT_MARKER : string :=
  "action=" ++ dq ++ "https://consent.youtube.com/s" ++ dq.

Definition RECAPTCHA_MARKER : string := "class=" ++ dq ++ "g-recaptcha" ++ dq.

Section WithClient.

Context {St : Type} {httpClient : HttpClient St}.

(** [he.decode], the HTML entity decoder of the [he] package. *)
Variable htmlDecode : string -> string.

Definition raiseHttpErrors (response : HttpResponse) (videoId : string)
  : Async St HttpResponse :=
  if status response =? 429 then throw (IpBlocked videoId None)
  else if 400 <=? status response then
    throw (YouTubeRequestFailed videoId
             ("HTTP " ++ JsNumber.toString (JsNumber.of_Z (status response)) ++ ": "
              ++ statusText response))
  else ret response.

Definition fetchHtml (videoId : string) : Async St string :=
  let url := Settings.formatWatchUrl videoId in
  let* response := get url in
  let* _ := raiseHttpErrors response videoId in
  let* text := lift (text response) in
  ret (htmlDecode text).

Definition createConsentCookie (html videoId : string) : Async St unit :=
  match search consent_value_at html with
  | None => throw (FailedToCreateConsentCookie videoId)
  | Some v => fun s => (Ok tt, setCookie "CONSENT" ("YES+" ++ v) ".youtube.com" s)
  end.

Definition fetchVideoHtml (videoId : string) : Async St string :=
  let* html := fetchHtml videoId in
  if includes html CONSENT_MARKER then
    let* _ := createConsentCookie html videoId in
    let* html := fetchHtml videoId in
    if includes html CONSENT_MARKER then throw (FailedToCreateConsentCookie videoId)
    else ret html
  else ret html.

Definition extractInnertubeApiKey (html videoId : string) : Result string :=
  match search api_key_at html with
  | Some key => Ok key
  | None =>
      if includes html RECAPTCHA_MARKER then Throw (IpBlocked videoId None)
      else Throw (YouTubeDataUnparsable videoId)
  end.

Definition fetchInnertubeData (videoId apiKey : string) : Async St InnertubeResponse :=
  let url := Settings.formatInnertubeUrl apiKey in
  let* response := post url (Settings.INNERTUBE_CONTEXT, videoId) in
  let* _ := raiseHttpErrors response videoId in
  lift (json response).

Definition extractCaptionsJson (innertubeData : InnertubeResponse) (videoId : string)
  : Result CaptionsJson :=
  match assertPlayability (playabilityStatus innertubeData) videoId with
  | Throw e => Throw e
  | Ok _ =>
      match bind_option (captions innertubeData) playerCaptionsTracklistRenderer with
      | Some captionsJson =>
          match raw_captionTracks captionsJson with
          | Some tracks =>
              Ok {| captionTracks := tracks;
                    cj_translationLanguages := raw_translationLanguages captionsJson |}
          | None => Throw (TranscriptsDisabled videoId)
          end
      | None => Throw (TranscriptsDisabled videoId)
      end
  end.

(** The body of the [try] block of [fetchCaptionsJson]: one run of the
    whole pipeline. *)
Definition attempt (videoId : string) : Async St CaptionsJson :=
  let* html := fetchVideoHtml videoId in
  let* apiKey := lift (extractInnertubeApiKey html videoId) in
  let* innertubeData := fetchInnertubeData videoId apiKey in
  lift (extractCaptionsJson innertubeData videoId).

Equations? fetchCaptionsJson (videoId : string) (tryNumber : Z) (s : St)
  : Result CaptionsJson * St by wf (Z.to_nat (retriesWhenBlocked - tryNumber)) lt :=
  fetchCaptionsJson videoId tryNumber s with attempt videoId s => {
    | (Ok captionsJson, s') := (Ok captionsJson, s');
    | (Throw error, s') with instanceof_RequestBlocked error => {
        | true with Z_lt_dec (tryNumber + 1) retriesWhenBlocked => {
            | left _ := fetchCaptionsJson videoId (tryNumber + 1) s';
            | right _ := (Throw (withProxyConfig error getProxyConfig), s') };
        | false := (Throw error, s') } }.
Proof. lia. Qed.

(** [TranscriptListFetcher.fetch(videoId)] *)
Definition fetch (videoId : string) : Async St TranscriptList :=
  let* captionsJson := (fun s => fetchCaptionsJson videoId 0 s) in
  lift (build videoId captionsJson).

End WithClient.

End Fetcher.

(* ===================================================================== *)
(** * transcripts.ts: [TranscriptParser] *)
(* ===================================================================== *)

(** The values an XML or JSON reader builds. An object is the list of its
    properties; reading a property takes the first entry of that name. *)
Module JsValue.

Import JsString.
Local Open Scope string_scope.

Inductive t : Type :=
| Undefined
| Null
| Boolean (b : bool)
| Number (n : float)
| Str (s : string)
| Array (items : list t)
| Object (properties : list (string * t)).

Fixpoint lookup (properties : list (string * t)) (key : string) : t :=
  match properties with
  | [] => Undefined
  | (k, v) :: rest => if String.eqb k key then v else lookup rest key
  end.

(** [v\[key\]] for a key that no prototype defines: [None] stands for the
    [TypeError] of reading a property of [undefined] or [null]. *)
Definition prop (v : t) (key : string) : option t :=
  match v with
  | Undefined | Null => None
  | Object properties => Some (lookup properties key)
  | _ => Some Undefined
  end.

(** [!v] is false: [v] is truthy. *)
Definition truthy (v : t) : bool :=
  match v with
  | Undefined | Null => false
  | Boolean b => b
  | Number n => negb (PrimFloat.is_nan n || PrimFloat.is_zero n)
  | Str s => negb (String.eqb s "")
  | Array _ | Object _ => true
  end.

(** [v ?? d] *)
Definition nullish_or (v d : t) : t :=
  match v with
  | Undefined | Null => d
  | _ => v
  end.

(** [String(v)]; an array joins its elements with commas, [undefined] and
    [null] elements giving the empty string. *)
Fixpoint String_ (v : t) : string :=
  match v with
  | Undefined => "undefined"
  | Null => "null"
  | Boolean b => if b then "true" else "false"
  | Number n => JsNumber.toString n
  | Str s => s
  | Array items =>
      join "," (map (fun item =>
                       match item with
                       | Undefined | Null => ""
                       | _ => String_ item
                       end) items)
  | Object _ => "[object Object]"
  end.

End JsValue.

Module Parser.

Import JsString Types Errors.
Local Open Scope string_scope.

Definition FORMATTING_TAGS : list string :=
  ["strong"; "em"; "b"; "i"; "mark"; "small"; "del"; "ins"; "sub"; "sup"].

(** The two regular expressions [getHtmlRegex] can return, both with the
    flags [gi]: every tag, or every tag but those of a list. *)
Inductive HtmlRegex : Type :=
| EveryTag
| EveryTagBut (formats : list string).

Definition getHtmlRegex (preserveFormatting : bool) : HtmlRegex :=
  if preserveFormatting then EveryTagBut FORMATTING_TAGS else EveryTag.

(** [EveryTag] is an opening angle bracket, any characters other than a
    closing bracket, and a closing bracket. After the opening bracket, at
    [s]: the number of characters up to and including the closing one. *)
Fixpoint to_closing_bracket (s : string) : option nat :=
  match s with
  | EmptyString => None
  | String c r =>
      if Ascii.eqb c ">"%char then Some 1%nat
      else option_map S (to_closing_bracket r)
  end.

(** The word boundary that follows a tag name: the next character is not
    a word character, or the input ends. *)
Definition boundary_after (s : string) : bool :=
  match s with
  | EmptyString => true
  | String c _ => negb (is_word c)
  end.

(** One of the names in [formats], without case, then a word boundary. *)
Definition format_name_at (formats : list string) (s : string) : bool :=
  existsb (fun tag => startsWith_ci s tag && boundary_after (drop (String.length tag) s))
          formats.

(** What the negative look-ahead of [EveryTagBut] excludes at [s]: an
    optional slash, a name in [formats] and a word boundary. *)
Definition lookahead (formats : list string) (s : string) : bool :=
  match s with
  | String c r =>
      (Ascii.eqb c "/"%char && format_name_at formats r) || format_name_at formats s
  | EmptyString => format_name_at formats s
  end.

(** The tail of [EveryTagBut]: as few characters as possible, none a line
    terminator, then a word boundary and a closing bracket. A closing
    bracket is not a word character, so the boundary holds exactly when
    the character before it, [prev], is one. The result counts the
    characters up to and including the bracket. *)
Fixpoint lazy_to_bracket (prev : ascii) (s : string) : option nat :=
  match s with
  | EmptyString => None
  | String c r =>
      if Ascii.eqb c ">"%char && is_word prev then Some 1%nat
      else if is_line_terminator c then None
      else option_map S (lazy_to_bracket c r)
  end.

(** The length of the match of the expression at the head of [s], if
    there is one. For [EveryTagBut] the optional slash after the opening
    bracket is first taken, then given back when the rest fails. *)
Definition match_at (re : HtmlRegex) (s : string) : option nat :=
  match s with
  | String c r =>
      if Ascii.eqb c "<"%char then
        match re with
        | EveryTag => option_map S (to_closing_bracket r)
        | EveryTagBut formats =>
            let without_slash :=
              if lookahead formats r then None
              else option_map S (lazy_to_bracket c r) in
            match r with
            | String c' r' =>
                if Ascii.eqb c' "/"%char then
                  let with_slash :=
                    if lookahead formats r' then None
                    else option_map (fun n => S (S n)) (lazy_to_bracket c' r') in
                  match with_slash with
                  | Some n => Some n
                  | None => without_slash
                  end
                else without_slash
            | EmptyString => without_slash
            end
        end
      else None
  | EmptyString => None
  end.

(** [text.replace(re, '')] for an expression with the [g] flag: matches
    are looked for from left to right, each search starting where the
    previous match ended. [skip] counts the characters of the current
    match still to drop. *)
Fixpoint remove_matches (re : HtmlRegex) (skip : nat) (s : string) : string :=
  match s with
  | EmptyString => ""
  | String c r =>
      match skip with
      | S k => remove_matches re k r
      | O =>
          match match_at re s with
          | Some n => remove_matches re (Nat.pred n) r
          | None => String c (remove_matches re 0 r)
          end
      end
  end.

Definition replace_all (re : HtmlRegex) (text : string) : string :=
  remove_matches re 0 text.

Section WithReaders.

(** [new XMLParser({ignoreAttributes: false, attributeNamePrefix: '@_'}).parse]
    of the fast-xml-parser package: a tree, or an exception. *)
Variable XMLParser_parse : string -> Result JsValue.t.

(** [he.decode] *)
Variable htmlDecode : string -> string.

Definition TypeError : Error :=
  Foreign "TypeError" "Cannot read properties of undefined".

(** The predicate of [elements.filter]. *)
Definition has_text (el : JsValue.t) : bool :=
  match el with
  | JsValue.Str _ => true
  | JsValue.Object properties =>
      match JsValue.lookup properties "#text" with
      | JsValue.Undefined => false
      | _ => true
      end
  | JsValue.Array _ => false
  | _ => false
  end.

(** The function of [elements.map]. The entries that pass the filter are
    strings and objects; the last case, the reads of the else branch on a
    value without properties, is there for totality. *)
Definition to_snippet (htmlRegex : HtmlRegex) (el : JsValue.t) : TranscriptSnippet :=
  let '(text, start, duration) :=
    match el with
    | JsValue.Str s => (s, 0%float, 0%float)
    | JsValue.Object properties =>
        (JsValue.String_ (JsValue.nullish_or (JsValue.lookup properties "#text") (JsValue.Str "")),
         JsNumber.parseFloat
           (JsValue.String_ (JsValue.nullish_or (JsValue.lookup properties "@_start")
                                                (JsValue.Str "0"))),
         JsNumber.parseFloat
           (JsValue.String_ (JsValue.nullish_or (JsValue.lookup properties "@_dur")
                                                (JsValue.Str "0"))))
    | _ =>
        (JsValue.String_ (JsValue.Str ""), JsNumber.parseFloat "0", JsNumber.parseFloat "0")
    end in
  let cleanText := htmlDecode (replace_all htmlRegex text) in
  {| text := cleanText; start := start; duration := duration |}.

(** [new TranscriptParser(preserveFormatting).parse(rawData)] *)
Definition parse (preserveFormatting : bool) (rawData : string)
  : Result (list TranscriptSnippet) :=
  let htmlRegex := getHtmlRegex preserveFormatting in
  match XMLParser_parse rawData with
  | Throw e => Throw e
  | Ok parsed =>
      match JsValue.prop parsed "transcript" with
      | None => Throw TypeError
      | Some transcript =>
          let textElements :=
            match JsValue.prop transcript "text" with
            | Some v => v
            | None => JsValue.Undefined
            end in
          if negb (JsValue.truthy textElements) then Ok []
          else
            let elements :=
              match textElements with
              | JsValue.Array items => items
              | _ => [textElements]
              end in
            Ok (map (to_snippet htmlRegex) (filter has_text elements))
      end
  end.

End WithReaders.

End Parser.

(* ===================================================================== *)
(** * transcripts.ts: [Transcript.fetch] *)
(* ===================================================================== *)

Module TrackFetch.

Import JsString Errors Catalog Fetcher.
Local Open Scope string_scope.

Section WithCollaborators.

Context {St : Type} {httpClient : HttpClient St}.

Variable XMLParser_parse : string -> Result JsValue.t.
Variable htmlDecode : string -> string.

(** [transcript.fetch(preserveFormatting)] *)
Definition fetch (t : Transcript) (preserveFormatting : bool)
  : Async St Fetched.FetchedTranscript :=
  if includes (_url t) "&exp=xpe" then throw (PoTokenRequired (videoId t))
  else
    let* response := get (_url t) in
    let* _ := raiseHttpErrors response (videoId t) in
    let* rawData := lift (text response) in
    let* snippets := lift (Parser.parse XMLParser_parse htmlDecode preserveFormatting rawData) in
    ret {| Fetched.snippets := snippets;
           Fetched.videoId := videoId t;
           Fetched.language := language t;
           Fetched.languageCode := languageCode t;
           Fetched.isGenerated := isGenerated t |}.

End WithCollaborators.

End TrackFetch.

(* ===================================================================== *)
(** * JSON text, as [JSON.stringify] writes it *)
(* ===================================================================== *)

Module Json.

Import JsString.
Local Open Scope string_scope.
Local Open Scope Z_scope.

(** A hexadecimal digit, in lower case. *)
Definition hex_digit (n : nat) : ascii :=
  if (n <? 10)%nat then ascii_of_nat (48 + n) else ascii_of_nat (87 + n).

(** QuoteJSONString, one character: the quote and the backslash are
    escaped, the control characters are written as escapes, short where
    there is a short one. *)
Definition quote_char (c : ascii) : string :=
  let n := nat_of_ascii c in
  if (n =? 34)%nat then "\" ++ dq
  else if (n =? 92)%nat then "\\"
  else if (n =? 8)%nat then "\b"
  else if (n =? 12)%nat then "\f"
  else if (n =? 10)%nat then "\n"
  else if (n =? 13)%nat then "\r"
  else if (n =? 9)%nat then "\t"
  else if (n <? 32)%nat then
    "\u00" ++ String (hex_digit (n / 16)) (String (hex_digit (n mod 16)) "")
  else String c "".

Fixpoint quote_body (s : string) : string :=
  match s with
  | EmptyString => ""
  | String c r => quote_char c ++ quote_body r
  end.

(** QuoteJSONString *)
Definition quote (s : string) : string := dq ++ quote_body s ++ dq.

(** A number: [null] unless it is finite. *)
Definition number (n : float) : string :=
  if PrimFloat.is_finite n then JsNumber.toString n else "null".

(** [k] spaces. *)
Definition spaces (k : nat) : string := filler k " " " ".

(** [min(10, ToIntegerOrInfinity(space))]: the integer part of [space],
    cut towards zero; not a number counts as 0, and negative infinity,
    which like 0 is below 1, is written 0. *)
Definition gap_width (space : float) : Z :=
  match Prim2SF space with
  | S754_nan => 0
  | S754_zero _ => 0
  | S754_infinity s => if s then 0 else 10
  | S754_finite s m e =>
      Z.min 10 (if 0 <=? e then JsNumber.signed s m * 2 ^ e
                else Z.quot (JsNumber.signed s m) (2 ^ (- e)))
  end.

(** The gap of the third argument of [JSON.stringify], as the engine of
    Node.js sets it: for a number above 0, as many spaces as its integer
    part, at most 10; no gap, here [None], for [undefined] and for a
    number that is not above 0, NaN among them. A number between 0 and 1
    sets a gap of no spaces, and the engine lays the text out with it as
    with any other gap: this is where it leaves ECMA-262, which has no
    gap below 1. *)
Definition gap_of (space : option float) : option string :=
  match space with
  | None => None
  | Some n => if (0 <? n)%float then Some (spaces (Z.to_nat (gap_width n))) else None
  end.

(** The spaces of one level of indentation. *)
Definition step (gap : option string) : string :=
  match gap with Some g => g | None => "" end.

(** SerializeJSONArray and SerializeJSONObject: [parts] are the elements,
    or the members, already written at the indentation [indent ++ step gap];
    [indent] is the indentation of the enclosing level. With a gap every
    part is on a line of its own. *)
Definition enclose (opening closing : string) (gap : option string) (indent : string)
    (parts : list string) : string :=
  match parts with
  | [] => opening ++ closing
  | _ =>
      match gap with
      | None => opening ++ join "," parts ++ closing
      | Some g =>
          opening ++ nl ++ indent ++ g
          ++ join ("," ++ nl ++ indent ++ g) parts
          ++ nl ++ indent ++ closing
      end
  end.

(** One member of an object: with a gap a space follows the colon. *)
Definition member (gap : option string) (key value : string) : string :=
  quote key ++ ":" ++ (match gap with None => "" | Some _ => " " end) ++ value.

End Json.

(* ===================================================================== *)
(** * formatters.ts: the JSON formatters *)
(* ===================================================================== *)

Module JsonFormatters.

Import JsString Types Fetched.
Local Open Scope string_scope.

(** One element of [toRawData()], written at the indentation [indent]. *)
Definition snippet_json (gap : option string) (indent : string)
    (raw : string * float * float) : string :=
  let '(text, start, duration) := raw in
  Json.enclose "{" "}" gap indent
    [ Json.member gap "text" (Json.quote text);
      Json.member gap "start" (Json.number start);
      Json.member gap "duration" (Json.number duration) ].

(** [JSON.stringify(transcript.toRawData(), null, indent)] *)
Definition stringify_transcript (transcript : FetchedTranscript) (indent : option float)
  : string :=
  let gap := Json.gap_of indent in
  Json.enclose "[" "]" gap "" (map (snippet_json gap (Json.step gap)) (toRawData transcript)).

(** [JSON.stringify(transcripts.map((t) => t.toRawData()), null, indent)] *)
Definition stringify_transcripts (transcripts : list FetchedTranscript)
    (indent : option float) : string :=
  let gap := Json.gap_of indent in
  Json.enclose "[" "]" gap ""
    (map (fun t => Json.enclose "[" "]" gap (Json.step gap)
                     (map (snippet_json gap (Json.step gap ++ Json.step gap)) (toRawData t)))
         transcripts).



(** [PrettyPrintFormatter]: [options?.indent ?? 2] *)
Definition PrettyPrintFormatter_formatTranscript (transcript : FetchedTranscript)
    (indent : option float) : string :=
  stringify_transcript transcript
    (Some (match indent with Some n => n | None => 2%float end)).

Definition PrettyPrintFormatter_formatTranscripts (transcripts : list FetchedTranscript)
    (indent : option float) : string :=
  stringify_transcripts transcripts
    (Some (match indent with Some n => n | None => 2%float end)).

End JsonFormatters.

(* ===================================================================== *)
(** * http-client.ts *)
(* ===================================================================== *)

Module HttpClientImpl.

Import JsString Errors.
Local Open Scope string_scope.

(** A [Record<string, string>] of header fields, in the order they were
    first set. (The engine lists integer-like names first; no look-up
    depends on the order.) *)
Definition Headers : Type := JsMap.t string.

(** [{...a, ...b}]: the fields of [a], then those of [b], a later value
    replacing an earlier one of the same name. *)
Definition spread (a b : Headers) : Headers :=
  fold_left (fun m kv => JsMap.set m (fst kv) (snd kv)) b a.

(** The four variables of [process.env] the constructor reads; all are
    missing where there is no [process]. *)
Record Env : Type := {
  HTTPS_PROXY : option string;
  https_proxy : option string;
  HTTP_PROXY : option string;
  http_proxy : option string
}.

(** The fields of the client that the constructor fixes. *)
Record Config : Type := {
  proxyConfig : option Proxies.ProxyConfig;
  defaultHeaders : Headers;
  proxyUrl : option string
}.

(** The [cookies] map: name to value and domain. *)
Definition Cookies : Type := JsMap.t (string * string).

Definition USER_AGENT : string :=
  "Mozilla/5.0 (Windows NT 10.0; Win64; x64) AppleWebKit/537.36 "
  ++ "(KHTML, like Gecko) Chrome/120.0.0.0 Safari/537.36".

Definition getProxyUrl (proxyConfig : option Proxies.ProxyConfig) (env : Env)
  : option string :=
  match proxyConfig with
  | Some pc => Some (Proxies.https (Proxies.toProxyDict pc))
  | None =>
      Proxies.or_else
        (Proxies.or_else (Proxies.or_else (HTTPS_PROXY env) (https_proxy env)) (HTTP_PROXY env))
        (http_proxy env)
  end.

(** [new HttpClient({proxyConfig, headers})] *)
Definition new (proxyConfig : option Proxies.ProxyConfig) (headers : option Headers)
    (env : Env) : Config :=
  let defaultHeaders :=
    spread [("Accept-Language", "en-US"); ("User-Agent", USER_AGENT)]
           (Proxies.from_option headers []) in
  let defaultHeaders :=
    match proxyConfig with
    | Some pc =>
        if Proxies.preventKeepingConnectionsAlive pc
        then JsMap.set defaultHeaders "Connection" "close"
        else defaultHeaders
    | None => defaultHeaders
    end in
  {| proxyConfig := proxyConfig;
     defaultHeaders := defaultHeaders;
     proxyUrl := getProxyUrl proxyConfig env |}.

(** The proxy agent of a request, known by the URL it is made for: there
    is one when [proxyUrl] is a non-empty string. Creating it is taken to
    succeed. *)
Definition getAgent (cfg : Config) : option string :=
  match proxyUrl cfg with
  | Some (String c u) => Some (String c u)
  | _ => None
  end.

Definition setCookie (name value domain : string) (cookies : Cookies) : Cookies :=
  JsMap.set cookies name (value, domain).

Definition getCookieHeader (cookies : Cookies) : option string :=
  match cookies with
  | [] => None
  | _ => Some (join "; " (map (fun entry => fst entry ++ "=" ++ fst (snd entry)) cookies))
  end.

Definition getHeaders (cfg : Config) (cookies : Cookies) (additionalHeaders : option Headers)
  : Headers :=
  let headers := spread (defaultHeaders cfg) (Proxies.from_option additionalHeaders []) in
  match getCookieHeader cookies with
  | Some (String c cookieHeader) => JsMap.set headers "Cookie" (String c cookieHeader)
  | _ => headers
  end.

(** What is handed to [fetch], or to [nodeFetch] when there is an agent. *)
Record Request : Type := {
  method : string;
  url : string;
  headers : Headers;
  body : option string;
  agent : option string
}.

(** The network: it answers a request, or the request is rejected, and it
    may change with every request. *)
Class Network (W : Type) : Type := {
  send : Request -> W -> Result Fetcher.HttpResponse * W
}.

(** [JSON.stringify({context: INNERTUBE_CONTEXT, videoId})], the body
    [fetchInnertubeData] posts. *)
Definition stringify_body (body : (string * string) * string) : string :=
  let '((clientName, clientVersion), videoId) := body in
  let object := Json.enclose "{" "}" None "" in
  object
    [ Json.member None "context"
        (object
           [ Json.member None "client"
               (object [ Json.member None "clientName" (Json.quote clientName);
                         Json.member None "clientVersion" (Json.quote clientVersion) ]) ]);
      Json.member None "videoId" (Json.quote videoId) ].

Section WithNetwork.

Context {W : Type} {network : Network W}.

Variable cfg : Config.

Definition get (url : string) (options_headers : option Headers)
  : Fetcher.Async (Cookies * W) Fetcher.HttpResponse :=
  fun s =>
    let '(cookies, w) := s in
    let '(response, w') :=
      send {| method := "GET";
              url := url;
              headers := getHeaders cfg cookies options_headers;
              body := None;
              agent := getAgent cfg |} w in
    (response, (cookies, w')).

Definition post (url : string) (body : (string * string) * string)
    (options_headers : option Headers)
  : Fetcher.Async (Cookies * W) Fetcher.HttpResponse :=
  fun s =>
    let '(cookies, w) := s in
    let '(response, w') :=
      send {| method := "POST";
              url := url;
              headers := spread [("Content-Type", "application/json")]
                                (getHeaders cfg cookies options_headers);
              body := Some (stringify_body body);
              agent := getAgent cfg |} w in
    (response, (cookies, w')).

(** The client as the transcript classes use it. *)
Definition client : Fetcher.HttpClient (Cookies * W) :=
  {| Fetcher.get := fun url => get url None;
     Fetcher.post := fun url body => post url body None;
     Fetcher.setCookie := fun name value domain s =>
       (setCookie name value domain (fst s), snd s);
     Fetcher.getProxyConfig := proxyConfig cfg |}.

End WithNetwork.

End HttpClientImpl.

(* ===================================================================== *)
(** * api.ts *)
(* ===================================================================== *)

Module Api.

Import JsString Errors Fetcher.
Local Open Scope string_scope.

(** The transport [new YouTubeTranscriptApi({proxyConfig})] creates. *)
Definition httpClient_of (proxyConfig : option Proxies.ProxyConfig) (env : HttpClientImpl.Env)
  : HttpClientImpl.Config :=
  HttpClientImpl.new proxyConfig None env.

Record LanguageInfo : Type := {
  code : string;
  name : string;
  isGenerated : bool;
  isTranslatable : bool
}.

Record Info : Type := {
  videoId : string;
  hasSubtitles : bool;
  languages : list LanguageInfo
}.

Section WithTransport.

Context {St : Type} {httpClient : HttpClient St}.

Variable XMLParser_parse : string -> Result JsValue.t.
Variable htmlDecode : string -> string.

Definition list_ (videoId : string) : Async St Catalog.TranscriptList :=
  Fetcher.fetch htmlDecode videoId.

Definition fetch (videoId : string) (languages : option (list string))
    (preserveFormatting : option bool) : Async St Fetched.FetchedTranscript :=
  let languages := Proxies.from_option languages ["en"] in
  let preserveFormatting := Proxies.from_option preserveFormatting false in
  let* transcriptList := list_ videoId in
  let* transcript := lift (Catalog.findTranscript transcriptList languages) in
  TrackFetch.fetch XMLParser_parse htmlDecode transcript preserveFormatting.

Definition getInfo (videoId : string) : Async St Info :=
  let* transcriptList := list_ videoId in
  let languages :=
    map (fun t => {| code := Catalog.languageCode t;
                     name := Catalog.language t;
                     isGenerated := Catalog.isGenerated t;
                     isTranslatable := Catalog.isTranslatable t |})
        (Catalog.iterate transcriptList) in
  ret {| videoId := videoId;
         hasSubtitles := (0 <? List.length languages)%nat;
         languages := languages |}.

Definition getSubtitles (videoId : string) (lang : option string)
  : Async St (list (string * float * float)) :=
  let lang := Proxies.from_option lang "en" in
  let* transcript := fetch videoId (Some [lang; "en"]) None in
  ret (Fetched.toRawData transcript).

Definition getText (videoId : string) (lang : option string) : Async St string :=
  let lang := Proxies.from_option lang "en" in
  let* transcript := fetch videoId (Some [lang; "en"]) None in
  ret (join nl (map Types.text (Fetched.iterate transcript))).

End WithTransport.

End Api.

(* ===================================================================== *)
(** * Sample data *)
(* ===================================================================== *)

Module Samples.

Import Types.
Local Open Scope string_scope.

(** The transcript of the formatter tests. *)
Definition mockTranscript : Fetched.FetchedTranscript :=
  {| Fetched.snippets :=
       [ {| text := "Hello world"; start := 0; duration := 1.5 |};
         {| text := "How are you"; start := 1.5; duration := 2 |};
         {| text := "Goodbye"; start := 3.5; duration := 1 |} ];
     Fetched.videoId := "test123";
     Fetched.language := "English";
     Fetched.languageCode := "en";
     Fetched.isGenerated := false |}.

(** Two snippets, the first still on screen when the second starts. *)
Definition overlapping : Fetched.FetchedTranscript :=
  {| Fetched.snippets :=
       [ {| text := "one"; start := 0; duration := 5 |};
         {| text := "two"; start := 2; duration := 1 |} ];
     Fetched.videoId := "test123";
     Fetched.language := "English";
     Fetched.languageCode := "en";
     Fetched.isGenerated := false |}.

(** The number the literal 1.9995 denotes. *)
Definition t_1_9995 : float := 0x1.ffdf3b645a1cbp+0%float.

(** Playability payloads with status LOGIN_REQUIRED. *)
Definition login_required (reason : option string) (subreason_runs : list (option string))
  : Playability.PlayabilityStatus :=
  {| Playability.status := Some Playability.LOGIN_REQUIRED;
     Playability.reason := reason;
     Playability.errorScreen :=
       Some {| Playability.playerErrorMessageRenderer :=
                 Some {| Playability.subreason :=
                           Some {| Playability.runs :=
                                     Some (map (fun t => {| Playability.run_text := t |})
                                               subreason_runs) |} |} |} |}.

Definition bot_detected : Playability.PlayabilityStatus :=
  login_required (Some Playability.BOT_DETECTED) [].

Definition age_restricted : Playability.PlayabilityStatus :=
  login_required (Some Playability.AGE_RESTRICTED) [].

Definition members_only : Playability.PlayabilityStatus :=
  login_required (Some "Join this channel to get access")
                 [Some "Members only"; None; Some ""; Some "Sign in"].

(** A caption listing with a generated English track and a manual German
    one, and the catalog built from it. *)
Definition captions_en_generated_de_manual : Catalog.CaptionsJson :=
  {| Catalog.captionTracks :=
       [ {| Catalog.baseUrl := "https://www.youtube.com/api/timedtext?v=vid&lang=en&fmt=srv3";
            Catalog.name_runs := ["English (auto-generated)"];
            Catalog.ct_languageCode := "en";
            Catalog.kind := Some "asr";
            Catalog.ct_isTranslatable := Some true |};
         {| Catalog.baseUrl := "https://www.youtube.com/api/timedtext?v=vid&lang=de";
            Catalog.name_runs := ["Deutsch"];
            Catalog.ct_languageCode := "de";
            Catalog.kind := None;
            Catalog.ct_isTranslatable := None |} ];
     Catalog.cj_translationLanguages := Some [(["French"], "fr"); (["Spanish"], "es")] |}.

Definition global_targets : list TranslationLanguage :=
  [ {| tl_language := "French"; tl_languageCode := "fr" |};
    {| tl_language := "Spanish"; tl_languageCode := "es" |} ].

Definition track_en_generated : Catalog.Transcript :=
  {| Catalog.videoId := "vid";
     Catalog._url := "https://www.youtube.com/api/timedtext?v=vid&lang=en";
     Catalog.language := "English (auto-generated)";
     Catalog.languageCode := "en";
     Catalog.isGenerated := true;
     Catalog.translationLanguages := global_targets |}.

Definition track_de_manual : Catalog.Transcript :=
  {| Catalog.videoId := "vid";
     Catalog._url := "https://www.youtube.com/api/timedtext?v=vid&lang=de";
     Catalog.language := "Deutsch";
     Catalog.languageCode := "de";
     Catalog.isGenerated := false;
     Catalog.translationLanguages := [] |}.

Definition catalog : Catalog.TranscriptList :=
  {| Catalog.tl_videoId := "vid";
     Catalog.manuallyCreatedTranscripts := [("de", track_de_manual)];
     Catalog.generatedTranscripts := [("en", track_en_generated)];
     Catalog._translationLanguages := global_targets |}.

(** A track whose own targets are French alone, in a catalog that lists
    French and Spanish. *)
Definition track_ja_french_only : Catalog.Transcript :=
  {| Catalog.videoId := "vid";
     Catalog._url := "https://www.youtube.com/api/timedtext?v=vid&lang=ja";
     Catalog.language := "Japanese";
     Catalog.languageCode := "ja";
     Catalog.isGenerated := false;
     Catalog.translationLanguages := [ {| tl_language := "French"; tl_languageCode := "fr" |} ] |}.

Definition catalog_with_french_only : Catalog.TranscriptList :=
  {| Catalog.tl_videoId := "vid";
     Catalog.manuallyCreatedTranscripts := [("ja", track_ja_french_only)];
     Catalog.generatedTranscripts := [];
     Catalog._translationLanguages := global_targets |}.

(** A transport whose state counts the requests made. Its first
    [blocked] requests for the watch page are answered with HTTP 429, the
    later ones with a page that holds an API key; every POST is answered
    with a player response that lists the captions above. *)
Definition no_json : Errors.Result Fetcher.InnertubeResponse :=
  Errors.Throw (Errors.Foreign "SyntaxError" "Unexpected token < in JSON").

Definition blocked_response : Fetcher.HttpResponse :=
  {| Fetcher.status := 429;
     Fetcher.statusText := "Too Many Requests";
     Fetcher.text := Errors.Ok "";
     Fetcher.json := no_json |}.

Definition watch_page : string :=
  "<html><script>ytcfg.set({" ++ JsString.dq ++ "INNERTUBE_API_KEY" ++ JsString.dq ++ ": "
  ++ JsString.dq ++ "AIzaSy-test_key" ++ JsString.dq ++ "});</script></html>".

Definition watch_page_response : Fetcher.HttpResponse :=
  {| Fetcher.status := 200;
     Fetcher.statusText := "OK";
     Fetcher.text := Errors.Ok watch_page;
     Fetcher.json := no_json |}.

Definition player_response : Fetcher.HttpResponse :=
  {| Fetcher.status := 200;
     Fetcher.statusText := "OK";
     Fetcher.text := Errors.Ok "";
     Fetcher.json :=
       Errors.Ok
         {| Fetcher.playabilityStatus :=
              Some {| Playability.status := Some Playability.OK;
                      Playability.reason := None;
                      Playability.errorScreen := None |};
            Fetcher.captions :=
              Some {| Fetcher.playerCaptionsTracklistRenderer :=
                        Some {| Fetcher.raw_captionTracks :=
                                  Some (Catalog.captionTracks captions_en_generated_de_manual);
                                Fetcher.raw_translationLanguages :=
                                  Catalog.cj_translationLanguages
                                    captions_en_generated_de_manual |} |} |} |}.

Definition scripted (blocked : nat) (proxyConfig : option Proxies.ProxyConfig)
  : Fetcher.HttpClient nat :=
  {| Fetcher.get := fun _ n =>
       (Errors.Ok (if (n <? blocked)%nat then blocked_response else watch_page_response), S n);
     Fetcher.post := fun _ _ n => (Errors.Ok player_response, S n);
     Fetcher.setCookie := fun _ _ _ n => n;
     Fetcher.getProxyConfig := proxyConfig |}.

(** The player response of a request taken for a bot. *)
Definition bot_response : Fetcher.HttpResponse :=
  {| Fetcher.status := 200;
     Fetcher.statusText := "OK";
     Fetcher.text := Errors.Ok "";
     Fetcher.json :=
       Errors.Ok {| Fetcher.playabilityStatus := Some bot_detected;
                    Fetcher.captions := None |} |}.

(** A transport that serves the watch page at once and answers the POST
    requests among its first [suspicious] requests as it does a bot. *)
Definition scripted_bot_check (suspicious : nat) (proxyConfig : option Proxies.ProxyConfig)
  : Fetcher.HttpClient nat :=
  {| Fetcher.get := fun _ n => (Errors.Ok watch_page_response, S n);
     Fetcher.post := fun _ _ n =>
       (Errors.Ok (if (n <? suspicious)%nat then bot_response else player_response), S n);
     Fetcher.setCookie := fun _ _ _ n => n;
     Fetcher.getProxyConfig := proxyConfig |}.

(** A rotating-residential proxy with a retry count of 2. *)
Definition webshare_2 : Proxies.ProxyConfig :=
  Proxies.WebshareProxyConfig
    {| Proxies.proxyUsername := "user";
       Proxies.proxyPassword := "secret";
       Proxies.filterIpLocations := None;
       Proxies.opt_retriesWhenBlocked := Some 2;
       Proxies.domainName := None;
       Proxies.proxyPort := None |}.

(** Caption bodies, and the trees the XML reader builds for them: text as
    [#text], attributes under the prefix [@_], attribute values as
    strings. *)
Definition text_element (attributes content : string) : string :=
  "<text" ++ attributes ++ ">" ++ content ++ "</text>".

Definition attribute (name value : string) : string :=
  " " ++ name ++ "=" ++ JsString.dq ++ value ++ JsString.dq.

Definition xml_with_unparseable_start : string :=
  "<transcript>" ++ text_element (attribute "start" "abc" ++ attribute "dur" "1") "hi"
  ++ "</transcript>".

Definition tree_with_unparseable_start : JsValue.t :=
  JsValue.Object
    [("transcript",
      JsValue.Object
        [("text",
          JsValue.Object [("#text", JsValue.Str "hi");
                          ("@_start", JsValue.Str "abc");
                          ("@_dur", JsValue.Str "1")])])].

Definition xml_of_three_entries : string :=
  "<transcript>"
  ++ text_element (attribute "start" "0" ++ attribute "dur" "1.5") "first"
  ++ text_element (attribute "start" "1.5" ++ attribute "dur" "2") ""
  ++ text_element (attribute "start" "3.5") "third"
  ++ "</transcript>".

Definition three_entries : list JsValue.t :=
  [ JsValue.Object [("#text", JsValue.Str "first");
                    ("@_start", JsValue.Str "0");
                    ("@_dur", JsValue.Str "1.5")];
    JsValue.Object [("@_start", JsValue.Str "1.5"); ("@_dur", JsValue.Str "2")];
    JsValue.Object [("#text", JsValue.Str "third"); ("@_start", JsValue.Str "3.5")] ].

Definition tree_of_three_entries : JsValue.t :=
  JsValue.Object [("transcript", JsValue.Object [("text", JsValue.Array three_entries)])].

(** A caption whose text holds an escaped line-break tag; the reader
    decodes the escapes. *)
Definition xml_with_line_break : string :=
  "<transcript>"
  ++ text_element (attribute "start" "0" ++ attribute "dur" "1") "one&lt;br/&gt;two"
  ++ "</transcript>".

Definition tree_with_line_break : JsValue.t :=
  JsValue.Object
    [("transcript",
      JsValue.Object
        [("text",
          JsValue.Object [("#text", JsValue.Str "one<br/>two");
                          ("@_start", JsValue.Str "0");
                          ("@_dur", JsValue.Str "1")])])].

(** A font tag with a quoted attribute around a bold word. *)
Definition font_with_attribute : string :=
  "<font color=" ++ JsString.dq ++ "red" ++ JsString.dq ++ "><b>x</b></font>".

End Samples.

(* ===================================================================== *)
(** * Further sample data *)
(* ===================================================================== *)

Module Scenarios.

Import JsString.
Local Open Scope string_scope.

(** No proxy variable is set. *)
Definition no_env : HttpClientImpl.Env :=
  {| HttpClientImpl.HTTPS_PROXY := None;
     HttpClientImpl.https_proxy := None;
     HttpClientImpl.HTTP_PROXY := None;
     HttpClientImpl.http_proxy := None |}.

(** The page that asks for consent to cookies, with its token. *)
Definition consent_page : string :=
  "<form action=" ++ dq ++ "https://consent.youtube.com/s" ++ dq ++ ">"
  ++ "<input type=" ++ dq ++ "hidden" ++ dq ++ " name=" ++ dq ++ "v" ++ dq
  ++ " value=" ++ dq ++ "cb.20210328" ++ dq ++ "></form>".

Definition consent_page_response : Fetcher.HttpResponse :=
  {| Fetcher.status := 200;
     Fetcher.statusText := "OK";
     Fetcher.text := Errors.Ok consent_page;
     Fetcher.json := Samples.no_json |}.

Definition not_found_response : Fetcher.HttpResponse :=
  {| Fetcher.status := 404;
     Fetcher.statusText := "Not Found";
     Fetcher.text := Errors.Ok "";
     Fetcher.json := Samples.no_json |}.

(** A network that counts the requests. It answers a POST with the
    player response of the samples, a GET that carries a cookie with the
    watch page, and a GET without a cookie with the consent page. *)
Definition consenting : HttpClientImpl.Network nat :=
  {| HttpClientImpl.send := fun request n =>
       (Errors.Ok
          (if String.eqb (HttpClientImpl.method request) "POST" then Samples.player_response
           else match JsMap.get (HttpClientImpl.headers request) "Cookie" with
                | Some _ => Samples.watch_page_response
                | None => consent_page_response
                end),
        S n) |}.

(** A transport that answers every request with status 404. *)
Definition missing : Fetcher.HttpClient nat :=
  {| Fetcher.get := fun _ n => (Errors.Ok not_found_response, S n);
     Fetcher.post := fun _ _ n => (Errors.Ok not_found_response, S n);
     Fetcher.setCookie := fun _ _ _ n => n;
     Fetcher.getProxyConfig := Some Samples.webshare_2 |}.

(** A generic proxy. *)
Definition generic_proxy : Proxies.ProxyConfig :=
  {| Proxies.type := Proxies.generic;
     Proxies.toProxyDict := {| Proxies.http := "http://proxy.example:8080";
                               Proxies.https := "http://proxy.example:8080" |};
     Proxies.preventKeepingConnectionsAlive := false;
     Proxies.retriesWhenBlocked := 0 |}.

(** A track whose URL asks for a proof-of-origin token. *)
Definition track_needing_po_token : Catalog.Transcript :=
  {| Catalog.videoId := "vid";
     Catalog._url := "https://www.youtube.com/api/timedtext?v=vid&lang=en&exp=xpe";
     Catalog.language := "English";
     Catalog.languageCode := "en";
     Catalog.isGenerated := false;
     Catalog.translationLanguages := Samples.global_targets |}.


End Scenarios.

(* ===================================================================== *)
(** * Vocabulary of the properties *)
(* ===================================================================== *)

Module Vocabulary.

Import JsString.
Local Open Scope string_scope.

(** [s.split('\n')] *)
Fixpoint split_lines (cur s : string) : list string :=
  match s with
  | EmptyString => [cur]
  | String c r =>
      if Ascii.eqb c LF then cur :: split_lines "" r
      else split_lines (cur ++ String c "") r
  end.

(** A line that holds a number and nothing else: digits, at least one,
    within white space. *)
Definition numeric_line (line : string) : bool :=
  let '(_, body) := JsNumber.span is_space line in
  let '(ds, rest) := JsNumber.span is_digit body in
  let '(_, tail) := JsNumber.span is_space rest in
  negb (String.eqb ds "") && String.eqb tail "".

(** What [parse] reads from an attribute value. *)
Definition attribute_number (v : JsValue.t) : float :=
  match v with
  | JsValue.Undefined | JsValue.Null => 0%float
  | _ => JsNumber.parseFloat (JsValue.String_ v)
  end.

(** A tag is an opening angle bracket with a closing one somewhere after
    it. *)
Fixpoint has_char (c : ascii) (s : string) : bool :=
  match s with
  | EmptyString => false
  | String d r => Ascii.eqb d c || has_char c r
  end.

Fixpoint has_tag (s : string) : bool :=
  match s with
  | EmptyString => false
  | String c r => (Ascii.eqb c "<"%char && has_char ">"%char r) || has_tag r
  end.

(** The values that are at least zero. *)
Definition nonnegative (x : spec_float) : Prop :=
  match x with
  | S754_zero _ | S754_infinity false | S754_finite false _ _ => True
  | _ => False
  end.

(** The retry policy in the words of the design notes: an explicit loop
    bounded by the retry budget, free of timers, that runs the pipeline,
    runs it again after a blocked request while runs are left, and
    re-raises on exhaustion. [runs] is the number of runs allowed, this
    one included; [exhausted] is what is done to the failure that is
    re-raised. *)
Fixpoint retry_while_blocked {St A : Type} (pipeline : Fetcher.Async St A)
    (exhausted : Errors.Error -> Errors.Error) (runs : nat) (s : St)
  : Errors.Result A * St :=
  match pipeline s with
  | (Errors.Ok a, s') => (Errors.Ok a, s')
  | (Errors.Throw e, s') =>
      if Errors.instanceof_RequestBlocked e then
        match runs with
        | S (S _ as runs') => retry_while_blocked pipeline exhausted runs' s'
        | _ => (Errors.Throw (exhausted e), s')
        end
      else (Errors.Throw e, s')
  end.

End Vocabulary.

(* ===================================================================== *)
(** * Further vocabulary *)
(* ===================================================================== *)

Module Terms.

Import JsString.
Local Open Scope string_scope.
Local Open Scope Z_scope.

(** A caption track whose kind is asr is a generated one. *)
Definition is_asr (caption : Catalog.CaptionTrack) : bool :=
  match Catalog.kind caption with
  | Some k => String.eqb k "asr"
  | None => false
  end.

(** The tier of a catalog a track of that origin is filed in. *)
Definition tier (generated : bool) (l : Catalog.TranscriptList) : JsMap.t Catalog.Transcript :=
  if generated then Catalog.generatedTranscripts l else Catalog.manuallyCreatedTranscripts l.

(** The tracks of one tier are filed under their own language code, each
    code once, with the origin of the tier, the video of the catalog, and
    either no translation targets or the targets of the catalog. *)
Definition filed (videoId : string) (targets : list Types.TranslationLanguage)
    (generated : bool) (m : JsMap.t Catalog.Transcript) : Prop :=
  NoDup (map fst m)
  /\ forall (k : string) (t : Catalog.Transcript),
       In (k, t) m ->
       Catalog.languageCode t = k
       /\ Catalog.isGenerated t = generated
       /\ Catalog.videoId t = videoId
       /\ (Catalog.translationLanguages t = [] \/ Catalog.translationLanguages t = targets).

(** The transcript object that [build] creates for a caption track. *)
Definition made_from (videoId : string) (targets : list Types.TranslationLanguage)
    (caption : Catalog.CaptionTrack) (t : Catalog.Transcript) : Prop :=
  Catalog.first_run_text (Catalog.name_runs caption) = Errors.Ok (Catalog.language t)
  /\ Catalog.videoId t = videoId
  /\ Catalog._url t = replace (Catalog.baseUrl caption) "&fmt=srv3" ""
  /\ Catalog.languageCode t = Catalog.ct_languageCode caption
  /\ Catalog.isGenerated t = is_asr caption
  /\ Catalog.translationLanguages t
     = match Catalog.ct_isTranslatable caption with
       | Some true => targets
       | _ => []
       end.

(** A caption track with the language code [code] and the origin
    [generated]. *)
Definition is_track (code : string) (generated : bool) (caption : Catalog.CaptionTrack) : bool :=
  String.eqb (Catalog.ct_languageCode caption) code && Bool.eqb (is_asr caption) generated.

(** The video an exception of the library is about. *)
Definition videoId_of (e : Errors.Error) : option string :=
  match e with
  | Errors.Foreign _ _ => None
  | Errors.YouTubeDataUnparsable v | Errors.YouTubeRequestFailed v _
  | Errors.VideoUnplayable v _ _ | Errors.VideoUnavailable v | Errors.InvalidVideoId v
  | Errors.RequestBlocked v _ | Errors.IpBlocked v _ | Errors.TranscriptsDisabled v
  | Errors.AgeRestricted v | Errors.NotTranslatable v
  | Errors.TranslationLanguageNotAvailable v | Errors.FailedToCreateConsentCookie v
  | Errors.NoTranscriptFound v _ _ | Errors.PoTokenRequired v => Some v
  end.

(** A video id that is written like a URL. *)
Definition looks_like_url (videoId : string) : bool :=
  startsWith videoId "http://" || startsWith videoId "https://".

(** Every character of [s] is in the class [p]. *)
Fixpoint every (p : ascii -> bool) (s : string) : bool :=
  match s with
  | EmptyString => true
  | String c r => p c && every p r
  end.

(** The label before the API key in the watch page: the quoted name
    INNERTUBE_API_KEY and a colon. *)
Definition API_KEY_LABEL : string := dq ++ "INNERTUBE_API_KEY" ++ dq ++ ":".

(** A number below 100 written with two digits, and one below 1000
    written with three. *)
Definition two_digits (k : Z) : string := padStart 2 "0" (JsNumber.digits_of k).

Definition three_digits (k : Z) : string := padStart 3 "0" (JsNumber.digits_of k).

(** A time of [ms] milliseconds as a caption file writes it: the
    seconds, a point, and three decimals. *)
Definition written_time (ms : Z) : string :=
  JsNumber.digits_of (ms / 1000) ++ "." ++ three_digits (ms mod 1000).

(** [f] holds for the [k] integers from [n] on. *)
Fixpoint upto (k : nat) (n : Z) (f : Z -> bool) : bool :=
  match k with
  | O => true
  | S k' => f n && upto k' (n + 1) f
  end.

(** The four fields [secondsToTimestamp] computes for [time] are the
    integers [hours], [mins], [secs] and [ms]. *)
Definition timestamp_fields (time : float) (hours mins secs ms : Z) : bool :=
  let remainder := JsNumber.rem time 3600%float in
  PrimFloat.Leibniz.eqb (JsNumber.Math_floor (time / 3600)%float) (JsNumber.of_Z hours)
  && PrimFloat.Leibniz.eqb (JsNumber.Math_floor (remainder / 60)%float) (JsNumber.of_Z mins)
  && PrimFloat.Leibniz.eqb (JsNumber.Math_floor (JsNumber.rem remainder 60%float))
                           (JsNumber.of_Z secs)
  && PrimFloat.Leibniz.eqb
       (JsNumber.Math_round ((time - JsNumber.Math_floor time) * 1000)%float)
       (JsNumber.of_Z ms).

Definition whole_second_fields (n : Z) : bool :=
  timestamp_fields (JsNumber.of_Z n) (n / 3600) (n mod 3600 / 60) (n mod 60) 0.

Definition millisecond_fields (ms : Z) : bool :=
  timestamp_fields (JsNumber.parseFloat (written_time ms)) 0 0 (ms / 1000) (ms mod 1000).

Definition integer_is_written_in_digits (k : Z) : bool :=
  String.eqb (JsNumber.toString (JsNumber.of_Z k)) (JsNumber.digits_of k).

(** A character that is not a control character. *)
Definition printable (c : ascii) : bool := (32 <=? nat_of_ascii c)%nat.

(** The value of a hexadecimal digit. *)
Definition hex_value (c : ascii) : option nat :=
  let n := nat_of_ascii c in
  if (48 <=? n)%nat && (n <=? 57)%nat then Some (n - 48)%nat
  else if (97 <=? n)%nat && (n <=? 102)%nat then Some (n - 87)%nat
  else if (65 <=? n)%nat && (n <=? 70)%nat then Some (n - 55)%nat
  else None.

(** Reading the characters of a JSON string literal after its opening
    quote, as the JSON grammar has them: up to the closing quote, which
    must end the text; a backslash starts an escape; a control character
    is not allowed. A code unit above 255 has no character here. *)
Fixpoint read_string_body (s : string) : option string :=
  match s with
  | EmptyString => None
  | String c r =>
      if Ascii.eqb c "034"%char then
        match r with EmptyString => Some "" | _ => None end
      else if Ascii.eqb c "\"%char then
        match r with
        | String e r' =>
            if Ascii.eqb e "034"%char then option_map (String "034"%char) (read_string_body r')
            else if Ascii.eqb e "\"%char then option_map (String "\"%char) (read_string_body r')
            else if Ascii.eqb e "/"%char then option_map (String "/"%char) (read_string_body r')
            else if Ascii.eqb e "b"%char then option_map (String "008"%char) (read_string_body r')
            else if Ascii.eqb e "f"%char then option_map (String "012"%char) (read_string_body r')
            else if Ascii.eqb e "n"%char then option_map (String "010"%char) (read_string_body r')
            else if Ascii.eqb e "r"%char then option_map (String "013"%char) (read_string_body r')
            else if Ascii.eqb e "t"%char then option_map (String "009"%char) (read_string_body r')
            else if Ascii.eqb e "u"%char then
              match r' with
              | String h1 (String h2 (String h3 (String h4 r''))) =>
                  match hex_value h1, hex_value h2, hex_value h3, hex_value h4 with
                  | Some a, Some b, Some c', Some d =>
                      let code := (4096 * a + 256 * b + 16 * c' + d)%nat in
                      if (code <? 256)%nat
                      then option_map (String (ascii_of_nat code)) (read_string_body r'')
                      else None
                  | _, _, _, _ => None
                  end
              | _ => None
              end
            else None
        | EmptyString => None
        end
      else if printable c then option_map (String c) (read_string_body r)
      else None
  end.

(** Reading a JSON string literal. *)
Definition read_string_literal (s : string) : option string :=
  match s with
  | String c r => if Ascii.eqb c "034"%char then read_string_body r else None
  | EmptyString => None
  end.


(** The request of a client for a watch page, but for its header
    fields. *)
Definition watch_request (cfg : HttpClientImpl.Config) (videoId : string)
    (fields : HttpClientImpl.Headers) : HttpClientImpl.Request :=
  {| HttpClientImpl.method := "GET";
     HttpClientImpl.url := Settings.formatWatchUrl videoId;
     HttpClientImpl.headers := fields;
     HttpClientImpl.body := None;
     HttpClientImpl.agent := HttpClientImpl.getAgent cfg |}.

(** A line of the listing of a catalog: the language code, the language
    in quotes and brackets, and the mark of a track that can be
    translated. *)
Definition listing_line (code language : string) (translatable : bool) : string :=
  " - " ++ code ++ " (" ++ dq ++ language ++ dq ++ ")"
  ++ (if translatable then "[TRANSLATABLE]" else "").

(** A section of the listing: its lines, or the word None when it has
    none. *)
Definition listing_section (lines : list string) : string :=
  match lines with
  | [] => "None"
  | _ => join nl lines
  end.


End Terms.

(* ===================================================================== *)
(** * Properties *)
(* ===================================================================== *)

Unset Implicit Arguments.
Import Vocabulary.

(** ** Checks of the runtime fragment *)

Section RuntimeChecks.

Local Open Scope string_scope.

Lemma parseFloat_samples :
  JsNumber.parseFloat "1.9995" = Samples.t_1_9995
  /\ JsNumber.parseFloat "  3.5e2xyz" = 350%float
  /\ JsNumber.parseFloat ".5" = 0.5%float
  /\ JsNumber.parseFloat "-0" = (-0)%float
  /\ JsNumber.parseFloat "Infinity" = infinity
  /\ JsNumber.parseFloat "" = nan
  /\ JsNumber.parseFloat "." = nan.
Proof. repeat split; vm_compute; reflexivity. Qed.

Lemma toString_samples :
  JsNumber.toString 0%float = "0"
  /\ JsNumber.toString (-0)%float = "0"
  /\ JsNumber.toString 1000%float = "1000"
  /\ JsNumber.toString 1.5%float = "1.5"
  /\ JsNumber.toString Samples.t_1_9995 = "1.9995"
  /\ JsNumber.toString (-2.25)%float = "-2.25"
  /\ JsNumber.toString (JsNumber.of_Z (10 ^ 21)) = "1e+21"
  /\ JsNumber.toString (JsNumber.of_Z (10 ^ 20)) = "100000000000000000000"
  /\ JsNumber.toString (JsNumber.parseFloat "1e-7") = "1e-7"
  /\ JsNumber.toString (JsNumber.parseFloat "0.000001") = "0.000001"
  /\ JsNumber.toString nan = "NaN"
  /\ JsNumber.toString neg_infinity = "-Infinity".
Proof. repeat split; vm_compute; reflexivity. Qed.

Lemma rounding_samples :
  JsNumber.Math_floor 1.5%float = 1%float
  /\ JsNumber.Math_floor (-1.5)%float = (-2)%float
  /\ JsNumber.Math_round 2.5%float = 3%float
  /\ JsNumber.Math_round (-2.5)%float = (-2)%float
  /\ JsNumber.Math_round 999.5%float = 1000%float
  /\ JsNumber.rem 3661.25%float 3600%float = 61.25%float
  /\ JsNumber.rem (-5.5)%float 2%float = (-1.5)%float
  /\ JsNumber.rem 5%float 0%float = nan.
Proof. repeat split; vm_compute; reflexivity. Qed.

Lemma string_samples :
  JsString.padStart 2 "0" "7" = "07"
  /\ JsString.padStart 3 "0" "1000" = "1000"
  /\ JsString.replace "a&fmt=srv3b&fmt=srv3" "&fmt=srv3" "" = "ab&fmt=srv3"
  /\ Settings.formatWatchUrl "abc123" = "https://www.youtube.com/watch?v=abc123"
  /\ JsString.includes "name=v value" "=v " = true.
Proof. repeat split; vm_compute; reflexivity. Qed.

End RuntimeChecks.

(** ** Positional access *)

(** C9. For every fetched transcript [t] and every integer index [i]
    outside the range from 0 up to [t.length], [t.get(i)] is [undefined]
    (here [None]): no error is raised, as [get] returns a value for every
    index. *)
Theorem get_outside_range_is_undefined :
  forall (t : Fetched.FetchedTranscript) (i : Z),
    i < 0 \/ Fetched.length t <= i ->
    Fetched.get t i = None.
Proof.
  intros t i Hi. unfold Fetched.get, Fetched.length in *.
  destruct (i <? 0) eqn:Hneg; [reflexivity|].
  apply Z.ltb_ge in Hneg.
  apply nth_error_None. lia.
Qed.

Lemma get_outside_range_is_undefined_witness :
  Fetched.get Samples.mockTranscript 3 = None
  /\ Fetched.get Samples.mockTranscript (-1) = None.
Proof.
  split.
  - apply get_outside_range_is_undefined. right. vm_compute. discriminate.
  - apply get_outside_range_is_undefined. left. lia.
Defined.

(** ** Order of numbers *)

Section NumberOrder.

Local Open Scope float_scope.

(** Comparing in the other direction gives the opposite answer. *)
Lemma SFcompare_swap (x y : spec_float) :
  SFcompare y x = option_map CompOpp (SFcompare x y).
Proof.
  destruct x as [sx | sx | | sx mx ex], y as [sy | sy | | sy my ey]; simpl;
    try destruct sx; try destruct sy; try reflexivity.
  - rewrite (Z.compare_antisym ey ex).
    destruct (ey ?= ex)%Z; simpl; try reflexivity.
    rewrite (Pos.compare_cont_antisym mx my Eq). reflexivity.
  - rewrite (Z.compare_antisym ey ex).
    destruct (ey ?= ex)%Z; simpl; try reflexivity.
    rewrite (Pos.compare_cont_antisym mx my Eq). reflexivity.
Qed.

(** A number that is not [NaN] compares with itself as equal. *)
Lemma SFcompare_self (a : float) :
  PrimFloat.is_nan a = false -> SFcompare (Prim2SF a) (Prim2SF a) = Some Eq.
Proof.
  unfold PrimFloat.is_nan. rewrite eqb_spec. unfold SFeqb.
  destruct (SFcompare (Prim2SF a) (Prim2SF a)) as [[ | | ] | ]; simpl;
    intros H; try discriminate; reflexivity.
Qed.

Lemma leb_refl (a : float) : PrimFloat.is_nan a = false -> (a <=? a) = true.
Proof.
  intros H. rewrite leb_spec. unfold SFleb. rewrite (SFcompare_self a H). reflexivity.
Qed.

Lemma ltb_leb (a b : float) : (a <? b) = true -> (a <=? b) = true.
Proof.
  rewrite ltb_spec, leb_spec. unfold SFltb, SFleb.
  destruct (SFcompare (Prim2SF a) (Prim2SF b)) as [[ | | ] | ];
    intros H; try discriminate; reflexivity.
Qed.

(** Two numbers, neither [NaN], are comparable. *)
Lemma SFcompare_numbers (a b : float) :
  PrimFloat.is_nan a = false -> PrimFloat.is_nan b = false ->
  exists c, SFcompare (Prim2SF a) (Prim2SF b) = Some c.
Proof.
  intros Ha Hb.
  pose proof (SFcompare_self a Ha) as Ha'. pose proof (SFcompare_self b Hb) as Hb'.
  destruct (Prim2SF a) as [sa | sa | | sa ma ea], (Prim2SF b) as [sb | sb | | sb mb eb];
    simpl in *; try discriminate; eexists; reflexivity.
Qed.

Lemma not_ltb_leb (a b : float) :
  PrimFloat.is_nan a = false -> PrimFloat.is_nan b = false ->
  (b <? a) = false -> (a <=? b) = true.
Proof.
  intros Ha Hb. rewrite ltb_spec, leb_spec. unfold SFltb, SFleb.
  destruct (SFcompare_numbers a b Ha Hb) as [c Hc].
  rewrite (SFcompare_swap (Prim2SF a) (Prim2SF b)), Hc.
  destruct c; simpl; intros H; try discriminate; reflexivity.
Qed.

End NumberOrder.

(** ** Times that are at least zero *)

Section NonNegativeTimes.

Local Open Scope Z_scope.

(** Rounding a mantissa that is at least zero never gives [NaN], so
    the sum of two times that are at least zero is a number. *)
Lemma shr_1_nonneg (mrs : shr_record) : 0 <= shr_m mrs -> 0 <= shr_m (shr_1 mrs).
Proof.
  destruct mrs as [m r s]. destruct m as [| [p | p |] | p]; simpl; lia.
Qed.

Lemma iter_shr_1_nonneg (p : positive) (mrs : shr_record) :
  0 <= shr_m mrs -> 0 <= shr_m (iter_pos shr_1 p mrs).
Proof.
  revert mrs. induction p as [p IH | p IH |]; intros mrs H; simpl.
  - apply IH, IH, shr_1_nonneg, H.
  - apply IH, IH, H.
  - apply shr_1_nonneg, H.
Qed.

Lemma shr_fexp_nonneg (m e : Z) (l : location) :
  0 <= m -> 0 <= shr_m (fst (shr_fexp prec emax m e l)).
Proof.
  intros H. unfold shr_fexp, shr.
  assert (H0 : 0 <= shr_m (shr_record_of_loc m l))
    by (destruct l as [| []]; simpl; exact H).
  destruct (fexp prec emax (Zdigits2 m + e) - e); simpl; try exact H0.
  apply iter_shr_1_nonneg, H0.
Qed.

Lemma round_nearest_even_nonneg (m : Z) (l : location) :
  0 <= m -> 0 <= round_nearest_even m l.
Proof.
  intros H. destruct l as [| []]; simpl; try lia.
  destruct (Z.even m); lia.
Qed.

Lemma binary_round_aux_number (s : bool) (m e : Z) (l : location) :
  0 <= m -> binary_round_aux prec emax s m e l <> S754_nan.
Proof.
  intros H. unfold binary_round_aux.
  pose proof (shr_fexp_nonneg m e l H) as H1.
  destruct (shr_fexp prec emax m e l) as [mrs' e']. simpl in H1.
  pose proof (shr_fexp_nonneg _ e' loc_Exact
                (round_nearest_even_nonneg _ (loc_of_shr_record mrs') H1)) as H2.
  destruct (shr_fexp prec emax (round_nearest_even (shr_m mrs') (loc_of_shr_record mrs')) e'
                     loc_Exact) as [mrs'' e'']. simpl in H2.
  destruct (shr_m mrs'') as [| p | p]; try discriminate.
  - destruct (e'' <=? emax - prec); discriminate.
  - lia.
Qed.

Lemma binary_normalize_number (m e : Z) (szero : bool) :
  binary_normalize prec emax m e szero <> S754_nan.
Proof.
  unfold binary_normalize, binary_round.
  destruct m as [| p | p]; [discriminate | |].
  - destruct (shl_align p e _) as [mz ez]. apply binary_round_aux_number. lia.
  - destruct (shl_align p e _) as [mz ez]. apply binary_round_aux_number. lia.
Qed.

Lemma leb_zero_nonnegative (a : float) :
  (0 <=? a)%float = true -> nonnegative (Prim2SF a).
Proof.
  rewrite leb_spec. change (Prim2SF 0) with (S754_zero false).
  unfold SFleb. destruct (Prim2SF a) as [s | [] | | [] m e]; simpl; intros H;
    try discriminate; exact I.
Qed.

Lemma number_is_not_nan (a : float) : Prim2SF a <> S754_nan -> PrimFloat.is_nan a = false.
Proof.
  intros H. unfold PrimFloat.is_nan. rewrite eqb_spec. unfold SFeqb.
  destruct (Prim2SF a) as [s | s | | s m e]; simpl.
  - reflexivity.
  - destruct s; reflexivity.
  - congruence.
  - rewrite Z.compare_refl, Pos.compare_cont_refl. destruct s; reflexivity.
Qed.

Lemma nonnegative_is_number (a : float) :
  (0 <=? a)%float = true -> PrimFloat.is_nan a = false.
Proof.
  intros H. apply number_is_not_nan. apply leb_zero_nonnegative in H.
  destruct (Prim2SF a); [| | contradiction |]; discriminate.
Qed.

Lemma nonnegative_sum_is_number (a b : float) :
  (0 <=? a)%float = true -> (0 <=? b)%float = true -> PrimFloat.is_nan (a + b)%float = false.
Proof.
  intros Ha Hb. apply number_is_not_nan. rewrite add_spec.
  apply leb_zero_nonnegative in Ha, Hb. unfold SF64add, SFadd.
  destruct (Prim2SF a) as [sa | [] | | [] ma ea]; try contradiction;
    destruct (Prim2SF b) as [sb | [] | | [] mb eb]; try contradiction;
    try discriminate; try (destruct sa, sb; discriminate).
  apply binary_normalize_number.
Qed.

End NonNegativeTimes.

(** ** The timestamp formatters *)

Section TimestampFormatters.

Import JsString Types Formatters.
Local Open Scope string_scope.

(** The line of the cue at index [i] is the [i]-th line the loop
    produces. *)
Lemma cues_nth {F : TextBasedFormatter} (snippets from_k : list TranscriptSnippet)
    (k i : nat) (s : TranscriptSnippet) :
  nth_error from_k i = Some s ->
  nth_error (cues snippets k from_k) i = Some (cue snippets (k + i) s).
Proof.
  revert k i. induction from_k as [| x rest IH]; intros k i H.
  - destruct i; discriminate.
  - destruct i as [| i]; simpl in *.
    + injection H as ->. rewrite Nat.add_0_r. reflexivity.
    + rewrite (IH (S k) i H). f_equal. f_equal. lia.
Qed.

Lemma cues_length {F : TextBasedFormatter} (snippets from_k : list TranscriptSnippet)
    (k : nat) :
  List.length (cues snippets k from_k) = List.length from_k.
Proof.
  revert k. induction from_k as [| x rest IH]; intros k; simpl; [reflexivity|].
  rewrite IH. reflexivity.
Qed.

(** C5. In the output of a timestamp-based formatter, the cue of snippet
    [s\[i\]] shows the end time [min(s\[i\].start + s\[i\].duration,
    s\[i+1\].start)] when a snippet follows (the shown time is one of the
    two, and at most each of them, the times being numbers), and
    [s\[i\].start + s\[i\].duration], unclipped, for the last snippet. *)
Theorem cue_end_time_is_clipped_to_next_start :
  forall (F : TextBasedFormatter) (transcript : Fetched.FetchedTranscript)
         (i : nat) (s : TranscriptSnippet),
    nth_error (Fetched.snippets transcript) i = Some s ->
    exists shown : float,
      formatTranscript transcript
      = formatTranscriptHeader (cues (Fetched.snippets transcript) 0 (Fetched.snippets transcript))
      /\ nth_error (cues (Fetched.snippets transcript) 0 (Fetched.snippets transcript)) i
         = Some (formatTranscriptHelper i
                   (secondsToTimestamp (start s) ++ " --> " ++ secondsToTimestamp shown) s)
      /\ match nth_error (Fetched.snippets transcript) (i + 1) with
         | Some next =>
             PrimFloat.is_nan (start s + duration s)%float = false ->
             PrimFloat.is_nan (start next) = false ->
             (shown = (start s + duration s)%float \/ shown = start next)
             /\ (shown <=? start s + duration s)%float = true
             /\ (shown <=? start next)%float = true
         | None => shown = (start s + duration s)%float
         end.
Proof.
  intros F transcript i s Hs. set (end_ := (start s + duration s)%float).
  exists (adjustedEnd (Fetched.snippets transcript) i s).
  split; [reflexivity|]. split.
  - rewrite (cues_nth (Fetched.snippets transcript) (Fetched.snippets transcript) 0 i s Hs).
    reflexivity.
  - unfold adjustedEnd. fold end_.
    destruct (nth_error (Fetched.snippets transcript) (i + 1)) as [next|] eqn:Hnext.
    + assert (Hlt : (i + 1 < List.length (Fetched.snippets transcript))%nat)
        by (apply nth_error_Some; rewrite Hnext; discriminate).
      replace (i <? List.length (Fetched.snippets transcript) - 1)%nat with true
        by (symmetry; apply Nat.ltb_lt; lia).
      intros Hend Hnx.
      destruct (start next <? end_)%float eqn:Hcmp.
      * split; [right; reflexivity|]. split.
        -- apply ltb_leb; exact Hcmp.
        -- apply leb_refl; exact Hnx.
      * split; [left; reflexivity|]. split.
        -- apply leb_refl; exact Hend.
        -- apply not_ltb_leb; assumption.
    + assert (Hge : (List.length (Fetched.snippets transcript) <= i + 1)%nat)
        by (apply nth_error_None; exact Hnext).
      replace (i <? List.length (Fetched.snippets transcript) - 1)%nat with false
        by (symmetry; apply Nat.ltb_ge; lia).
      destruct (end_ <? end_)%float; reflexivity.
Qed.

(** The same for snippets as the data model has them, with start and
    duration at least zero: such times are numbers. *)
Lemma cue_end_time_for_nonnegative_times :
  forall (F : TextBasedFormatter) (snippets : list TranscriptSnippet)
         (i : nat) (s next : TranscriptSnippet),
    nth_error snippets i = Some s ->
    nth_error snippets (i + 1) = Some next ->
    (0 <=? start s)%float = true ->
    (0 <=? duration s)%float = true ->
    (0 <=? start next)%float = true ->
    (adjustedEnd snippets i s = (start s + duration s)%float
     \/ adjustedEnd snippets i s = start next)
    /\ (adjustedEnd snippets i s <=? start s + duration s)%float = true
    /\ (adjustedEnd snippets i s <=? start next)%float = true.
Proof.
  intros F snippets i s next Hs Hnext Hstart Hduration Hstart'.
  pose proof (nonnegative_sum_is_number _ _ Hstart Hduration) as Hend.
  pose proof (nonnegative_is_number _ Hstart') as Hnx.
  unfold adjustedEnd. rewrite Hnext.
  assert (Hlt : (i + 1 < List.length snippets)%nat)
    by (apply nth_error_Some; rewrite Hnext; discriminate).
  replace (i <? List.length snippets - 1)%nat with true
    by (symmetry; apply Nat.ltb_lt; lia).
  destruct (start next <? start s + duration s)%float eqn:Hcmp.
  - split; [right; reflexivity |]. split; [apply ltb_leb; exact Hcmp | apply leb_refl; exact Hnx].
  - split; [left; reflexivity |]. split; [apply leb_refl; exact Hend |].
    apply not_ltb_leb; assumption.
Qed.

Lemma cue_end_time_is_clipped_to_next_start_witness :
  nth_error (cues (F := SRTFormatter) (Fetched.snippets Samples.overlapping) 0
                  (Fetched.snippets Samples.overlapping)) 0
  = Some ("1" ++ nl ++ "00:00:00,000 --> 00:00:02,000" ++ nl ++ "one")
  /\ nth_error (cues (F := SRTFormatter) (Fetched.snippets Samples.overlapping) 0
                     (Fetched.snippets Samples.overlapping)) 1
     = Some ("2" ++ nl ++ "00:00:02,000 --> 00:00:03,000" ++ nl ++ "two").
Proof.
  split.
  - destruct (cue_end_time_is_clipped_to_next_start SRTFormatter Samples.overlapping 0
                {| text := "one"; start := 0; duration := 5 |} eq_refl)
      as (shown & _ & Hline & Hmin).
    simpl in Hmin. destruct (Hmin eq_refl eq_refl) as ([-> | ->] & _ & Hle).
    + vm_compute in Hle. discriminate.
    + rewrite Hline. vm_compute. reflexivity.
  - destruct (cue_end_time_is_clipped_to_next_start SRTFormatter Samples.overlapping 1
                {| text := "two"; start := 2; duration := 1 |} eq_refl)
      as (shown & _ & Hline & Hlast).
    simpl in Hlast. rewrite Hline, Hlast. vm_compute. reflexivity.
Defined.

(** C8. For the three snippets of the formatter tests, the SRT output
    begins with the sequence number 1, the time line with comma
    separators, the text, a blank line and the sequence number 2; the
    WebVTT output begins with the signature line, a blank line, the time
    line with period separators and the text, and none of its lines is a
    number standing alone. *)
Theorem srt_and_webvtt_output_of_three_snippets :
  startsWith (formatTranscript (F := SRTFormatter) Samples.mockTranscript)
             ("1" ++ nl ++ "00:00:00,000 --> 00:00:01,500" ++ nl ++ "Hello world"
              ++ nl ++ nl ++ "2" ++ nl) = true
  /\ startsWith (formatTranscript (F := WebVTTFormatter) Samples.mockTranscript)
                ("WEBVTT" ++ nl ++ nl ++ "00:00:00.000 --> 00:00:01.500" ++ nl
                 ++ "Hello world" ++ nl ++ nl) = true
  /\ existsb numeric_line
       (split_lines "" (formatTranscript (F := WebVTTFormatter) Samples.mockTranscript))
     = false.
Proof. repeat split; vm_compute; reflexivity. Qed.

(** The whole of both outputs. *)
Lemma srt_output_of_three_snippets :
  formatTranscript (F := SRTFormatter) Samples.mockTranscript
  = "1" ++ nl ++ "00:00:00,000 --> 00:00:01,500" ++ nl ++ "Hello world" ++ nl ++ nl
    ++ "2" ++ nl ++ "00:00:01,500 --> 00:00:03,500" ++ nl ++ "How are you" ++ nl ++ nl
    ++ "3" ++ nl ++ "00:00:03,500 --> 00:00:04,500" ++ nl ++ "Goodbye" ++ nl.
Proof. vm_compute. reflexivity. Qed.

Lemma webvtt_output_of_three_snippets :
  formatTranscript (F := WebVTTFormatter) Samples.mockTranscript
  = "WEBVTT" ++ nl ++ nl
    ++ "00:00:00.000 --> 00:00:01.500" ++ nl ++ "Hello world" ++ nl ++ nl
    ++ "00:00:01.500 --> 00:00:03.500" ++ nl ++ "How are you" ++ nl ++ nl
    ++ "00:00:03.500 --> 00:00:04.500" ++ nl ++ "Goodbye" ++ nl.
Proof. vm_compute. reflexivity. Qed.

(** C10. When the fractional part of a time [t >= 0] rounds to 1000
    milliseconds, the timestamp ends with the four-character field 1000
    after the separator, and the hours, minutes and seconds before it are
    those of [t] itself: nothing is carried into the seconds. The time
    1.9995 is such a value, so the millisecond field is not always three
    digits. *)
Theorem millisecond_field_of_1000_is_not_carried :
  (forall t : float,
     (0 <=? t)%float = true ->
     JsNumber.Math_round ((t - JsNumber.Math_floor t) * 1000)%float = 1000%float ->
     let hh := padded 2 (JsNumber.Math_floor (t / 3600)%float) in
     let mm := padded 2 (JsNumber.Math_floor (JsNumber.rem t 3600 / 60)%float) in
     let ss := padded 2 (JsNumber.Math_floor (JsNumber.rem (JsNumber.rem t 3600) 60)) in
     secondsToTimestamp (F := SRTFormatter) t = hh ++ ":" ++ mm ++ ":" ++ ss ++ "," ++ "1000"
     /\ secondsToTimestamp (F := WebVTTFormatter) t
        = hh ++ ":" ++ mm ++ ":" ++ ss ++ "." ++ "1000")
  /\ (0 <=? Samples.t_1_9995)%float = true
  /\ JsNumber.Math_round ((Samples.t_1_9995 - JsNumber.Math_floor Samples.t_1_9995) * 1000)%float
     = 1000%float
  /\ secondsToTimestamp (F := SRTFormatter) Samples.t_1_9995 = "00:00:01,1000".
Proof.
  split; [| repeat split; vm_compute; reflexivity].
  intros t _ Hms hh mm ss.
  unfold secondsToTimestamp. rewrite Hms. simpl formatTimestamp.
  split; reflexivity.
Qed.

Lemma millisecond_field_of_1000_is_not_carried_witness :
  secondsToTimestamp (F := SRTFormatter) Samples.t_1_9995
  = padded 2 (JsNumber.Math_floor (Samples.t_1_9995 / 3600)%float) ++ ":"
    ++ padded 2 (JsNumber.Math_floor (JsNumber.rem Samples.t_1_9995 3600 / 60)%float) ++ ":"
    ++ padded 2 (JsNumber.Math_floor (JsNumber.rem (JsNumber.rem Samples.t_1_9995 3600) 60))
    ++ "," ++ "1000".
Proof.
  apply (proj1 millisecond_field_of_1000_is_not_carried Samples.t_1_9995).
  - vm_compute. reflexivity.
  - vm_compute. reflexivity.
Defined.

End TimestampFormatters.

(** ** The playability interpreter *)

Section PlayabilityInterpreter.

Import Errors Playability.
Local Open Scope string_scope.

Lemma equals_true (a : option string) (b : string) : equals a b = true <-> a = Some b.
Proof.
  destruct a as [a|]; simpl.
  - rewrite String.eqb_eq. split; [intros ->; reflexivity | intros [= ->]; reflexivity].
  - split; discriminate.
Qed.

Lemma equals_false (a : option string) (b : string) : equals a b = false <-> a <> Some b.
Proof.
  rewrite <- equals_true. destruct (equals a b); split; congruence.
Qed.

(** The sub-reasons an unplayable failure carries are the texts of the
    runs, those that are present and not empty, in their order. *)
Lemma subReasonTexts_spec (p : option PlayabilityStatus) (t : string) :
  In t (subReasonTexts p) <-> t <> "" /\ In {| run_text := Some t |} (subreasons p).
Proof.
  unfold subReasonTexts. rewrite filter_In, in_map_iff. split.
  - intros [(run & Htext & Hin) Hlen]. destruct run as [[text|]]; simpl in *; subst.
    + split; [| exact Hin]. intros ->. discriminate.
    + discriminate.
  - intros [Hne Hin]. split.
    + exists {| run_text := Some t |}. split; [reflexivity | exact Hin].
    + destruct t; [congruence | reflexivity].
Qed.

(** With its fields assigned, the getter of [VideoUnplayable] gives the
    cause that the message of the failure is built from. *)
Lemma VideoUnplayable_causeMessage_assigned (videoId : string) (reason : option string)
    (subReasons : list string) :
  VideoUnplayable_causeMessage (Some reason) (Some subReasons)
  = Ok (causeMessage (VideoUnplayable videoId reason subReasons)).
Proof. reflexivity. Qed.

(** The constructor of [VideoUnplayable] never returns: [super] reads the
    getter before [subReasons] is assigned. *)
Lemma new_VideoUnplayable_throws (videoId : string) (reason : option string)
    (subReasons : list string) :
  new_VideoUnplayable videoId reason subReasons
  = Throw (Foreign "TypeError" "Cannot read properties of undefined (reading 'length')").
Proof. reflexivity. Qed.

(** C2. For a playability payload with status LOGIN_REQUIRED: the
    bot-detection reason raises [RequestBlocked]; the age-restriction
    reason raises [AgeRestricted]; the call never returns normally. Any
    other reason, or none, reaches [new VideoUnplayable] with the raw
    reason and the non-empty sub-reason texts, but no [VideoUnplayable]
    is raised: the constructor fails within [super], which builds the
    message from a [subReasons] that is not assigned yet, and what the
    call throws is the [TypeError] of that read, which carries neither
    the reason nor the sub-reason texts. Read with the fields assigned,
    the same getter gives the cause of the failure that was meant. *)
Theorem login_required_with_another_reason_fails_in_the_constructor :
  forall (p : PlayabilityStatus) (videoId : string),
    status p = Some LOGIN_REQUIRED ->
    (reason p = Some BOT_DETECTED ->
     assertPlayability (Some p) videoId = Throw (RequestBlocked videoId None))
    /\ (reason p = Some AGE_RESTRICTED ->
        assertPlayability (Some p) videoId = Throw (AgeRestricted videoId))
    /\ (reason p <> Some BOT_DETECTED -> reason p <> Some AGE_RESTRICTED ->
        assertPlayability (Some p) videoId
        = Throw (Foreign "TypeError" "Cannot read properties of undefined (reading 'length')")
        /\ new_VideoUnplayable videoId (reason p) (subReasonTexts (Some p))
           = Throw (Foreign "TypeError"
                            "Cannot read properties of undefined (reading 'length')")
        /\ VideoUnplayable_causeMessage (Some (reason p)) (Some (subReasonTexts (Some p)))
           = Ok (causeMessage
                   (VideoUnplayable videoId (reason p) (subReasonTexts (Some p))))
        /\ forall t, In t (subReasonTexts (Some p))
                     <-> t <> "" /\ In {| run_text := Some t |} (subreasons (Some p)))
    /\ assertPlayability (Some p) videoId <> Ok tt
    /\ forall v r subs,
         assertPlayability (Some p) videoId <> Throw (VideoUnplayable v r subs).
Proof.
  intros p videoId Hstatus.
  assert (Hrun : assertPlayability (Some p) videoId
                 = if equals (reason p) BOT_DETECTED then Throw (RequestBlocked videoId None)
                   else if equals (reason p) AGE_RESTRICTED then Throw (AgeRestricted videoId)
                   else Throw (Foreign "TypeError"
                                 "Cannot read properties of undefined (reading 'length')")).
  { unfold assertPlayability. simpl bind_option. rewrite Hstatus. simpl.
    destruct (equals (reason p) BOT_DETECTED); [reflexivity|].
    destruct (equals (reason p) AGE_RESTRICTED); reflexivity. }
  rewrite Hrun. split; [| split; [| split; [| split]]].
  - intros Hbot. rewrite Hbot. reflexivity.
  - intros Hage. rewrite Hage. reflexivity.
  - intros Hbot Hage. apply equals_false in Hbot. apply equals_false in Hage.
    rewrite Hbot, Hage. split; [reflexivity |].
    split; [apply new_VideoUnplayable_throws |].
    split; [apply VideoUnplayable_causeMessage_assigned |].
    intros t. apply subReasonTexts_spec.
  - destruct (equals (reason p) BOT_DETECTED); [discriminate|].
    destruct (equals (reason p) AGE_RESTRICTED); discriminate.
  - intros v r subs.
    destruct (equals (reason p) BOT_DETECTED); [discriminate|].
    destruct (equals (reason p) AGE_RESTRICTED); discriminate.
Qed.

Lemma login_required_with_another_reason_fails_in_the_constructor_witness :
  assertPlayability (Some Samples.bot_detected) "vid" = Throw (RequestBlocked "vid" None)
  /\ assertPlayability (Some Samples.age_restricted) "vid" = Throw (AgeRestricted "vid")
  /\ assertPlayability (Some Samples.members_only) "vid"
     = Throw (Foreign "TypeError" "Cannot read properties of undefined (reading 'length')")
  /\ subReasonTexts (Some Samples.members_only) = ["Members only"; "Sign in"].
Proof.
  split; [| split; [| split]].
  - apply (login_required_with_another_reason_fails_in_the_constructor
             Samples.bot_detected "vid" eq_refl).
    reflexivity.
  - apply (login_required_with_another_reason_fails_in_the_constructor
             Samples.age_restricted "vid" eq_refl).
    reflexivity.
  - destruct (login_required_with_another_reason_fails_in_the_constructor
                Samples.members_only "vid" eq_refl) as (_ & _ & Hother & _).
    destruct Hother as [Hthrown _]; [discriminate | discriminate | exact Hthrown].
  - reflexivity.
Defined.

End PlayabilityInterpreter.

(** ** Strings *)

Section StringFacts.

Import JsString.
Local Open Scope string_scope.

Lemma append_nil_r (s : string) : s ++ "" = s.
Proof. induction s as [| c r IH]; simpl; [reflexivity | rewrite IH; reflexivity]. Qed.

Lemma append_assoc (a b c : string) : (a ++ b) ++ c = a ++ (b ++ c).
Proof. induction a as [| x r IH]; simpl; [reflexivity | rewrite IH; reflexivity]. Qed.

Lemma length_append (a b : string) :
  String.length (a ++ b) = (String.length a + String.length b)%nat.
Proof. induction a as [| x r IH]; simpl; [reflexivity | rewrite IH; reflexivity]. Qed.

Lemma append_inv_head (a b c : string) : a ++ b = a ++ c -> b = c.
Proof.
  induction a as [| x r IH]; simpl; intros H; [exact H |].
  injection H as H. apply IH. exact H.
Qed.

Lemma startsWith_append (p rest : string) : startsWith (p ++ rest) p = true.
Proof.
  induction p as [| c p IH]; simpl; [destruct rest; reflexivity |].
  rewrite Ascii.eqb_refl. exact IH.
Qed.

(** A string that starts with [p] is [p] followed by what [drop] leaves. *)
Lemma startsWith_split (s p : string) :
  startsWith s p = true -> s = p ++ drop (String.length p) s.
Proof.
  revert s. induction p as [| c p IH]; intros s H; [reflexivity |].
  destruct s as [| d s]; [discriminate |]. simpl in H.
  apply andb_true_iff in H. destruct H as [Hc Hp].
  apply Ascii.eqb_eq in Hc. subst d. simpl. f_equal. apply IH. exact Hp.
Qed.

Lemma startsWith_append_l (s p rest : string) :
  startsWith s p = true -> startsWith (s ++ rest) p = true.
Proof.
  revert s. induction p as [| c p IH]; intros s H; [destruct s; destruct rest; reflexivity |].
  destruct s as [| d s]; [discriminate |]. simpl in *.
  apply andb_true_iff in H. destruct H as [Hc Hp].
  rewrite Hc. apply IH. exact Hp.
Qed.

Lemma includes_step (c : ascii) (s sub : string) :
  includes (String c s) sub = startsWith (String c s) sub || includes s sub.
Proof. reflexivity. Qed.

Lemma includes_append_l (s sub rest : string) :
  includes s sub = true -> includes (s ++ rest) sub = true.
Proof.
  induction s as [| c s IH]; intros H.
  - destruct sub; [| discriminate]. destruct rest; reflexivity.
  - rewrite includes_step in H. apply orb_true_iff in H.
    change (String c s ++ rest) with (String c (s ++ rest)). rewrite includes_step.
    destruct H as [H | H].
    + change (String c (s ++ rest)) with (String c s ++ rest).
      rewrite (startsWith_append_l _ _ rest H). reflexivity.
    + rewrite (IH H). apply orb_true_r.
Qed.

Lemma includes_append_r (pre s sub : string) :
  includes s sub = true -> includes (pre ++ s) sub = true.
Proof.
  intros H. induction pre as [| c pre IH]; [exact H |].
  change (String c pre ++ s) with (String c (pre ++ s)). rewrite includes_step.
  rewrite IH. apply orb_true_r.
Qed.

Lemma includes_startsWith (s sub : string) :
  startsWith s sub = true -> includes s sub = true.
Proof.
  intros H. destruct s as [| c s].
  - destruct sub; [reflexivity | discriminate].
  - rewrite includes_step, H. reflexivity.
Qed.

Lemma includes_refl (s : string) : includes s s = true.
Proof.
  apply includes_startsWith. rewrite <- (append_nil_r s) at 1. apply startsWith_append.
Qed.

(** A part of a joined list is part of the text. *)
Lemma includes_join (sep : string) (parts : list string) (part : string) :
  In part parts -> includes (join sep parts) part = true.
Proof.
  induction parts as [| a rest IH]; intros Hin; [destruct Hin |].
  destruct rest as [| b rest'].
  - destruct Hin as [<- | []]. apply includes_refl.
  - change (join sep (a :: b :: rest')) with (a ++ sep ++ join sep (b :: rest')).
    destruct Hin as [<- | Hin].
    + apply includes_append_l. apply includes_refl.
    + apply includes_append_r. apply includes_append_r. apply IH. exact Hin.
Qed.

End StringFacts.

(** ** Maps in insertion order *)

Section MapFacts.

Context {V : Type}.

Lemma get_set_same (m : JsMap.t V) (k : string) (v : V) :
  JsMap.get (JsMap.set m k v) k = Some v.
Proof.
  induction m as [| [k' v'] rest IH]; simpl.
  - rewrite String.eqb_refl. reflexivity.
  - destruct (String.eqb k' k) eqn:E; simpl; rewrite E; [reflexivity | exact IH].
Qed.

Lemma get_set_other (m : JsMap.t V) (k k' : string) (v : V) :
  k <> k' -> JsMap.get (JsMap.set m k v) k' = JsMap.get m k'.
Proof.
  intros Hne. induction m as [| [k0 v0] rest IH]; simpl.
  - destruct (String.eqb k k') eqn:E; [apply String.eqb_eq in E; contradiction | reflexivity].
  - destruct (String.eqb k0 k) eqn:E; simpl.
    + apply String.eqb_eq in E. subst k0.
      destruct (String.eqb k k') eqn:E'; [apply String.eqb_eq in E'; contradiction | reflexivity].
    + destruct (String.eqb k0 k'); [reflexivity | exact IH].
Qed.

(** Entries set after a key has its value leave it alone when they are
    for other keys. *)
Lemma get_after_other_entries (entries : list (string * V)) (m : JsMap.t V)
    (k : string) (r : option V) :
  JsMap.get m k = r ->
  (forall kv, In kv entries -> fst kv <> k) ->
  JsMap.get (fold_left (fun m kv => JsMap.set m (fst kv) (snd kv)) entries m) k = r.
Proof.
  revert m. induction entries as [| [k' v'] rest IH]; intros m Hm Hother; simpl.
  - exact Hm.
  - apply IH.
    + rewrite get_set_other; [exact Hm |]. apply (Hother (k', v')). left. reflexivity.
    + intros kv Hin. apply Hother. right. exact Hin.
Qed.

(** A map built from a list of entries gives for a key the value of the
    last entry with that key. *)
Lemma get_of_entries_last (before after : list (string * V)) (k : string) (v : V) :
  (forall kv, In kv after -> fst kv <> k) ->
  JsMap.get (JsMap.of_entries (before ++ (k, v) :: after)) k = Some v.
Proof.
  intros Hafter. unfold JsMap.of_entries. rewrite fold_left_app. simpl.
  apply get_after_other_entries; [apply get_set_same | exact Hafter].
Qed.

Lemma get_of_entries_none (entries : list (string * V)) (k : string) :
  (forall kv, In kv entries -> fst kv <> k) ->
  JsMap.get (JsMap.of_entries entries) k = None.
Proof.
  intros H. unfold JsMap.of_entries. apply get_after_other_entries; [reflexivity | exact H].
Qed.

End MapFacts.

(** ** The catalog *)

Section CatalogLookup.

Import JsString Types Errors Catalog.
Local Open Scope string_scope.

(** The inner loop returns the entry of the first tier that has the code. *)
Lemma lookup_tiers_some (tiers : list (JsMap.t Transcript)) (code : string) (t : Transcript) :
  lookup_tiers tiers code = Some t <->
  exists earlier tier later,
    tiers = (earlier ++ tier :: later)%list
    /\ (forall d, In d earlier -> JsMap.get d code = None)
    /\ JsMap.get tier code = Some t.
Proof.
  induction tiers as [| d rest IH]; simpl.
  - split; [discriminate |]. intros (earlier & tier & later & H & _). destruct earlier; discriminate.
  - destruct (JsMap.get d code) as [t'|] eqn:Hd.
    + split.
      * intros [= ->]. exists [], d, rest. repeat split; [intros d' [] | exact Hd].
      * intros (earlier & tier & later & Heq & Hnone & Hget).
        destruct earlier as [| d0 earlier]; simpl in Heq; injection Heq as <- Hrest.
        -- congruence.
        -- rewrite (Hnone d (or_introl eq_refl)) in Hd. discriminate.
    + rewrite IH. split.
      * intros (earlier & tier & later & -> & Hnone & Hget).
        exists (d :: earlier), tier, later. repeat split; [| exact Hget].
        intros d' [<- | Hin]; [exact Hd | apply Hnone; exact Hin].
      * intros (earlier & tier & later & Heq & Hnone & Hget).
        destruct earlier as [| d0 earlier]; simpl in Heq; injection Heq as <- Hrest.
        -- congruence.
        -- exists earlier, tier, later. repeat split; [exact Hrest | | exact Hget].
           intros d' Hin. apply Hnone. right. exact Hin.
Qed.

Lemma lookup_tiers_none (tiers : list (JsMap.t Transcript)) (code : string) :
  lookup_tiers tiers code = None <-> forall d, In d tiers -> JsMap.get d code = None.
Proof.
  induction tiers as [| d rest IH]; simpl.
  - split; [intros _ d [] | reflexivity].
  - destruct (JsMap.get d code) eqn:Hd.
    + split; [discriminate |]. intros H. specialize (H d (or_introl eq_refl)). congruence.
    + rewrite IH. split.
      * intros H d' [<- | Hin]; [exact Hd | apply H; exact Hin].
      * intros H d' Hin. apply H. right. exact Hin.
Qed.

(** The outer loop returns what the inner loop finds for the first
    requested code that some tier has. *)
Lemma lookup_codes_some (codes : list string) (tiers : list (JsMap.t Transcript))
    (t : Transcript) :
  lookup_codes codes tiers = Some t <->
  exists before code after,
    codes = (before ++ code :: after)%list
    /\ (forall c, In c before -> lookup_tiers tiers c = None)
    /\ lookup_tiers tiers code = Some t.
Proof.
  induction codes as [| c rest IH]; simpl.
  - split; [discriminate |]. intros (before & code & after & H & _). destruct before; discriminate.
  - destruct (lookup_tiers tiers c) as [t'|] eqn:Hc.
    + split.
      * intros [= ->]. exists [], c, rest. repeat split; [intros c' [] | exact Hc].
      * intros (before & code & after & Heq & Hnone & Hget).
        destruct before as [| c0 before]; simpl in Heq; injection Heq as <- Hrest.
        -- congruence.
        -- rewrite (Hnone c (or_introl eq_refl)) in Hc. discriminate.
    + rewrite IH. split.
      * intros (before & code & after & -> & Hnone & Hget).
        exists (c :: before), code, after. repeat split; [| exact Hget].
        intros c' [<- | Hin]; [exact Hc | apply Hnone; exact Hin].
      * intros (before & code & after & Heq & Hnone & Hget).
        destruct before as [| c0 before]; simpl in Heq; injection Heq as <- Hrest.
        -- congruence.
        -- exists before, code, after. repeat split; [exact Hrest | | exact Hget].
           intros c' Hin. apply Hnone. right. exact Hin.
Qed.

Lemma lookup_codes_none (codes : list string) (tiers : list (JsMap.t Transcript)) :
  lookup_codes codes tiers = None <-> forall c, In c codes -> lookup_tiers tiers c = None.
Proof.
  induction codes as [| c rest IH]; simpl.
  - split; [intros _ c [] | reflexivity].
  - destruct (lookup_tiers tiers c) eqn:Hc.
    + split; [discriminate |]. intros H. specialize (H c (or_introl eq_refl)). congruence.
    + rewrite IH. split.
      * intros H c' [<- | Hin]; [exact Hc | apply H; exact Hin].
      * intros H c' Hin. apply H. right. exact Hin.
Qed.

(** A section of the listing holds the word None exactly when it has no
    line: a line is never empty. *)
Lemma getLanguageDescription_lines (transcriptStrings : list string) :
  getLanguageDescription transcriptStrings
  = Terms.listing_section (map (fun t => " - " ++ t) transcriptStrings).
Proof.
  unfold getLanguageDescription, Terms.listing_section.
  destruct transcriptStrings as [| a rest]; [reflexivity |].
  destruct rest as [| b rest']; reflexivity.
Qed.

(** The layout of the listing: the video id, then the manually created
    tracks, the generated ones and the translation languages, each under
    its heading. *)
Lemma TranscriptList_toString_layout (l : TranscriptList) :
  TranscriptList_toString l
  = "For this video (" ++ tl_videoId l
    ++ ") transcripts are available in the following languages:" ++ nl ++ nl
    ++ "(MANUALLY CREATED)" ++ nl
    ++ Terms.listing_section
         (map (fun t => Terms.listing_line (languageCode t) (language t) (isTranslatable t))
              (JsMap.values (manuallyCreatedTranscripts l)))
    ++ nl ++ nl ++ "(GENERATED)" ++ nl
    ++ Terms.listing_section
         (map (fun t => Terms.listing_line (languageCode t) (language t) (isTranslatable t))
              (JsMap.values (generatedTranscripts l)))
    ++ nl ++ nl ++ "(TRANSLATION LANGUAGES)" ++ nl
    ++ Terms.listing_section
         (map (fun tl => Terms.listing_line (tl_languageCode tl) (tl_language tl) false)
              (_translationLanguages l)).
Proof.
  unfold TranscriptList_toString. cbv zeta.
  rewrite !getLanguageDescription_lines, !map_map.
  assert (Hlanguages :
            map (fun tl => " - " ++ tl_languageCode tl ++ " (" ++ dq ++ tl_language tl ++ dq ++ ")")
                (_translationLanguages l)
            = map (fun tl => Terms.listing_line (tl_languageCode tl) (tl_language tl) false)
                  (_translationLanguages l)).
  { apply map_ext. intros tl. reflexivity. }
  rewrite Hlanguages. reflexivity.
Qed.

(** What a section holds is part of the text around it. *)
Lemma includes_listed (before after line : string) (lines : list string) :
  In line lines ->
  includes (before ++ Terms.listing_section lines ++ after) line = true.
Proof.
  intros Hin. apply includes_append_r. apply includes_append_l.
  unfold Terms.listing_section. destruct lines as [| a rest]; [destruct Hin |].
  apply includes_join. exact Hin.
Qed.

(** C3. The three finders run the same search with the tiers manual then
    generated, generated only, and manual only. The search returns [t]
    exactly when [t] is, for the first requested code that any tier has,
    the entry of the first tier that has it: codes are the outer loop,
    tiers the inner one. When no tier has any requested code it throws
    [NoTranscriptFound] with the requested codes and the listing of the
    catalog, and the message of that failure names the codes and holds
    the listing. The listing is that of the whole catalog, whatever the
    tiers searched: it names the video and has, under the headings of the
    manually created tracks, of the generated tracks and of the
    translation languages, a line for every one of them, with its
    language code and its language, or the word None under a heading
    without lines. On a catalog with a generated en and a manual de,
    [findTranscript(\['de', 'en'\])] is the manual de track and
    [findTranscript(\['en'\])] the generated en track. *)
Theorem findTranscript_scans_codes_then_tiers :
  (forall (l : TranscriptList) (codes : list string),
     findTranscript l codes
     = _findTranscript l codes [manuallyCreatedTranscripts l; generatedTranscripts l]
     /\ findGeneratedTranscript l codes = _findTranscript l codes [generatedTranscripts l]
     /\ findManuallyCreatedTranscript l codes
        = _findTranscript l codes [manuallyCreatedTranscripts l])
  /\ (forall (l : TranscriptList) (codes : list string) (tiers : list (JsMap.t Transcript))
            (t : Transcript),
        _findTranscript l codes tiers = Ok t <->
        exists before code after earlier tier later,
          codes = (before ++ code :: after)%list
          /\ (forall c d, In c before -> In d tiers -> JsMap.get d c = None)
          /\ tiers = (earlier ++ tier :: later)%list
          /\ (forall d, In d earlier -> JsMap.get d code = None)
          /\ JsMap.get tier code = Some t)
  /\ (forall (l : TranscriptList) (codes : list string) (tiers : list (JsMap.t Transcript)),
        (forall c d, In c codes -> In d tiers -> JsMap.get d c = None) ->
        _findTranscript l codes tiers
        = Throw (NoTranscriptFound (tl_videoId l) codes (TranscriptList_toString l))
        /\ includes
             (message (NoTranscriptFound (tl_videoId l) codes (TranscriptList_toString l)))
             ("No transcripts were found for any of the requested language codes: "
              ++ join ", " codes ++ nl ++ nl ++ TranscriptList_toString l) = true)
  /\ (forall l : TranscriptList,
        let line := fun t : Transcript =>
          Terms.listing_line (languageCode t) (language t) (isTranslatable t) in
        let language_line := fun tl : TranslationLanguage =>
          Terms.listing_line (tl_languageCode tl) (tl_language tl) false in
        TranscriptList_toString l
        = "For this video (" ++ tl_videoId l
          ++ ") transcripts are available in the following languages:" ++ nl ++ nl
          ++ "(MANUALLY CREATED)" ++ nl
          ++ Terms.listing_section (map line (JsMap.values (manuallyCreatedTranscripts l)))
          ++ nl ++ nl ++ "(GENERATED)" ++ nl
          ++ Terms.listing_section (map line (JsMap.values (generatedTranscripts l)))
          ++ nl ++ nl ++ "(TRANSLATION LANGUAGES)" ++ nl
          ++ Terms.listing_section (map language_line (_translationLanguages l))
        /\ (forall t, In t (iterate l) ->
                      includes (TranscriptList_toString l) (line t) = true)
        /\ (forall tl, In tl (_translationLanguages l) ->
                       includes (TranscriptList_toString l) (language_line tl) = true))
  /\ (build "vid" Samples.captions_en_generated_de_manual = Ok Samples.catalog
      /\ findTranscript Samples.catalog ["de"; "en"] = Ok Samples.track_de_manual
      /\ isGenerated Samples.track_de_manual = false
      /\ findTranscript Samples.catalog ["en"] = Ok Samples.track_en_generated
      /\ isGenerated Samples.track_en_generated = true).
Proof.
  split; [| split; [| split; [| split]]].
  - intros l codes. repeat split.
  - intros l codes tiers t. unfold _findTranscript.
    destruct (lookup_codes codes tiers) as [t'|] eqn:Hfound.
    + split.
      * intros [= ->]. apply lookup_codes_some in Hfound.
        destruct Hfound as (before & code & after & Hcodes & Hnone & Hget).
        apply lookup_tiers_some in Hget.
        destruct Hget as (earlier & tier & later & Htiers & Hearlier & Htier).
        exists before, code, after, earlier, tier, later. repeat split; try assumption.
        intros c d Hc Hd. exact (proj1 (lookup_tiers_none tiers c) (Hnone c Hc) d Hd).
      * intros (before & code & after & earlier & tier & later
                & Hcodes & Hnone & Htiers & Hearlier & Htier).
        assert (Hsome : lookup_codes codes tiers = Some t).
        { apply lookup_codes_some. exists before, code, after. repeat split.
          - exact Hcodes.
          - intros c Hc. apply lookup_tiers_none. intros d Hd. exact (Hnone c d Hc Hd).
          - apply lookup_tiers_some. exists earlier, tier, later. repeat split; assumption. }
        congruence.
    + split; [discriminate |].
      intros (before & code & after & earlier & tier & later
              & Hcodes & Hnone & Htiers & Hearlier & Htier).
      pose proof (proj1 (lookup_codes_none codes tiers) Hfound code) as Hcode.
      assert (Hin : In code codes) by (rewrite Hcodes; apply in_elt).
      specialize (Hcode Hin).
      pose proof (proj1 (lookup_tiers_none tiers code) Hcode tier) as Hd.
      assert (Hint : In tier tiers) by (rewrite Htiers; apply in_elt).
      specialize (Hd Hint). congruence.
  - intros l codes tiers Hnone. split.
    + unfold _findTranscript.
      replace (lookup_codes codes tiers) with (@None Transcript); [reflexivity |].
      symmetry. apply lookup_codes_none. intros c Hc.
      apply lookup_tiers_none. intros d Hd. exact (Hnone c d Hc Hd).
    + generalize (TranscriptList_toString l) as data. intros data.
      unfold message. cbv zeta.
      change (causeMessage (NoTranscriptFound (tl_videoId l) codes data))
        with ("No transcripts were found for any of the requested language codes: "
              ++ join ", " codes ++ nl ++ nl ++ data).
      set (cause := "No transcripts were found for any of the requested language codes: "
                    ++ join ", " codes ++ nl ++ nl ++ data).
      assert (Hcause : exists c r, cause = String c r) by (eexists; eexists; reflexivity).
      destruct Hcause as (c & r & Hcause). rewrite Hcause at 1. rewrite <- Hcause.
      apply includes_append_r.
      apply (includes_append_r (nl ++ "This is most likely caused by:" ++ nl ++ nl)
               (cause ++ GITHUB_REFERRAL)).
      apply includes_startsWith. apply startsWith_append.
  - intros l line language_line. split; [apply TranscriptList_toString_layout |].
    rewrite TranscriptList_toString_layout. split.
    + intros t Hin. unfold iterate in Hin. apply in_app_or in Hin.
      destruct Hin as [Hin | Hin].
      * apply (includes_append_r ("For this video (" ++ tl_videoId l)).
        apply (includes_listed
                 (") transcripts are available in the following languages:" ++ nl ++ nl
                  ++ "(MANUALLY CREATED)" ++ nl)).
        apply in_map_iff. exists t. split; [reflexivity | exact Hin].
      * apply (includes_append_r ("For this video (" ++ tl_videoId l)).
        apply (includes_append_r
                 (") transcripts are available in the following languages:" ++ nl ++ nl
                  ++ "(MANUALLY CREATED)" ++ nl)).
        apply includes_append_r.
        apply (includes_listed (nl ++ nl ++ "(GENERATED)" ++ nl)).
        apply in_map_iff. exists t. split; [reflexivity | exact Hin].
    + intros tl Hin.
      apply (includes_append_r ("For this video (" ++ tl_videoId l)).
      apply (includes_append_r
               (") transcripts are available in the following languages:" ++ nl ++ nl
                ++ "(MANUALLY CREATED)" ++ nl)).
      apply includes_append_r.
      apply (includes_append_r (nl ++ nl ++ "(GENERATED)" ++ nl)).
      apply includes_append_r.
      rewrite <- (append_nil_r (Terms.listing_section _)).
      apply (includes_listed (nl ++ nl ++ "(TRANSLATION LANGUAGES)" ++ nl)).
      apply in_map_iff. exists tl. split; [reflexivity | exact Hin].
  - repeat split.
Qed.

Lemma findTranscript_scans_codes_then_tiers_witness :
  findTranscript Samples.catalog ["fr"; "de"; "en"] = Ok Samples.track_de_manual
  /\ findGeneratedTranscript Samples.catalog ["de"]
     = Throw (NoTranscriptFound "vid" ["de"]
                ("For this video (vid) transcripts are available in the following languages:"
                 ++ nl ++ nl ++ "(MANUALLY CREATED)" ++ nl
                 ++ " - de (" ++ dq ++ "Deutsch" ++ dq ++ ")"
                 ++ nl ++ nl ++ "(GENERATED)" ++ nl
                 ++ " - en (" ++ dq ++ "English (auto-generated)" ++ dq ++ ")[TRANSLATABLE]"
                 ++ nl ++ nl ++ "(TRANSLATION LANGUAGES)" ++ nl
                 ++ " - fr (" ++ dq ++ "French" ++ dq ++ ")" ++ nl
                 ++ " - es (" ++ dq ++ "Spanish" ++ dq ++ ")")).
Proof.
  split.
  - apply (proj1 (proj2 findTranscript_scans_codes_then_tiers)).
    exists ["fr"], "de", ["en"], [], (manuallyCreatedTranscripts Samples.catalog),
           [generatedTranscripts Samples.catalog].
    split; [reflexivity |]. split.
    + intros c d [<- | []] [<- | [<- | []]]; reflexivity.
    + split; [reflexivity |]. split; [intros d [] | reflexivity].
  - refine (proj1 (proj1 (proj2 (proj2 findTranscript_scans_codes_then_tiers))
                     Samples.catalog ["de"] [generatedTranscripts Samples.catalog] _)).
    intros c d [<- | []] [<- | []]. reflexivity.
Defined.

End CatalogLookup.

(** ** Translation *)

Section Translation.

Import Types Errors Catalog.
Local Open Scope string_scope.

Lemma isTranslatable_iff (t : Transcript) :
  isTranslatable t = true <-> translationLanguages t <> [].
Proof.
  unfold isTranslatable. destruct (translationLanguages t); simpl.
  - split; [discriminate | congruence].
  - split; [discriminate | reflexivity].
Qed.

(** C4. [translate] throws [NotTranslatable] when the track has no
    translation targets; throws [TranslationLanguageNotAvailable] when it
    has targets and none of them has the requested code, whatever any
    catalog lists; and otherwise returns a track with the same video id,
    the URL followed by the translation parameter, the display language
    of the target (of the last one, should the code be listed twice), the
    requested code, [isGenerated] true and no translation targets. The
    result is a new value: the track translated from is left as it was. *)
Theorem translate_uses_the_tracks_own_targets :
  forall (t : Transcript) (code : string),
    (translationLanguages t = [] ->
     translate t code = Throw (NotTranslatable (videoId t)))
    /\ (translationLanguages t <> [] ->
        (forall target, In target (translationLanguages t) -> tl_languageCode target <> code) ->
        translate t code = Throw (TranslationLanguageNotAvailable (videoId t)))
    /\ (forall before target after,
          translationLanguages t = (before ++ target :: after)%list ->
          tl_languageCode target = code ->
          (forall later, In later after -> tl_languageCode later <> code) ->
          translate t code
          = Ok {| videoId := videoId t;
                  _url := _url t ++ "&tlang=" ++ code;
                  language := tl_language target;
                  languageCode := code;
                  isGenerated := true;
                  translationLanguages := [] |}).
Proof.
  intros t code. split; [| split].
  - intros Hnone. unfold translate, isTranslatable. rewrite Hnone. reflexivity.
  - intros Hsome Habsent. unfold translate.
    rewrite (proj2 (isTranslatable_iff t) Hsome). simpl.
    unfold JsMap.has, translationLanguagesDict.
    rewrite get_of_entries_none; [reflexivity |].
    intros [k v] Hin. apply in_map_iff in Hin. destruct Hin as (target & [= <- <-] & Hin).
    simpl. apply Habsent. exact Hin.
  - intros before target after Hlist Hcode Hafter. unfold translate.
    assert (Hsome : translationLanguages t <> [])
      by (rewrite Hlist; destruct before; discriminate).
    rewrite (proj2 (isTranslatable_iff t) Hsome). simpl.
    assert (Hget : JsMap.get (translationLanguagesDict t) code = Some (tl_language target)).
    { unfold translationLanguagesDict. rewrite Hlist, map_app. simpl. rewrite Hcode.
      apply get_of_entries_last.
      intros [k v] Hin. apply in_map_iff in Hin. destruct Hin as (later & [= <- <-] & Hin).
      simpl. apply Hafter. exact Hin. }
    unfold JsMap.has. rewrite Hget. reflexivity.
Qed.

Lemma translate_uses_the_tracks_own_targets_witness :
  translate Samples.track_de_manual "fr" = Throw (NotTranslatable "vid")
  /\ (In "es" (map tl_languageCode (_translationLanguages Samples.catalog_with_french_only))
      /\ In Samples.track_ja_french_only (Catalog.iterate Samples.catalog_with_french_only)
      /\ translate Samples.track_ja_french_only "es"
         = Throw (TranslationLanguageNotAvailable "vid"))
  /\ translate Samples.track_en_generated "es"
     = Ok {| videoId := "vid";
             _url := "https://www.youtube.com/api/timedtext?v=vid&lang=en&tlang=es";
             language := "Spanish";
             languageCode := "es";
             isGenerated := true;
             translationLanguages := [] |}.
Proof.
  split; [| split; [split; [| split] |]].
  - apply (translate_uses_the_tracks_own_targets Samples.track_de_manual "fr").
    reflexivity.
  - right. left. reflexivity.
  - left. reflexivity.
  - apply (translate_uses_the_tracks_own_targets Samples.track_ja_french_only "es").
    + discriminate.
    + intros target [<- | []]. discriminate.
  - apply (proj2 (proj2 (translate_uses_the_tracks_own_targets Samples.track_en_generated "es"))
             [ {| tl_language := "French"; tl_languageCode := "fr" |} ]
             {| tl_language := "Spanish"; tl_languageCode := "es" |} []).
    + reflexivity.
    + reflexivity.
    + intros later [].
Defined.

End Translation.

(** ** The retry loop of the catalog fetcher *)

Section RetryLoop.

Import Errors Catalog Playability Fetcher.
Local Open Scope string_scope.
Local Open Scope Z_scope.

(** One turn of [fetchCaptionsJson]: the pipeline is run once, and only a
    failure that is an instance of [RequestBlocked] with attempts left
    leads to another turn. *)
Lemma fetchCaptionsJson_unfold {St : Type} {httpClient : HttpClient St}
    (htmlDecode : string -> string) (videoId : string) (tryNumber : Z) (s : St) :
  fetchCaptionsJson htmlDecode videoId tryNumber s
  = match attempt htmlDecode videoId s with
    | (Ok captionsJson, s') => (Ok captionsJson, s')
    | (Throw error, s') =>
        if instanceof_RequestBlocked error then
          if tryNumber + 1 <? retriesWhenBlocked then
            fetchCaptionsJson htmlDecode videoId (tryNumber + 1) s'
          else (Throw (withProxyConfig error getProxyConfig), s')
        else (Throw error, s')
    end.
Proof.
  rewrite fetchCaptionsJson_equation_1.
  destruct (attempt htmlDecode videoId s) as [[captionsJson | error] s']; simpl.
  - reflexivity.
  - destruct (instanceof_RequestBlocked error); simpl; [| reflexivity].
    destruct (Z_lt_dec (tryNumber + 1) retriesWhenBlocked) as [Hlt | Hge]; simpl.
    + apply Z.ltb_lt in Hlt. rewrite Hlt. reflexivity.
    + apply Z.ltb_nlt in Hge. rewrite Hge. reflexivity.
Qed.

(** As stated, C1 has every failure other than [RequestBlocked] propagate
    on its first occurrence. An [IpBlocked] failure (HTTP 429, or a
    CAPTCHA page) does not: with a retry count of 2 and a first request
    answered with 429, the pipeline is run again and succeeds. *)
Lemma ip_blocked_failure_is_retried :
  ~ (forall (St : Type) (httpClient : HttpClient St) (htmlDecode : string -> string)
            (videoId : string) (s s' : St) (error : Error),
       attempt htmlDecode videoId s = (Throw error, s') ->
       (forall v proxyConfig, error <> RequestBlocked v proxyConfig) ->
       fetchCaptionsJson htmlDecode videoId 0 s = (Throw error, s')).
Proof.
  intros Hclaim.
  specialize (Hclaim nat (Samples.scripted 1 (Some Samples.webshare_2)) (fun html => html)
                     "vid" 0%nat 1%nat (IpBlocked "vid" None)).
  assert (Hrun : fetchCaptionsJson (httpClient := Samples.scripted 1 (Some Samples.webshare_2))
                   (fun html => html) "vid" 0 0%nat
                 = (Ok Samples.captions_en_generated_de_manual, 3%nat))
    by (vm_compute; reflexivity).
  rewrite Hrun in Hclaim.
  assert (Habsurd : (Ok Samples.captions_en_generated_de_manual, 3%nat)
                    = (@Throw CaptionsJson (IpBlocked "vid" None), 1%nat)).
  { apply Hclaim; [vm_compute; reflexivity | intros v proxyConfig; discriminate]. }
  discriminate Habsurd.
Qed.

(** C1, amended. [fetchCaptionsJson] runs the whole pipeline (watch page
    with the consent step, API key, player request, playability check,
    captions) once. A result is returned. A failure that is not an
    instance of [RequestBlocked] is thrown again as it is, at its first
    occurrence. A failure that is one ([RequestBlocked] itself or its
    subclass [IpBlocked]) starts the pipeline again with the attempt
    counter incremented while [tryNumber + 1] is below the retry count of
    the transport (that of its proxy configuration, 0 without one);
    otherwise it is thrown with the proxy configuration of the transport,
    or none, attached, and its message is then the one for that kind of
    proxy. *)
Theorem fetchCaptionsJson_retries_blocked_requests :
  forall (St : Type) (httpClient : HttpClient St) (htmlDecode : string -> string)
         (videoId : string) (tryNumber : Z) (s : St),
    attempt htmlDecode videoId
    = bind (fetchVideoHtml htmlDecode videoId) (fun html =>
      bind (lift (extractInnertubeApiKey html videoId)) (fun apiKey =>
      bind (fetchInnertubeData videoId apiKey) (fun innertubeData =>
      lift (extractCaptionsJson innertubeData videoId))))
    /\ fetchCaptionsJson htmlDecode videoId tryNumber s
       = match attempt htmlDecode videoId s with
         | (Ok captionsJson, s') => (Ok captionsJson, s')
         | (Throw error, s') =>
             if instanceof_RequestBlocked error then
               if tryNumber + 1 <? retriesWhenBlocked then
                 fetchCaptionsJson htmlDecode videoId (tryNumber + 1) s'
               else (Throw (withProxyConfig error getProxyConfig), s')
             else (Throw error, s')
         end
    /\ retriesWhenBlocked
       = match getProxyConfig with
         | Some proxyConfig => Proxies.retriesWhenBlocked proxyConfig
         | None => 0
         end
    /\ (forall error : Error,
          instanceof_RequestBlocked error
          = match error with
            | RequestBlocked _ _ | IpBlocked _ _ => true
            | _ => false
            end)
    /\ (forall (v : string) (before after : option Proxies.ProxyConfig),
          let rendered own :=
            match option_map Proxies.type after with
            | Some Proxies.webshare => WITH_WEBSHARE_PROXY_CAUSE_MESSAGE
            | Some Proxies.generic => WITH_GENERIC_PROXY_CAUSE_MESSAGE
            | None => own
            end in
          causeMessage (withProxyConfig (RequestBlocked v before) after)
          = rendered RequestBlocked_CAUSE_MESSAGE
          /\ causeMessage (withProxyConfig (IpBlocked v before) after)
             = rendered IpBlocked_CAUSE_MESSAGE).
Proof.
  intros St httpClient htmlDecode videoId tryNumber s.
  split; [reflexivity |]. split; [apply fetchCaptionsJson_unfold |].
  split; [reflexivity |]. split; [intros error; reflexivity |].
  intros v before after. split; reflexivity.
Qed.

(** With every watch-page request blocked, a retry count of 2 gives two
    runs of the pipeline, and no proxy configuration gives one. *)
Lemma blocked_twice_with_retry_count_2 :
  fetchCaptionsJson (httpClient := Samples.scripted 9 (Some Samples.webshare_2))
    (fun html => html) "vid" 0 0%nat
  = (Throw (IpBlocked "vid" (Some Samples.webshare_2)), 2%nat).
Proof. vm_compute. reflexivity. Qed.

Lemma blocked_once_without_proxy :
  fetchCaptionsJson (httpClient := Samples.scripted 9 None) (fun html => html) "vid" 0 0%nat
  = (Throw (IpBlocked "vid" None), 1%nat).
Proof. vm_compute. reflexivity. Qed.

(** A request taken for a bot is a [RequestBlocked] failure: with a retry
    count of 2 the pipeline is run again, and the catalog is built from
    the second answer; when the second run fails too, the failure is
    thrown with the proxy configuration, and its message is the one for
    rotating-residential proxies. *)
Lemma bot_check_is_retried :
  fetch (httpClient := Samples.scripted_bot_check 2 (Some Samples.webshare_2))
        (fun html => html) "vid" 0%nat
  = (Ok Samples.catalog, 4%nat)
  /\ fetch (httpClient := Samples.scripted_bot_check 9 (Some Samples.webshare_2))
           (fun html => html) "vid" 0%nat
     = (Throw (RequestBlocked "vid" (Some Samples.webshare_2)), 4%nat)
  /\ causeMessage (RequestBlocked "vid" (Some Samples.webshare_2))
     = WITH_WEBSHARE_PROXY_CAUSE_MESSAGE.
Proof. repeat split; vm_compute; reflexivity. Qed.

(** Whenever [fetchCaptionsJson] throws an instance of [RequestBlocked],
    the failure has been given the proxy configuration of the transport:
    none leaves the loop without it. *)
Lemma fetchCaptionsJson_blocked_failure_has_proxy_context {St : Type} {httpClient : HttpClient St}
    (htmlDecode : string -> string) (videoId : string) (tryNumber : Z) (s s' : St)
    (error : Error) :
  fetchCaptionsJson htmlDecode videoId tryNumber s = (Throw error, s') ->
  instanceof_RequestBlocked error = true ->
  exists (last : Error),
    error = withProxyConfig last getProxyConfig /\ instanceof_RequestBlocked last = true.
Proof.
  remember (Z.to_nat (retriesWhenBlocked - tryNumber)) as fuel eqn:Hfuel.
  revert tryNumber s Hfuel.
  induction fuel as [fuel IH] using lt_wf_ind. intros tryNumber s Hfuel.
  rewrite fetchCaptionsJson_unfold.
  destruct (attempt htmlDecode videoId s) as [[captionsJson | e] s1]; [discriminate |].
  destruct (instanceof_RequestBlocked e) eqn:He.
  - destruct (tryNumber + 1 <? retriesWhenBlocked) eqn:Hlt.
    + apply Z.ltb_lt in Hlt. intros Hrun Hblocked.
      apply (IH (Z.to_nat (retriesWhenBlocked - (tryNumber + 1)))) with (tryNumber + 1) s1;
        [lia | reflexivity | exact Hrun | exact Hblocked].
    + intros [= <- <-] _. exists e. split; [reflexivity | exact He].
  - intros [= <- <-] Hblocked. congruence.
Qed.

(** X14. The loop is the bounded loop of the design notes: from
    [tryNumber] it runs the pipeline at most
    [max 1 (retriesWhenBlocked - tryNumber)] times, again only after a
    blocked request, and on the last run it throws the failure with the
    proxy configuration of the transport attached. *)
Lemma fetchCaptionsJson_is_bounded_by_retry_count {St : Type} {httpClient : HttpClient St}
    (htmlDecode : string -> string) (videoId : string) (tryNumber : Z) (s : St) :
  fetchCaptionsJson htmlDecode videoId tryNumber s
  = retry_while_blocked (attempt htmlDecode videoId)
      (fun error => withProxyConfig error getProxyConfig)
      (Z.to_nat (Z.max 1 (retriesWhenBlocked - tryNumber))) s.
Proof.
  remember (Z.to_nat (retriesWhenBlocked - tryNumber)) as fuel eqn:Hfuel.
  revert tryNumber s Hfuel.
  induction fuel as [fuel IH] using lt_wf_ind. intros tryNumber s Hfuel.
  rewrite fetchCaptionsJson_unfold.
  destruct (Z.to_nat (Z.max 1 (retriesWhenBlocked - tryNumber))) as [| [| runs]] eqn:Hruns;
    simpl retry_while_blocked;
    destruct (attempt htmlDecode videoId s) as [[captionsJson | e] s1]; try reflexivity;
    destruct (instanceof_RequestBlocked e); try reflexivity.
  - lia.
  - replace (tryNumber + 1 <? retriesWhenBlocked) with false
      by (symmetry; apply Z.ltb_ge; lia).
    reflexivity.
  - replace (tryNumber + 1 <? retriesWhenBlocked) with true
      by (symmetry; apply Z.ltb_lt; lia).
    rewrite (IH (Z.to_nat (retriesWhenBlocked - (tryNumber + 1)))) with (tryNumber := tryNumber + 1);
      [| lia | reflexivity].
    replace (Z.to_nat (Z.max 1 (retriesWhenBlocked - (tryNumber + 1)))) with (S runs) by lia.
    reflexivity.
Qed.

End RetryLoop.

(** ** The caption body parser *)

Section CaptionBodyParser.

Import JsString Types Errors Parser.
Local Open Scope string_scope.

(** A string whose first character cannot start a decimal literal is not
    a number. *)
Lemma parseFloat_not_a_number (c : ascii) (rest : string) :
  is_space c = false -> is_digit c = false ->
  c <> "+"%char -> c <> "-"%char -> c <> "."%char -> c <> "I"%char ->
  JsNumber.parseFloat (String c rest) = nan.
Proof.
  intros Hspace Hdigit Hplus Hminus Hdot HI.
  apply Ascii.eqb_neq in Hplus, Hminus, Hdot, HI.
  unfold JsNumber.parseFloat. simpl JsNumber.span. rewrite Hspace.
  unfold JsNumber.sign_of. rewrite Hminus, Hplus.
  assert (Hinf : startsWith (String c rest) "Infinity" = false).
  { change (startsWith (String c rest) "Infinity")
      with (Ascii.eqb "I"%char c && startsWith rest "nfinity").
    rewrite Ascii.eqb_sym, HI. reflexivity. }
  rewrite Hinf.
  change (JsNumber.span is_digit (String c rest))
    with (if is_digit c
          then let '(a, b) := JsNumber.span is_digit rest in (String c a, b)
          else ("", String c rest)).
  rewrite Hdigit. cbv beta iota zeta. rewrite Hdot. reflexivity.
Qed.

(** An entry is kept when it is a string, or an object with a [#text]
    property that is not [undefined]. *)
Lemma has_text_spec (el : JsValue.t) :
  has_text el = true <->
  (exists s, el = JsValue.Str s)
  \/ (exists properties,
        el = JsValue.Object properties
        /\ JsValue.lookup properties "#text" <> JsValue.Undefined).
Proof.
  destruct el as [ | | b | n | s | items | properties]; simpl;
    try (split; [discriminate | intros [[s' H] | (ps & H & _)]; discriminate]).
  - split; [intros _; left; eexists; reflexivity | reflexivity].
  - split.
    + intros H. right. exists properties. split; [reflexivity |].
      intros Hundef. rewrite Hundef in H. discriminate.
    + intros [[s' H] | (ps & [= <-] & Hne)]; [discriminate |].
      destruct (JsValue.lookup properties "#text"); congruence.
Qed.

(** As stated, C6 has an unparseable [start] or [dur] attribute read as
    0. It is read as [NaN]: [parseFloat] has no default of its own, and
    the default the parser supplies is for a missing attribute only. *)
Lemma unparseable_attribute_is_NaN_not_zero :
  exists snippet : TranscriptSnippet,
    parse (fun _ => Ok Samples.tree_with_unparseable_start) (fun text => text) false
          Samples.xml_with_unparseable_start
    = Ok [snippet]
    /\ PrimFloat.is_nan (start snippet) = true
    /\ (start snippet =? 0)%float = false.
Proof.
  eexists. split; [vm_compute; reflexivity |]. split; vm_compute; reflexivity.
Qed.

(** C6, amended. [parse] hands the raw data to the XML reader and has no
    error handler of its own. From the tree the reader returns it takes
    [transcript?.text]: a falsy value (an absent structure) gives the
    empty sequence; an array gives its entries, any other value a
    one-element sequence. Entries other than strings and objects with a
    [#text] are dropped, the others mapped in document order. For an
    object, [start] and [dur] are read with [parseFloat], 0 being the
    default for an absent attribute only: an attribute that is present
    and does not start a number is read as [NaN]. *)
Theorem parse_reads_text_entries_in_order :
  forall (XMLParser_parse : string -> Result JsValue.t) (htmlDecode : string -> string)
         (preserveFormatting : bool) (rawData : string),
    let run := parse XMLParser_parse htmlDecode preserveFormatting rawData in
    let snippet_of := to_snippet htmlDecode (getHtmlRegex preserveFormatting) in
    (forall e, XMLParser_parse rawData = Throw e -> run = Throw e)
    /\ (forall parsed transcript,
          XMLParser_parse rawData = Ok parsed ->
          JsValue.prop parsed "transcript" = Some transcript ->
          let textElements :=
            match JsValue.prop transcript "text" with
            | Some v => v
            | None => JsValue.Undefined
            end in
          (JsValue.truthy textElements = false -> run = Ok [])
          /\ (forall items,
                textElements = JsValue.Array items ->
                run = Ok (map snippet_of (filter has_text items)))
          /\ (JsValue.truthy textElements = true ->
              (forall items, textElements <> JsValue.Array items) ->
              run = Ok (map snippet_of (filter has_text [textElements]))))
    /\ (forall el,
          has_text el = true <->
          (exists s, el = JsValue.Str s)
          \/ (exists properties,
                el = JsValue.Object properties
                /\ JsValue.lookup properties "#text" <> JsValue.Undefined))
    /\ (forall s, start (snippet_of (JsValue.Str s)) = 0%float
                  /\ duration (snippet_of (JsValue.Str s)) = 0%float)
    /\ (forall properties,
          start (snippet_of (JsValue.Object properties))
          = attribute_number (JsValue.lookup properties "@_start")
          /\ duration (snippet_of (JsValue.Object properties))
             = attribute_number (JsValue.lookup properties "@_dur"))
    /\ (forall c rest,
          is_space c = false -> is_digit c = false ->
          c <> "+"%char -> c <> "-"%char -> c <> "."%char -> c <> "I"%char ->
          attribute_number (JsValue.Str (String c rest)) = nan).
Proof.
  intros XMLParser_parse htmlDecode preserveFormatting rawData run snippet_of.
  split; [| split; [| split; [| split; [| split]]]].
  - intros e He. unfold run, parse. rewrite He. reflexivity.
  - intros parsed transcript Hparsed Htranscript textElements.
    assert (Hrun : run = if negb (JsValue.truthy textElements) then Ok []
                         else Ok (map snippet_of
                                      (filter has_text
                                              match textElements with
                                              | JsValue.Array items => items
                                              | _ => [textElements]
                                              end))).
    { unfold run, parse. rewrite Hparsed, Htranscript. reflexivity. }
    split; [| split].
    + intros Hfalsy. rewrite Hrun, Hfalsy. reflexivity.
    + intros items Harray. rewrite Hrun, Harray. reflexivity.
    + intros Htruthy Hnot_array. rewrite Hrun, Htruthy. simpl negb. cbv iota.
      destruct textElements; try reflexivity.
      exfalso. eapply Hnot_array. reflexivity.
  - exact has_text_spec.
  - intros s. split; reflexivity.
  - intros properties. unfold snippet_of, to_snippet, attribute_number.
    destruct (JsValue.lookup properties "@_start"), (JsValue.lookup properties "@_dur");
      split; reflexivity.
  - intros c rest Hspace Hdigit Hplus Hminus Hdot HI.
    exact (parseFloat_not_a_number c rest Hspace Hdigit Hplus Hminus Hdot HI).
Qed.

Lemma parse_reads_text_entries_in_order_witness :
  parse (fun _ => Ok Samples.tree_of_three_entries) (fun text => text) false
        Samples.xml_of_three_entries
  = Ok [ {| text := "first"; start := 0; duration := 1.5 |};
         {| text := "third"; start := 3.5; duration := 0 |} ]
  /\ parse (fun _ => Ok (JsValue.Object [])) (fun text => text) false "not xml" = Ok []
  /\ parse (fun _ => Throw (Foreign "Error" "Closing Tag is not closed."))
           (fun text => text) false "<transcript><text>open" =
     Throw (Foreign "Error" "Closing Tag is not closed.")
  /\ attribute_number (JsValue.Str "abc") = nan.
Proof.
  split; [| split; [| split]].
  - pose proof (proj1 (proj2 (parse_reads_text_entries_in_order
                                (fun _ => Ok Samples.tree_of_three_entries) (fun text => text)
                                false Samples.xml_of_three_entries))
                  Samples.tree_of_three_entries
                  (JsValue.Object [("text", JsValue.Array Samples.three_entries)])
                  eq_refl eq_refl) as H.
    cbv zeta in H. destruct H as (_ & Harray & _).
    rewrite (Harray Samples.three_entries eq_refl). vm_compute. reflexivity.
  - pose proof (proj1 (proj2 (parse_reads_text_entries_in_order
                                (fun _ => Ok (JsValue.Object [])) (fun text => text)
                                false "not xml"))
                  (JsValue.Object []) JsValue.Undefined eq_refl eq_refl) as H.
    cbv zeta in H. destruct H as (Hfalsy & _).
    apply Hfalsy. reflexivity.
  - apply (proj1 (parse_reads_text_entries_in_order
                    (fun _ => Throw (Foreign "Error" "Closing Tag is not closed."))
                    (fun text => text) false "<transcript><text>open")).
    reflexivity.
  - apply (proj2 (proj2 (proj2 (proj2 (proj2
             (parse_reads_text_entries_in_order (fun _ => Ok JsValue.Undefined)
                (fun text => text) false "")))))); try reflexivity; discriminate.
Defined.

(** ** Markup in caption text *)

Lemma to_closing_bracket_none (s : string) :
  to_closing_bracket s = None -> has_char ">"%char s = false.
Proof.
  induction s as [| c r IH]; simpl; [reflexivity |].
  destruct (Ascii.eqb c ">"%char); [discriminate |].
  destruct (to_closing_bracket r); [discriminate |]. intros _. apply IH. reflexivity.
Qed.

Lemma remove_matches_step (re : HtmlRegex) (skip : nat) (c : ascii) (r : string) :
  remove_matches re skip (String c r)
  = match skip with
    | S k => remove_matches re k r
    | O =>
        match match_at re (String c r) with
        | Some n => remove_matches re (Nat.pred n) r
        | None => String c (remove_matches re 0 r)
        end
    end.
Proof. reflexivity. Qed.

(** Removing matches adds no character. *)
Lemma remove_matches_has_char (re : HtmlRegex) (c : ascii) (s : string) (skip : nat) :
  has_char c s = false -> has_char c (remove_matches re skip s) = false.
Proof.
  revert skip. induction s as [| d r IH]; intros skip; [reflexivity |].
  intros H. simpl in H. apply orb_false_iff in H. destruct H as [Hd Hr].
  rewrite remove_matches_step.
  destruct skip as [| k]; [| apply IH; exact Hr].
  destruct (match_at re (String d r)); [apply IH; exact Hr |].
  simpl. rewrite Hd. apply IH. exact Hr.
Qed.

Lemma match_at_every_tag (c : ascii) (r : string) :
  match_at EveryTag (String c r)
  = if Ascii.eqb c "<"%char then option_map S (to_closing_bracket r) else None.
Proof. reflexivity. Qed.

(** Without formatting preserved, no tag is left in the text. *)
Lemma every_tag_is_removed (text : string) :
  has_tag (replace_all (getHtmlRegex false) text) = false.
Proof.
  unfold replace_all. simpl getHtmlRegex. generalize 0%nat as skip.
  induction text as [| c r IH]; intros skip; [reflexivity |].
  rewrite remove_matches_step.
  destruct skip as [| k]; [| apply IH].
  rewrite match_at_every_tag.
  destruct (Ascii.eqb c "<"%char) eqn:Hc.
  - destruct (to_closing_bracket r) as [n |] eqn:Hclose; simpl option_map; cbv iota.
    + apply IH.
    + simpl has_tag. rewrite Hc, IH.
      rewrite (remove_matches_has_char EveryTag ">"%char r 0 (to_closing_bracket_none r Hclose)).
      reflexivity.
  - simpl has_tag. rewrite Hc, IH. reflexivity.
Qed.

(** In both modes the text of a snippet is the entity-decoded result of
    removing the matches of the expression. *)
Lemma text_is_decoded_after_stripping (htmlDecode : string -> string)
    (preserveFormatting : bool) (raw : string) (properties : list (string * JsValue.t)) :
  JsValue.lookup properties "#text" = JsValue.Str raw ->
  text (to_snippet htmlDecode (getHtmlRegex preserveFormatting) (JsValue.Object properties))
  = htmlDecode (replace_all (getHtmlRegex preserveFormatting) raw).
Proof.
  intros H. unfold to_snippet. rewrite H. reflexivity.
Qed.

(** With formatting preserved, listed tags stay and a plain unlisted tag
    goes. *)
Lemma preserved_formatting_on_plain_tags :
  replace_all (getHtmlRegex true) "Hello <b>big</b> <font>blue</font> <i>world</i>"
  = "Hello <b>big</b> blue <i>world</i>"
  /\ replace_all (getHtmlRegex false) "Hello <b>big</b> <font>blue</font> <i>world</i>"
     = "Hello big blue world".
Proof. split; vm_compute; reflexivity. Qed.

(** C7. With formatting preserved the expression asks for a word
    character right before the closing bracket. A tag that ends otherwise
    is not matched where it closes: a self-closing tag stays in the text,
    and after a tag with a quoted attribute the match runs on to the next
    closing bracket that follows a word character, taking a listed tag
    with it. *)
Theorem preserved_formatting_mishandles_tags_not_closed_after_a_word :
  replace_all (getHtmlRegex true) "one<br/>two" = "one<br/>two"
  /\ parse (fun _ => Ok Samples.tree_with_line_break) (fun text => text) true
           Samples.xml_with_line_break
     = Ok [ {| text := "one<br/>two"; start := 0; duration := 1 |} ]
  /\ replace_all (getHtmlRegex true) Samples.font_with_attribute = "x</b>"
  /\ has_tag (replace_all (getHtmlRegex true) "one<br/>two") = true.
Proof. repeat split; vm_compute; reflexivity. Qed.

End CaptionBodyParser.

(** ** Further properties of the code *)

Import Terms.

(** ** One turn of the retry loop *)

Lemma fetchCaptionsJson_turn {St : Type} {httpClient : Fetcher.HttpClient St}
    (htmlDecode : string -> string) (videoId : string) (tryNumber : Z) (s : St) :
  Fetcher.fetchCaptionsJson htmlDecode videoId tryNumber s
  = match Fetcher.attempt htmlDecode videoId s with
    | (Errors.Ok captionsJson, s') => (Errors.Ok captionsJson, s')
    | (Errors.Throw error, s') =>
        if Errors.instanceof_RequestBlocked error then
          if tryNumber + 1 <? Fetcher.retriesWhenBlocked then
            Fetcher.fetchCaptionsJson htmlDecode videoId (tryNumber + 1) s'
          else (Errors.Throw (Errors.withProxyConfig error Fetcher.getProxyConfig), s')
        else (Errors.Throw error, s')
    end.
Proof. apply fetchCaptionsJson_unfold. Qed.

(** ** Reading a fetched transcript *)

Section FetchedTranscriptReads.

Import Types Fetched.

(** X1. For an index from 0 up to the length, [get] is the snippet at
    that position: the one the iterator yields there, and the one whose
    three fields [toRawData] lists there. *)
Theorem get_inside_range_is_the_iterated_snippet :
  forall (t : FetchedTranscript) (index : Z),
    0 <= index < Fetched.length t ->
    exists snippet : TranscriptSnippet,
      Fetched.get t index = Some snippet
      /\ nth_error (iterate t) (Z.to_nat index) = Some snippet
      /\ nth_error (toRawData t) (Z.to_nat index)
         = Some (text snippet, start snippet, duration snippet).
Proof.
  intros t index [Hlo Hhi]. unfold Fetched.length in Hhi.
  destruct (nth_error (snippets t) (Z.to_nat index)) as [snippet |] eqn:Hnth.
  - exists snippet. split; [| split].
    + unfold Fetched.get. apply Z.ltb_ge in Hlo. rewrite Hlo. exact Hnth.
    + exact Hnth.
    + unfold toRawData. rewrite nth_error_map, Hnth. reflexivity.
  - apply nth_error_None in Hnth. lia.
Qed.

Lemma get_inside_range_is_the_iterated_snippet_witness :
  exists snippet : TranscriptSnippet,
    Fetched.get Samples.mockTranscript 2 = Some snippet
    /\ nth_error (iterate Samples.mockTranscript) 2 = Some snippet
    /\ nth_error (toRawData Samples.mockTranscript) 2
       = Some (text snippet, start snippet, duration snippet).
Proof.
  apply (get_inside_range_is_the_iterated_snippet Samples.mockTranscript 2).
  vm_compute. split; [discriminate | reflexivity].
Defined.

End FetchedTranscriptReads.

(** ** Plain text output *)

Section PlainText.

Import JsString Types Fetched Formatters.
Local Open Scope string_scope.

Lemma split_lines_line (line cur : string) :
  has_char LF line = false -> split_lines cur line = [cur ++ line].
Proof.
  revert cur. induction line as [| c r IH]; intros cur H; simpl.
  - rewrite append_nil_r. reflexivity.
  - simpl in H. apply orb_false_iff in H. destruct H as [Hc Hr].
    rewrite Hc. rewrite IH by exact Hr.
    rewrite append_assoc. reflexivity.
Qed.

Lemma split_lines_append (line rest cur : string) :
  has_char LF line = false ->
  split_lines cur (line ++ nl ++ rest) = (cur ++ line) :: split_lines "" rest.
Proof.
  revert cur. induction line as [| c r IH]; intros cur H.
  - simpl. rewrite append_nil_r. reflexivity.
  - simpl in H. apply orb_false_iff in H. destruct H as [Hc Hr].
    change (split_lines cur (String c r ++ nl ++ rest))
      with (if Ascii.eqb c LF then cur :: split_lines "" (r ++ nl ++ rest)
            else split_lines (cur ++ String c "") (r ++ nl ++ rest)).
    rewrite Hc, IH by exact Hr. rewrite append_assoc. reflexivity.
Qed.

(** X2. The plain-text output of a transcript with at least one snippet,
    none of whose texts holds a line break, splits at the line breaks
    into the texts of the snippets, in order. *)
Theorem text_output_splits_into_the_snippet_texts :
  forall t : FetchedTranscript,
    snippets t <> [] ->
    (forall snippet, In snippet (snippets t) -> has_char LF (text snippet) = false) ->
    split_lines "" (TextFormatter_formatTranscript t) = map text (snippets t).
Proof.
  intros t. unfold TextFormatter_formatTranscript, iterate.
  induction (snippets t) as [| s rest IH]; intros Hne Hplain; [congruence |].
  destruct rest as [| s' rest'].
  - simpl. rewrite split_lines_line; [reflexivity |]. apply Hplain. left. reflexivity.
  - change (join nl (map text (s :: s' :: rest')))
      with (text s ++ nl ++ join nl (map text (s' :: rest'))).
    rewrite split_lines_append by (apply Hplain; left; reflexivity).
    rewrite IH; [reflexivity | discriminate |].
    intros snippet Hin. apply Hplain. right. exact Hin.
Qed.

Lemma text_output_splits_into_the_snippet_texts_witness :
  split_lines "" (TextFormatter_formatTranscript Samples.mockTranscript)
  = ["Hello world"; "How are you"; "Goodbye"].
Proof.
  apply (text_output_splits_into_the_snippet_texts Samples.mockTranscript).
  - discriminate.
  - intros snippet [<- | [<- | [<- | []]]]; reflexivity.
Defined.

End PlainText.

(** ** Building the catalog *)

Section MapEntries.

Context {V : Type}.

Lemma In_set (m : JsMap.t V) (key : string) (v : V) (k : string) (x : V) :
  In (k, x) (JsMap.set m key v) -> (k, x) = (key, v) \/ In (k, x) m.
Proof.
  induction m as [| [k0 v0] rest IH]; simpl.
  - intros [H | []]. left. symmetry. exact H.
  - destruct (String.eqb k0 key) eqn:E; simpl.
    + apply String.eqb_eq in E. subst k0.
      intros [H | H]; [left; symmetry; exact H | right; right; exact H].
    + intros [H | H]; [right; left; exact H |].
      destruct (IH H) as [H' | H']; [left; exact H' | right; right; exact H'].
Qed.

Lemma In_keys_set (m : JsMap.t V) (key : string) (v : V) (k : string) :
  In k (map fst (JsMap.set m key v)) -> k = key \/ In k (map fst m).
Proof.
  induction m as [| [k0 v0] rest IH]; simpl.
  - intros [H | []]. left. symmetry. exact H.
  - destruct (String.eqb k0 key) eqn:E; simpl.
    + intros H. right. exact H.
    + intros [H | H]; [right; left; exact H |].
      destruct (IH H) as [H' | H']; [left; exact H' | right; right; exact H'].
Qed.

Lemma NoDup_keys_set (m : JsMap.t V) (key : string) (v : V) :
  NoDup (map fst m) -> NoDup (map fst (JsMap.set m key v)).
Proof.
  induction m as [| [k0 v0] rest IH]; simpl; intros H.
  - constructor; [intros [] | constructor].
  - inversion H as [| ? ? Hnotin Hrest]; subst.
    destruct (String.eqb k0 key) eqn:E; simpl.
    + constructor; assumption.
    + constructor; [| apply IH; exact Hrest].
      intros Hin. apply In_keys_set in Hin. destruct Hin as [-> | Hin].
      * rewrite String.eqb_refl in E. discriminate.
      * contradiction.
Qed.

Lemma get_In (m : JsMap.t V) (k : string) (v : V) :
  JsMap.get m k = Some v -> In (k, v) m.
Proof.
  induction m as [| [k0 v0] rest IH]; simpl; [discriminate |].
  destruct (String.eqb k0 k) eqn:E.
  - apply String.eqb_eq in E. subst k0. intros [= ->]. left. reflexivity.
  - intros H. right. apply IH. exact H.
Qed.

Lemma In_get (m : JsMap.t V) (k : string) (v : V) :
  NoDup (map fst m) -> In (k, v) m -> JsMap.get m k = Some v.
Proof.
  induction m as [| [k0 v0] rest IH]; simpl; intros Hnd Hin; [contradiction |].
  inversion Hnd as [| ? ? Hnotin Hrest]; subst.
  destruct Hin as [[= -> ->] | Hin].
  - rewrite String.eqb_refl. reflexivity.
  - destruct (String.eqb k0 k) eqn:E.
    + apply String.eqb_eq in E. subst k0. exfalso. apply Hnotin.
      apply (in_map fst) in Hin. exact Hin.
    + apply IH; assumption.
Qed.

Lemma get_None_keys (m : JsMap.t V) (k : string) :
  JsMap.get m k = None <-> ~ In k (map fst m).
Proof.
  induction m as [| [k0 v0] rest IH]; simpl.
  - split; [intros _ [] | reflexivity].
  - destruct (String.eqb k0 k) eqn:E.
    + apply String.eqb_eq in E. split; [discriminate | intros H; exfalso; apply H; left; exact E].
    + apply String.eqb_neq in E. rewrite IH. split.
      * intros H [H' | H']; [contradiction | apply H; exact H'].
      * intros H H'. apply H. right. exact H'.
Qed.

End MapEntries.

Section CatalogConstruction.

Import JsString Types Errors Catalog.
Local Open Scope string_scope.

(** The transcript object [build] creates for a caption track. *)
Lemma build_tracks_step (videoId : string) (targets : list TranslationLanguage)
    (caption : CaptionTrack) (rest : list CaptionTrack) (manual generated : JsMap.t Transcript) :
  build_tracks videoId targets (caption :: rest) manual generated
  = match first_run_text (name_runs caption) with
    | Throw e => Throw e
    | Ok lang =>
        let transcript :=
          {| Catalog.videoId := videoId;
             _url := replace (baseUrl caption) "&fmt=srv3" "";
             language := lang;
             languageCode := ct_languageCode caption;
             isGenerated := is_asr caption;
             translationLanguages :=
               match ct_isTranslatable caption with
               | Some true => targets
               | _ => []
               end |} in
        if is_asr caption then
          build_tracks videoId targets rest manual
            (JsMap.set generated (ct_languageCode caption) transcript)
        else
          build_tracks videoId targets rest
            (JsMap.set manual (ct_languageCode caption) transcript) generated
    end.
Proof. reflexivity. Qed.

Lemma filed_set (videoId : string) (targets : list TranslationLanguage) (generated : bool)
    (m : JsMap.t Transcript) (t : Transcript) :
  filed videoId targets generated m ->
  isGenerated t = generated -> Catalog.videoId t = videoId ->
  (translationLanguages t = [] \/ translationLanguages t = targets) ->
  filed videoId targets generated (JsMap.set m (languageCode t) t).
Proof.
  intros [Hnd Hall] Hgen Hvid Htargets. split; [apply NoDup_keys_set; exact Hnd |].
  intros k t' Hin. apply In_set in Hin. destruct Hin as [[= -> ->] | Hin].
  - repeat split; assumption.
  - apply Hall. exact Hin.
Qed.

Lemma build_tracks_filed (videoId : string) (targets : list TranslationLanguage)
    (tracks : list CaptionTrack) :
  forall manual generated manual' generated',
    build_tracks videoId targets tracks manual generated = Ok (manual', generated') ->
    filed videoId targets false manual -> filed videoId targets true generated ->
    filed videoId targets false manual' /\ filed videoId targets true generated'.
Proof.
  induction tracks as [| caption rest IH]; intros manual generated manual' generated'.
  - simpl. intros [= <- <-] Hm Hg. split; assumption.
  - rewrite build_tracks_step.
    destruct (first_run_text (name_runs caption)) as [lang | e]; [| discriminate].
    cbv zeta. destruct (is_asr caption) eqn:Hasr; intros Hbuild Hm Hg.
    + apply (IH _ _ _ _ Hbuild); [exact Hm |].
      apply (filed_set videoId targets true generated
               {| Catalog.videoId := videoId;
                  _url := replace (baseUrl caption) "&fmt=srv3" "";
                  language := lang;
                  languageCode := ct_languageCode caption;
                  isGenerated := true;
                  translationLanguages :=
                    match ct_isTranslatable caption with
                    | Some true => targets
                    | _ => []
                    end |}); try reflexivity; [exact Hg |].
      simpl. destruct (ct_isTranslatable caption) as [[|] |]; auto.
    + apply (IH _ _ _ _ Hbuild); [| exact Hg].
      apply (filed_set videoId targets false manual
               {| Catalog.videoId := videoId;
                  _url := replace (baseUrl caption) "&fmt=srv3" "";
                  language := lang;
                  languageCode := ct_languageCode caption;
                  isGenerated := false;
                  translationLanguages :=
                    match ct_isTranslatable caption with
                    | Some true => targets
                    | _ => []
                    end |}); try reflexivity; [exact Hm |].
      simpl. destruct (ct_isTranslatable caption) as [[|] |]; auto.
Qed.

Lemma filed_empty (videoId : string) (targets : list TranslationLanguage) (generated : bool) :
  filed videoId targets generated JsMap.empty.
Proof. split; [constructor | intros k t []]. Qed.

(** What [build] returns, taken apart. *)
Lemma build_Ok (videoId : string) (captionsJson : CaptionsJson) (l : TranscriptList) :
  build videoId captionsJson = Ok l ->
  tl_videoId l = videoId
  /\ build_translationLanguages
       (match cj_translationLanguages captionsJson with Some x => x | None => [] end)
     = Ok (_translationLanguages l)
  /\ build_tracks videoId (_translationLanguages l) (captionTracks captionsJson)
       JsMap.empty JsMap.empty
     = Ok (manuallyCreatedTranscripts l, generatedTranscripts l).
Proof.
  unfold build.
  destruct (build_translationLanguages _) as [targets | e] eqn:Htargets; [| discriminate].
  destruct (build_tracks videoId targets (captionTracks captionsJson) JsMap.empty JsMap.empty)
    as [[manual generated] | e] eqn:Htracks; [| discriminate].
  intros [= <-]. simpl. split; [reflexivity |]. split; [reflexivity | exact Htracks].
Qed.

Lemma build_filed (videoId : string) (captionsJson : CaptionsJson) (l : TranscriptList)
    (generated : bool) :
  build videoId captionsJson = Ok l ->
  filed videoId (_translationLanguages l) generated (tier generated l).
Proof.
  intros H. apply build_Ok in H. destruct H as (_ & _ & Htracks).
  destruct (build_tracks_filed _ _ _ _ _ _ _ Htracks
              (filed_empty videoId (_translationLanguages l) false)
              (filed_empty videoId (_translationLanguages l) true)) as [Hm Hg].
  destruct generated; assumption.
Qed.

(** X3. In a catalog that [build] returns, every track sits in the tier
    of its origin under its own language code, no code twice in a tier;
    it carries the video id of the catalog, and its translation targets
    are none or those of the catalog. So a look-up by code and the
    iteration over a tier see the same tracks. *)
Theorem build_files_tracks_by_code_and_origin :
  forall (videoId : string) (captionsJson : CaptionsJson) (l : TranscriptList),
    build videoId captionsJson = Ok l ->
    tl_videoId l = videoId
    /\ forall generated : bool,
         NoDup (map fst (tier generated l))
         /\ (forall (k : string) (t : Transcript),
               In (k, t) (tier generated l) <-> JsMap.get (tier generated l) k = Some t)
         /\ (forall (k : string) (t : Transcript),
               JsMap.get (tier generated l) k = Some t ->
               languageCode t = k
               /\ isGenerated t = generated
               /\ Catalog.videoId t = videoId
               /\ (translationLanguages t = []
                   \/ translationLanguages t = _translationLanguages l)).
Proof.
  intros videoId captionsJson l Hbuild. split; [apply (build_Ok _ _ _ Hbuild) |].
  intros generated. destruct (build_filed _ _ _ generated Hbuild) as [Hnd Hall].
  split; [exact Hnd |]. split.
  - intros k t. split; [apply In_get; exact Hnd | apply get_In].
  - intros k t Hget. apply Hall. apply get_In. exact Hget.
Qed.

Lemma build_files_tracks_by_code_and_origin_witness :
  tl_videoId Samples.catalog = "vid"
  /\ forall generated : bool,
       NoDup (map fst (tier generated Samples.catalog))
       /\ (forall (k : string) (t : Transcript),
             In (k, t) (tier generated Samples.catalog)
             <-> JsMap.get (tier generated Samples.catalog) k = Some t)
       /\ (forall (k : string) (t : Transcript),
             JsMap.get (tier generated Samples.catalog) k = Some t ->
             languageCode t = k
             /\ isGenerated t = generated
             /\ Catalog.videoId t = "vid"
             /\ (translationLanguages t = []
                 \/ translationLanguages t = _translationLanguages Samples.catalog)).
Proof.
  apply (build_files_tracks_by_code_and_origin "vid" Samples.captions_en_generated_de_manual
           Samples.catalog).
  vm_compute. reflexivity.
Defined.

Lemma build_tracks_app (videoId : string) (targets : list TranslationLanguage)
    (before after : list CaptionTrack) :
  forall manual generated,
    build_tracks videoId targets (before ++ after) manual generated
    = match build_tracks videoId targets before manual generated with
      | Ok (manual', generated') => build_tracks videoId targets after manual' generated'
      | Throw e => Throw e
      end.
Proof.
  induction before as [| caption rest IH]; intros manual generated; [reflexivity |].
  change ((caption :: rest) ++ after)%list with (caption :: (rest ++ after))%list.
  rewrite !build_tracks_step.
  destruct (first_run_text (name_runs caption)); [| reflexivity].
  cbv zeta. destruct (is_asr caption); apply IH.
Qed.

Lemma is_track_true (code : string) (generated : bool) (caption : CaptionTrack) :
  is_track code generated caption = true
  <-> ct_languageCode caption = code /\ is_asr caption = generated.
Proof.
  unfold is_track. rewrite andb_true_iff, String.eqb_eq, Bool.eqb_true_iff. reflexivity.
Qed.

(** Tracks of another code or origin leave the entry of a code in a tier
    as it is. *)
Lemma build_tracks_other (videoId : string) (targets : list TranslationLanguage)
    (code : string) (origin : bool) (tracks : list CaptionTrack) :
  forall manual generated manual' generated',
    build_tracks videoId targets tracks manual generated = Ok (manual', generated') ->
    (forall x, In x tracks -> is_track code origin x = false) ->
    JsMap.get (if origin then generated' else manual') code
    = JsMap.get (if origin then generated else manual) code.
Proof.
  induction tracks as [| caption rest IH]; intros manual generated manual' generated'.
  - simpl. intros [= <- <-] _. reflexivity.
  - rewrite build_tracks_step.
    destruct (first_run_text (name_runs caption)) as [lang | e]; [| discriminate].
    cbv zeta. intros Hbuild Hother.
    assert (Hcaption : is_track code origin caption = false)
      by (apply Hother; left; reflexivity).
    assert (Hrest : forall x, In x rest -> is_track code origin x = false)
      by (intros x Hin; apply Hother; right; exact Hin).
    unfold is_track in Hcaption.
    destruct (is_asr caption) eqn:Hasr;
      rewrite (IH _ _ _ _ Hbuild Hrest); destruct origin; try reflexivity;
      simpl in Hcaption; rewrite andb_true_r in Hcaption;
      apply String.eqb_neq in Hcaption; apply get_set_other; exact Hcaption.
Qed.

(** Every entry of the tiers was there before or is made from one of the
    tracks. *)
Lemma build_tracks_origin (videoId : string) (targets : list TranslationLanguage)
    (tracks : list CaptionTrack) :
  forall manual generated manual' generated',
    build_tracks videoId targets tracks manual generated = Ok (manual', generated') ->
    forall (origin : bool) (k : string) (t : Transcript),
      In (k, t) (if origin then generated' else manual') ->
      In (k, t) (if origin then generated else manual)
      \/ exists caption, In caption tracks /\ made_from videoId targets caption t
                         /\ k = ct_languageCode caption /\ is_asr caption = origin.
Proof.
  induction tracks as [| caption rest IH]; intros manual generated manual' generated'.
  - simpl. intros [= <- <-] origin k t Hin. left. exact Hin.
  - rewrite build_tracks_step.
    destruct (first_run_text (name_runs caption)) as [lang | e] eqn:Hlang; [| discriminate].
    cbv zeta. intros Hbuild origin k t Hin.
    assert (Hlater : forall c, In c rest -> In c (caption :: rest)) by (intros c Hc; right; exact Hc).
    destruct (is_asr caption) eqn:Hasr;
      destruct (IH _ _ _ _ Hbuild origin k t Hin) as [Hold | (c & Hc & Hmade & Hk & Horigin)];
      try (right; exists c; split; [apply Hlater; exact Hc | split; [exact Hmade | split; assumption]]);
      destruct origin; try (left; exact Hold);
      apply In_set in Hold; destruct Hold as [[= -> ->] | Hold]; try (left; exact Hold);
      right; exists caption; (split; [left; reflexivity |]);
      (split; [| split; [reflexivity | exact Hasr]]);
      unfold made_from; simpl; rewrite Hasr; repeat split; exact Hlang.
Qed.

(** The last element of a list that passes a test. *)
Lemma last_that_passes {A : Type} (test : A -> bool) (l : list A) :
  (exists x, In x l /\ test x = true) ->
  exists before x after,
    l = (before ++ x :: after)%list /\ test x = true
    /\ forall y, In y after -> test y = false.
Proof.
  induction l as [| a rest IH]; intros (x & Hin & Hx); [contradiction |].
  destruct (existsb test rest) eqn:Hrest.
  - apply existsb_exists in Hrest. destruct (IH Hrest) as (before & y & after & -> & Hy & Hafter).
    exists (a :: before), y, after. repeat split; assumption.
  - assert (Hnone : forall y, In y rest -> test y = false).
    { intros y Hy. destruct (test y) eqn:Hty; [| reflexivity].
      assert (existsb test rest = true) by (apply existsb_exists; exists y; split; assumption).
      congruence. }
    destruct Hin as [<- | Hin]; [| rewrite (Hnone x Hin) in Hx; discriminate].
    exists [], a, rest. repeat split; assumption.
Qed.

(** X4. The catalog holds, for a language code and an origin, the
    transcript object made from the last caption track of that code and
    origin in the listing (a later track replaces an earlier one), and
    it holds nothing else: every entry of a tier is made from a caption
    track of its code and origin. The object has the name of the track's
    first run as language and the track's URL without its first
    [&fmt=srv3]; its translation targets are those of the catalog when
    the track is translatable, and none otherwise. *)
Theorem build_keeps_the_last_track_of_a_code_and_origin :
  forall (videoId : string) (captionsJson : CaptionsJson) (l : TranscriptList),
    build videoId captionsJson = Ok l ->
    (forall (before after : list CaptionTrack) (track : CaptionTrack),
       captionTracks captionsJson = (before ++ track :: after)%list ->
       (forall x, In x after ->
                  is_track (ct_languageCode track) (is_asr track) x = false) ->
       exists t : Transcript,
         JsMap.get (tier (is_asr track) l) (ct_languageCode track) = Some t
         /\ made_from videoId (_translationLanguages l) track t)
    /\ (forall (generated : bool) (k : string) (t : Transcript),
          JsMap.get (tier generated l) k = Some t ->
          exists track : CaptionTrack,
            In track (captionTracks captionsJson)
            /\ is_track k generated track = true
            /\ made_from videoId (_translationLanguages l) track t).
Proof.
  intros videoId captionsJson l Hbuild.
  destruct (build_Ok _ _ _ Hbuild) as (_ & _ & Htracks). split.
  - intros before after track Hsplit Hafter.
    rewrite Hsplit, build_tracks_app in Htracks.
    destruct (build_tracks videoId (_translationLanguages l) before JsMap.empty JsMap.empty)
      as [[manual0 generated0] | e]; [| discriminate].
    rewrite build_tracks_step in Htracks.
    destruct (first_run_text (name_runs track)) as [lang | e] eqn:Hlang; [| discriminate].
    cbv zeta in Htracks.
    exists {| Catalog.videoId := videoId;
              _url := replace (baseUrl track) "&fmt=srv3" "";
              language := lang;
              languageCode := ct_languageCode track;
              isGenerated := is_asr track;
              translationLanguages :=
                match ct_isTranslatable track with
                | Some true => _translationLanguages l
                | _ => []
                end |}.
    split; [| unfold made_from; simpl; repeat split; exact Hlang].
    unfold tier.
    destruct (is_asr track) eqn:Hasr;
      rewrite (build_tracks_other _ _ (ct_languageCode track) _ _ _ _ _ _ Htracks Hafter);
      apply get_set_same.
  - intros generated k t Hget. apply get_In in Hget.
    destruct (build_tracks_origin _ _ _ _ _ _ _ Htracks generated k t) as [Hold | Hmade].
    + unfold tier in Hget. destruct generated; exact Hget.
    + destruct generated; contradiction.
    + destruct Hmade as (caption & Hin & Hmade & -> & Horigin).
      exists caption. split; [exact Hin |]. split; [| exact Hmade].
      apply is_track_true. split; [reflexivity | exact Horigin].
Qed.

Lemma build_keeps_the_last_track_of_a_code_and_origin_witness :
  (forall (before after : list CaptionTrack) (track : CaptionTrack),
     captionTracks Samples.captions_en_generated_de_manual = (before ++ track :: after)%list ->
     (forall x, In x after ->
                is_track (ct_languageCode track) (is_asr track) x = false) ->
     exists t : Transcript,
       JsMap.get (tier (is_asr track) Samples.catalog) (ct_languageCode track) = Some t
       /\ made_from "vid" (_translationLanguages Samples.catalog) track t)
  /\ (forall (generated : bool) (k : string) (t : Transcript),
        JsMap.get (tier generated Samples.catalog) k = Some t ->
        exists track : CaptionTrack,
          In track (captionTracks Samples.captions_en_generated_de_manual)
          /\ is_track k generated track = true
          /\ made_from "vid" (_translationLanguages Samples.catalog) track t).
Proof.
  apply (build_keeps_the_last_track_of_a_code_and_origin "vid"
           Samples.captions_en_generated_de_manual Samples.catalog).
  vm_compute. reflexivity.
Defined.

Lemma first_run_text_cases (runs : list string) :
  (exists r, first_run_text runs = Ok r /\ runs <> [])
  \/ (first_run_text runs
      = Throw (Foreign "TypeError" "Cannot read properties of undefined (reading 'text')")
      /\ runs = []).
Proof.
  destruct runs as [| r rest]; [right; split; reflexivity |].
  left. exists r. split; [reflexivity | discriminate].
Qed.

Lemma build_translationLanguages_cases (entries : list (list string * string)) :
  (exists targets, build_translationLanguages entries = Ok targets
                   /\ forall runs code, In (runs, code) entries -> runs <> [])
  \/ (build_translationLanguages entries
      = Throw (Foreign "TypeError" "Cannot read properties of undefined (reading 'text')")
      /\ exists code, In ([], code) entries).
Proof.
  induction entries as [| [runs code] rest IH]; simpl.
  - left. exists []. split; [reflexivity | intros runs code []].
  - destruct (first_run_text_cases runs) as [(r & -> & Hruns) | [-> ->]].
    + destruct IH as [(targets & -> & Hall) | (-> & code' & Hin)].
      * left. eexists. split; [reflexivity |].
        intros runs' code' [[= <- <-] | Hin]; [exact Hruns | apply (Hall _ _ Hin)].
      * right. split; [reflexivity |]. exists code'. right. exact Hin.
    + right. split; [reflexivity |]. exists code. left. reflexivity.
Qed.

Lemma build_tracks_cases (videoId : string) (targets : list TranslationLanguage)
    (tracks : list CaptionTrack) :
  forall manual generated,
    (exists tiers, build_tracks videoId targets tracks manual generated = Ok tiers
                   /\ forall track, In track tracks -> name_runs track <> [])
    \/ (build_tracks videoId targets tracks manual generated
        = Throw (Foreign "TypeError" "Cannot read properties of undefined (reading 'text')")
        /\ exists track, In track tracks /\ name_runs track = []).
Proof.
  induction tracks as [| caption rest IH]; intros manual generated.
  - left. exists (manual, generated). split; [reflexivity | intros track []].
  - rewrite build_tracks_step.
    destruct (first_run_text_cases (name_runs caption)) as [(r & -> & Hruns) | [-> Hnone]].
    + cbv zeta.
      destruct (is_asr caption);
        match goal with
        | |- context [build_tracks videoId targets rest ?m ?g] =>
            destruct (IH m g) as [(tiers & -> & Hall) | (-> & track & Hin & Htrack)]
        end;
        try (left; exists tiers; split; [reflexivity |];
             intros track [<- | Hin]; [exact Hruns | apply (Hall _ Hin)]);
        right; (split; [reflexivity |]); exists track; (split; [right; exact Hin | exact Htrack]).
    + right. split; [reflexivity |]. exists caption. split; [left; reflexivity | exact Hnone].
Qed.

(** X5. [build] fails in one way only, with the [TypeError] of reading
    the text of a first run that is not there; it returns a catalog
    exactly when every caption track and every translation language of
    the listing has a name with at least one run. An empty listing gives
    the empty catalog. *)
Theorem build_fails_only_on_a_name_without_runs :
  forall (videoId : string) (captionsJson : CaptionsJson),
    (forall e, build videoId captionsJson = Throw e ->
               e = Foreign "TypeError" "Cannot read properties of undefined (reading 'text')")
    /\ ((exists l, build videoId captionsJson = Ok l)
        <-> (forall track, In track (captionTracks captionsJson) -> name_runs track <> [])
            /\ (forall runs code,
                  In (runs, code)
                     (match cj_translationLanguages captionsJson with
                      | Some entries => entries
                      | None => []
                      end) ->
                  runs <> []))
    /\ build videoId {| captionTracks := []; cj_translationLanguages := None |}
       = Ok {| tl_videoId := videoId;
               manuallyCreatedTranscripts := JsMap.empty;
               generatedTranscripts := JsMap.empty;
               _translationLanguages := [] |}.
Proof.
  intros videoId captionsJson. unfold build at 1 2.
  set (entries := match cj_translationLanguages captionsJson with
                  | Some entries => entries
                  | None => []
                  end).
  split; [| split; [| reflexivity]].
  - intros e.
    destruct (build_translationLanguages_cases entries)
      as [(targets & -> & _) | (-> & _)]; [| intros [= <-]; reflexivity].
    destruct (build_tracks_cases videoId targets (captionTracks captionsJson)
                JsMap.empty JsMap.empty) as [([manual generated] & -> & _) | (-> & _)];
      [discriminate | intros [= <-]; reflexivity].
  - destruct (build_translationLanguages_cases entries)
      as [(targets & -> & Hentries) | (-> & code & Hin)].
    + destruct (build_tracks_cases videoId targets (captionTracks captionsJson)
                  JsMap.empty JsMap.empty)
        as [([manual generated] & -> & Htracks) | (-> & track & Hin & Htrack)].
      * split; [intros _; split; assumption | intros _; eexists; reflexivity].
      * split; [intros [l Hl]; discriminate |].
        intros [Htracks _]. exfalso. apply (Htracks track Hin Htrack).
    + split; [intros [l Hl]; discriminate |].
      intros [_ Hentries]. exfalso. apply (Hentries [] code Hin). reflexivity.
Qed.

(** A tier has no entry for a code exactly when the listing has no track
    of that code and origin. *)
Lemma build_get_None (videoId : string) (captionsJson : CaptionsJson) (l : TranscriptList)
    (generated : bool) (code : string) :
  build videoId captionsJson = Ok l ->
  (JsMap.get (tier generated l) code = None
   <-> forall track, In track (captionTracks captionsJson) ->
                     is_track code generated track = false).
Proof.
  intros Hbuild. destruct (build_Ok _ _ _ Hbuild) as (_ & _ & Htracks). split.
  - intros Hnone track Hin. destruct (is_track code generated track) eqn:Htrack; [| reflexivity].
    destruct (last_that_passes (is_track code generated) (captionTracks captionsJson))
      as (before & x & after & Hsplit & Hx & Hafter);
      [exists track; split; assumption |].
    apply is_track_true in Hx. destruct Hx as [<- <-].
    rewrite Hsplit, build_tracks_app in Htracks.
    destruct (build_tracks videoId (_translationLanguages l) before JsMap.empty JsMap.empty)
      as [[manual0 generated0] | e]; [| discriminate].
    rewrite build_tracks_step in Htracks.
    destruct (first_run_text (name_runs x)) as [lang | e]; [| discriminate].
    cbv zeta in Htracks. unfold tier in Hnone.
    destruct (is_asr x) eqn:Hasr;
      rewrite (build_tracks_other _ _ (ct_languageCode x) _ _ _ _ _ _ Htracks Hafter) in Hnone;
      rewrite get_set_same in Hnone; discriminate.
  - intros Hnone. destruct (JsMap.get (tier generated l) code) as [t |] eqn:Hget; [| reflexivity].
    apply get_In in Hget.
    destruct (build_tracks_origin _ _ _ _ _ _ _ Htracks generated code t) as [Hold | Hmade].
    + unfold tier in Hget. destruct generated; exact Hget.
    + destruct generated; contradiction.
    + destruct Hmade as (caption & Hin & _ & -> & Horigin).
      specialize (Hnone caption Hin).
      assert (is_track (ct_languageCode caption) generated caption = true)
        by (apply is_track_true; split; [reflexivity | exact Horigin]).
      congruence.
Qed.

(** X6. On a catalog that [build] returns, [findTranscript] returns a
    track of one of the requested codes, and a generated one only when
    the listing has no manually created track of that code;
    [findGeneratedTranscript] returns generated tracks only and
    [findManuallyCreatedTranscript] manually created ones only; and
    [findTranscript] throws exactly when no caption track of the listing
    has a requested code. *)
Theorem finders_on_a_built_catalog :
  forall (videoId : string) (captionsJson : CaptionsJson) (l : TranscriptList)
         (codes : list string),
    build videoId captionsJson = Ok l ->
    (forall t, findTranscript l codes = Ok t ->
               In (languageCode t) codes
               /\ (isGenerated t = true ->
                   forall track, In track (captionTracks captionsJson) ->
                                 ct_languageCode track = languageCode t ->
                                 is_asr track = true))
    /\ (forall t, findGeneratedTranscript l codes = Ok t ->
                  In (languageCode t) codes /\ isGenerated t = true)
    /\ (forall t, findManuallyCreatedTranscript l codes = Ok t ->
                  In (languageCode t) codes /\ isGenerated t = false)
    /\ ((exists e, findTranscript l codes = Throw e)
        <-> forall track, In track (captionTracks captionsJson) ->
                          ~ In (ct_languageCode track) codes).
Proof.
  intros videoId captionsJson l codes Hbuild.
  assert (Hfiled : forall generated k t,
             JsMap.get (tier generated l) k = Some t ->
             languageCode t = k /\ isGenerated t = generated).
  { intros generated k t Hget. destruct (build_filed _ _ _ generated Hbuild) as [_ Hall].
    destruct (Hall k t (get_In _ _ _ Hget)) as (Hk & Hg & _). split; assumption. }
  assert (Hfound : forall tiers t,
             _findTranscript l codes tiers = Ok t ->
             exists before code after earlier tier later,
               codes = (before ++ code :: after)%list
               /\ tiers = (earlier ++ tier :: later)%list
               /\ (forall d, In d earlier -> JsMap.get d code = None)
               /\ JsMap.get tier code = Some t).
  { intros tiers t. unfold _findTranscript.
    destruct (lookup_codes codes tiers) as [t' |] eqn:Hlookup; [| discriminate].
    intros [= ->]. apply lookup_codes_some in Hlookup.
    destruct Hlookup as (before & code & after & Hcodes & _ & Htier).
    apply lookup_tiers_some in Htier. destruct Htier as (earlier & tier & later & H1 & H2 & H3).
    exists before, code, after, earlier, tier, later. repeat split; assumption. }
  split; [| split; [| split]].
  - intros t Hfind. apply Hfound in Hfind.
    destruct Hfind as (before & code & after & earlier & d & later & Hcodes & Htiers & Hearlier & Hget).
    destruct earlier as [| d0 [| d1 earlier]]; simpl in Htiers.
    + injection Htiers as <- _.
      destruct (Hfiled false code t Hget) as [Hk Hg]. split.
      * rewrite Hk, Hcodes. apply in_elt.
      * rewrite Hg. discriminate.
    + injection Htiers as <- <- _.
      destruct (Hfiled true code t Hget) as [Hk Hg]. split.
      * rewrite Hk, Hcodes. apply in_elt.
      * intros _ track Hin Hcode.
        assert (Hmanual : JsMap.get (tier false l) code = None)
          by (apply Hearlier; left; reflexivity).
        rewrite (build_get_None _ _ _ false code Hbuild) in Hmanual.
        specialize (Hmanual track Hin). unfold is_track in Hmanual.
        rewrite Hcode, Hk, String.eqb_refl in Hmanual. simpl in Hmanual.
        destruct (is_asr track); [reflexivity | discriminate].
    + destruct earlier; discriminate.
  - intros t Hfind. apply Hfound in Hfind.
    destruct Hfind as (before & code & after & earlier & d & later & Hcodes & Htiers & _ & Hget).
    destruct earlier as [| d0 earlier]; simpl in Htiers; [| destruct earlier; discriminate].
    injection Htiers as <- _. destruct (Hfiled true code t Hget) as [Hk Hg].
    split; [rewrite Hk, Hcodes; apply in_elt | exact Hg].
  - intros t Hfind. apply Hfound in Hfind.
    destruct Hfind as (before & code & after & earlier & d & later & Hcodes & Htiers & _ & Hget).
    destruct earlier as [| d0 earlier]; simpl in Htiers; [| destruct earlier; discriminate].
    injection Htiers as <- _. destruct (Hfiled false code t Hget) as [Hk Hg].
    split; [rewrite Hk, Hcodes; apply in_elt | exact Hg].
  - unfold findTranscript, _findTranscript.
    destruct (lookup_codes codes [manuallyCreatedTranscripts l; generatedTranscripts l])
      as [t |] eqn:Hlookup.
    + split; [intros [e He]; discriminate |]. intros Hnone. exfalso.
      apply lookup_codes_some in Hlookup.
      destruct Hlookup as (before & code & after & Hcodes & _ & Htier).
      apply lookup_tiers_some in Htier. destruct Htier as (earlier & d & later & Htiers & _ & Hget).
      assert (Hgen : exists generated, JsMap.get (tier generated l) code = Some t).
      { destruct earlier as [| d0 [| d1 earlier]]; simpl in Htiers.
        - injection Htiers as <- _. exists false. exact Hget.
        - injection Htiers as _ <- _. exists true. exact Hget.
        - destruct earlier; discriminate. }
      destruct Hgen as [generated Hgen].
      destruct (JsMap.get (tier generated l) code) eqn:Hsome; [| discriminate].
      assert (Hnot : JsMap.get (tier generated l) code <> None) by congruence.
      rewrite (build_get_None _ _ _ generated code Hbuild) in Hnot. apply Hnot.
      intros track Hin. destruct (is_track code generated track) eqn:Htrack; [| reflexivity].
      apply is_track_true in Htrack. destruct Htrack as [Hcode _].
      exfalso. apply (Hnone track Hin). rewrite Hcode, Hcodes. apply in_elt.
    + split; [| intros _; eexists; reflexivity]. intros _ track Hin Hcode.
      rewrite lookup_codes_none in Hlookup. specialize (Hlookup _ Hcode).
      rewrite lookup_tiers_none in Hlookup.
      assert (Htier : JsMap.get (tier (is_asr track) l) (ct_languageCode track) = None).
      { apply Hlookup. unfold tier. destruct (is_asr track); [right; left | left]; reflexivity. }
      rewrite (build_get_None _ _ _ _ _ Hbuild) in Htier. specialize (Htier track Hin).
      assert (is_track (ct_languageCode track) (is_asr track) track = true)
        by (apply is_track_true; split; reflexivity).
      congruence.
Qed.

Lemma finders_on_a_built_catalog_witness :
  findTranscript Samples.catalog ["de"; "en"] = Ok Samples.track_de_manual
  /\ In (languageCode Samples.track_de_manual) ["de"; "en"].
Proof.
  split; [reflexivity |].
  apply (proj1 (finders_on_a_built_catalog "vid" Samples.captions_en_generated_de_manual
                  Samples.catalog ["de"; "en"] eq_refl) Samples.track_de_manual).
  reflexivity.
Defined.

End CatalogConstruction.

(** ** Translations and the caption request *)

Section TrackRequests.

Import JsString Types Errors Catalog Fetcher.
Local Open Scope string_scope.

Lemma translation_url (t t' : Transcript) (code : string) :
  translate t code = Ok t' ->
  Catalog.videoId t' = Catalog.videoId t /\ _url t' = _url t ++ "&tlang=" ++ code.
Proof.
  unfold translate.
  destruct (negb (isTranslatable t)); [discriminate |].
  destruct (negb (JsMap.has (translationLanguagesDict t) code)); [discriminate |].
  destruct (JsMap.get (translationLanguagesDict t) code) as [target |]; [| discriminate].
  intros [= <-]. split; reflexivity.
Qed.

(** X7. A track that [translate] returns is for the same video, has the
    requested code, and its URL is that of the original followed by
    [&tlang=] and the code; it has no translation targets, so
    translating it again, to whatever code, throws [NotTranslatable]. *)
Theorem translation_cannot_be_translated_again :
  forall (t t' : Transcript) (code : string),
    translate t code = Ok t' ->
    Catalog.videoId t' = Catalog.videoId t
    /\ languageCode t' = code
    /\ _url t' = _url t ++ "&tlang=" ++ code
    /\ JsMap.get (translationLanguagesDict t) code = Some (language t')
    /\ isTranslatable t' = false
    /\ forall code', translate t' code' = Throw (NotTranslatable (Catalog.videoId t)).
Proof.
  intros t t' code. unfold translate.
  destruct (negb (isTranslatable t)); [discriminate |].
  destruct (negb (JsMap.has (translationLanguagesDict t) code)); [discriminate |].
  destruct (JsMap.get (translationLanguagesDict t) code) as [target |]; [| discriminate].
  intros [= <-]. repeat split.
Qed.

Lemma translation_cannot_be_translated_again_witness :
  exists t' : Transcript,
    translate Samples.track_en_generated "fr" = Ok t'
    /\ language t' = "French"
    /\ translate t' "es" = Throw (NotTranslatable "vid").
Proof.
  eexists. split; [reflexivity |].
  destruct (translation_cannot_be_translated_again Samples.track_en_generated _ "fr" eq_refl)
    as (_ & _ & _ & _ & _ & Hagain).
  split; [reflexivity | apply Hagain].
Defined.

(** X8. [transcript.fetch]: when the URL of the track holds [&exp=xpe]
    it throws [PoTokenRequired] without a request, and so does the fetch
    of any translation of the track; otherwise it makes one GET request,
    for the URL of the track, and the transport is left as that request
    leaves it; a response with status 429 is thrown as [IpBlocked]
    without a proxy configuration and without another try; and a result
    has the video id, language, code and origin of the track, with the
    snippets the parser reads from the body of a response whose status
    is below 400. *)
Theorem track_fetch_makes_at_most_one_request :
  forall (St : Type) (httpClient : HttpClient St)
         (XMLParser_parse : string -> Result JsValue.t) (htmlDecode : string -> string)
         (t : Transcript) (preserveFormatting : bool) (s : St),
    let run := TrackFetch.fetch XMLParser_parse htmlDecode t preserveFormatting s in
    (includes (_url t) "&exp=xpe" = true ->
     run = (Throw (PoTokenRequired (Catalog.videoId t)), s)
     /\ forall code t',
          translate t code = Ok t' ->
          TrackFetch.fetch XMLParser_parse htmlDecode t' preserveFormatting s
          = (Throw (PoTokenRequired (Catalog.videoId t)), s))
    /\ (includes (_url t) "&exp=xpe" = false -> snd run = snd (get (_url t) s))
    /\ (includes (_url t) "&exp=xpe" = false ->
        forall response s',
          get (_url t) s = (Ok response, s') -> status response = 429 ->
          run = (Throw (IpBlocked (Catalog.videoId t) None), s'))
    /\ (forall fetched s',
          run = (Ok fetched, s') ->
          Fetched.videoId fetched = Catalog.videoId t
          /\ Fetched.language fetched = language t
          /\ Fetched.languageCode fetched = languageCode t
          /\ Fetched.isGenerated fetched = isGenerated t
          /\ exists response rawData,
               get (_url t) s = (Ok response, s')
               /\ status response < 400
               /\ text response = Ok rawData
               /\ Parser.parse XMLParser_parse htmlDecode preserveFormatting rawData
                  = Ok (Fetched.snippets fetched)).
Proof.
  intros St httpClient XMLParser_parse htmlDecode t preserveFormatting s run.
  unfold run, TrackFetch.fetch. split; [| split; [| split]].
  - intros Hpo. rewrite Hpo. split; [reflexivity |].
    intros code t' Htranslate.
    apply translation_url in Htranslate. destruct Htranslate as [Hvideo Hurl].
    rewrite Hurl, (includes_append_l _ _ _ Hpo), Hvideo. reflexivity.
  - intros Hpo. rewrite Hpo. unfold bind.
    destruct (get (_url t) s) as [[response | e] s1]; [| reflexivity].
    unfold raiseHttpErrors.
    destruct (status response =? 429)%Z; [reflexivity |].
    destruct (400 <=? status response)%Z; [reflexivity |]. simpl.
    unfold lift. destruct (text response) as [rawData | e]; [| reflexivity].
    destruct (Parser.parse _ _ _ rawData); reflexivity.
  - intros Hpo response s' Hget H429. rewrite Hpo. unfold bind. rewrite Hget.
    unfold raiseHttpErrors. apply Z.eqb_eq in H429. rewrite H429. reflexivity.
  - intros fetched s'. destruct (includes (_url t) "&exp=xpe"); [discriminate |].
    unfold bind. destruct (get (_url t) s) as [[response | e] s1]; [| discriminate].
    unfold raiseHttpErrors.
    destruct (status response =? 429)%Z; [discriminate |].
    destruct (400 <=? status response)%Z eqn:H400; [discriminate |]. simpl.
    unfold lift. destruct (text response) as [rawData | e] eqn:Htext; [| discriminate].
    destruct (Parser.parse _ _ _ rawData) as [snippets | e] eqn:Hparse; [| discriminate].
    intros [= <- <-]. simpl. repeat split.
    exists response, rawData. apply Z.leb_gt in H400. repeat split; assumption.
Qed.

Lemma track_fetch_makes_at_most_one_request_witness :
  TrackFetch.fetch (httpClient := Samples.scripted 0 None)
    (fun _ => Ok Samples.tree_of_three_entries) (fun text => text)
    Scenarios.track_needing_po_token false 0%nat
  = (Throw (PoTokenRequired "vid"), 0%nat).
Proof.
  apply (proj1 (track_fetch_makes_at_most_one_request nat (Samples.scripted 0 None)
                  (fun _ => Ok Samples.tree_of_three_entries) (fun text => text)
                  Scenarios.track_needing_po_token false 0%nat)).
  reflexivity.
Defined.

End TrackRequests.

(** ** Playability *)

Section PlayabilityOutcomes.

Import JsString Errors Playability.
Local Open Scope string_scope.

(** The outcome of [assertPlayability], case by case in the order of the
    code. *)
Lemma assertPlayability_cases (p : option PlayabilityStatus) (videoId : string) :
  assertPlayability p videoId
  = match bind_option p status with
    | None => Ok tt
    | Some st =>
        if String.eqb st OK then Ok tt
        else if String.eqb st LOGIN_REQUIRED && equals (bind_option p reason) BOT_DETECTED
        then Throw (RequestBlocked videoId None)
        else if String.eqb st LOGIN_REQUIRED && equals (bind_option p reason) AGE_RESTRICTED
        then Throw (AgeRestricted videoId)
        else if String.eqb st ERROR && equals (bind_option p reason) VIDEO_UNAVAILABLE
        then if looks_like_url videoId then Throw (InvalidVideoId videoId)
             else Throw (VideoUnavailable videoId)
        else Throw (Foreign "TypeError"
                            "Cannot read properties of undefined (reading 'length')")
    end.
Proof.
  unfold assertPlayability, looks_like_url.
  destruct (bind_option p status) as [st |]; [| reflexivity].
  destruct (String.eqb st OK); [reflexivity |].
  destruct (String.eqb st LOGIN_REQUIRED); simpl.
  - destruct (equals (bind_option p reason) BOT_DETECTED); [reflexivity |].
    destruct (equals (bind_option p reason) AGE_RESTRICTED); [reflexivity |].
    destruct (String.eqb st ERROR && equals (bind_option p reason) VIDEO_UNAVAILABLE);
      reflexivity.
  - destruct (String.eqb st ERROR && equals (bind_option p reason) VIDEO_UNAVAILABLE);
      reflexivity.
Qed.

(** The conditions of the code, read as statements about the payload. *)
Lemma status_and_reason_test (p : option PlayabilityStatus) (st expected r : string) :
  bind_option p status = Some st ->
  (String.eqb st expected && equals (bind_option p reason) r = true
   <-> bind_option p status = Some expected /\ bind_option p reason = Some r).
Proof.
  intros Hst. rewrite andb_true_iff, String.eqb_eq, equals_true, Hst.
  split; [intros [-> Hr]; split; [reflexivity | exact Hr]
         | intros [[= ->] Hr]; split; [reflexivity | exact Hr]].
Qed.

(** Settles a conjunct of the sorting below once the outcome is known. *)
Ltac outcome :=
  repeat match goal with
         | |- _ /\ _ => split
         | |- _ <-> _ => split
         | |- forall _, _ => intro
         | H : Throw _ = Throw _ |- _ => injection H as H; try subst
         | H : Ok _ = Throw _ |- _ => discriminate H
         | H : Throw _ = Ok _ |- _ => discriminate H
         end;
  simpl in *;
  try solve [intuition (try discriminate; try congruence)].

(** X9. [assertPlayability] returns exactly when the status is missing
    or is OK. With any other status it throws, and what it throws is
    settled by the status and the reason: [RequestBlocked] exactly for
    LOGIN_REQUIRED with the bot-detection reason, [AgeRestricted]
    exactly for LOGIN_REQUIRED with the age-restriction reason;
    [InvalidVideoId] exactly for ERROR with the reason that the video is
    unavailable and a video id that starts with [http://] or [https://],
    and [VideoUnavailable] for that status and reason with any other
    video id. In every case that is left the call reaches
    [new VideoUnplayable], whose constructor fails, and throws its
    [TypeError]: a [VideoUnplayable] is never thrown. So a failure is
    either about the given video or that [TypeError], and the only one
    the retry loop takes for a blocked request is the one for bot
    detection. *)
Theorem assertPlayability_sorts_the_outcomes :
  forall (p : option PlayabilityStatus) (videoId : string),
    let unavailable :=
      bind_option p status = Some ERROR /\ bind_option p reason = Some VIDEO_UNAVAILABLE in
    let login := fun r : string =>
      bind_option p status = Some LOGIN_REQUIRED /\ bind_option p reason = Some r in
    let constructor_failure :=
      Foreign "TypeError" "Cannot read properties of undefined (reading 'length')" in
    (assertPlayability p videoId = Ok tt
     <-> bind_option p status = None \/ bind_option p status = Some OK)
    /\ (forall e,
          assertPlayability p videoId = Throw e ->
          (videoId_of e = Some videoId \/ e = constructor_failure)
          /\ (instanceof_RequestBlocked e = true <-> login BOT_DETECTED))
    /\ (assertPlayability p videoId = Throw (RequestBlocked videoId None)
        <-> login BOT_DETECTED)
    /\ (assertPlayability p videoId = Throw (AgeRestricted videoId)
        <-> login AGE_RESTRICTED)
    /\ (assertPlayability p videoId = Throw (InvalidVideoId videoId)
        <-> unavailable /\ looks_like_url videoId = true)
    /\ (assertPlayability p videoId = Throw (VideoUnavailable videoId)
        <-> unavailable /\ looks_like_url videoId = false)
    /\ (assertPlayability p videoId = Throw constructor_failure
        <-> (exists st, bind_option p status = Some st /\ st <> OK)
            /\ ~ login BOT_DETECTED /\ ~ login AGE_RESTRICTED /\ ~ unavailable)
    /\ (forall v r subs,
          assertPlayability p videoId <> Throw (VideoUnplayable v r subs)).
Proof.
  intros p videoId unavailable login constructor_failure.
  unfold unavailable, login, constructor_failure.
  rewrite assertPlayability_cases.
  assert (Hreasons : BOT_DETECTED <> AGE_RESTRICTED) by discriminate.
  assert (Hstatuses : LOGIN_REQUIRED <> ERROR) by discriminate.
  destruct (bind_option p status) as [st |] eqn:Hst.
  2:{ outcome. all: try (destruct H as [(st & H & _) _]; discriminate H). }
  destruct (String.eqb st OK) eqn:Hok.
  { apply String.eqb_eq in Hok. subst st. outcome.
    all: try (destruct H as [(st & [= <-] & H) _]; contradiction). }
  apply String.eqb_neq in Hok.
  pose proof (status_and_reason_test p st LOGIN_REQUIRED BOT_DETECTED Hst) as Hbot.
  pose proof (status_and_reason_test p st LOGIN_REQUIRED AGE_RESTRICTED Hst) as Hage.
  pose proof (status_and_reason_test p st ERROR VIDEO_UNAVAILABLE Hst) as Hgone.
  rewrite Hst in Hbot, Hage, Hgone.
  assert (Hexists : exists st', Some st = Some st' /\ st' <> OK)
    by (exists st; split; [reflexivity | exact Hok]).
  destruct (String.eqb st LOGIN_REQUIRED && equals (bind_option p reason) BOT_DETECTED).
  { destruct (proj1 Hbot eq_refl) as [Hb1 Hb2]. outcome. }
  destruct (String.eqb st LOGIN_REQUIRED && equals (bind_option p reason) AGE_RESTRICTED).
  { destruct (proj1 Hage eq_refl) as [Hb1 Hb2]. outcome. }
  destruct (String.eqb st ERROR && equals (bind_option p reason) VIDEO_UNAVAILABLE).
  { destruct (proj1 Hgone eq_refl) as [Hb1 Hb2].
    destruct (looks_like_url videoId); outcome. }
  outcome.
Qed.

End PlayabilityOutcomes.

(** ** The watch page and the player request *)

Section WatchPage.

Import JsString Errors Catalog Playability Fetcher.
Local Open Scope string_scope.
Local Open Scope Z_scope.

Context {St : Type} {httpClient : HttpClient St}.

Variable htmlDecode : string -> string.

(** One request for the watch page, and what becomes of its answer. *)
Lemma fetchHtml_run (videoId : string) (s : St) :
  fetchHtml htmlDecode videoId s
  = match get (Settings.formatWatchUrl videoId) s with
    | (Throw e, s1) => (Throw e, s1)
    | (Ok response, s1) =>
        if status response =? 429 then (Throw (IpBlocked videoId None), s1)
        else if 400 <=? status response then
          (Throw (YouTubeRequestFailed videoId
                    ("HTTP " ++ JsNumber.toString (JsNumber.of_Z (status response)) ++ ": "
                     ++ statusText response)), s1)
        else
          match text response with
          | Ok page => (Ok (htmlDecode page), s1)
          | Throw e => (Throw e, s1)
          end
    end.
Proof.
  unfold fetchHtml, bind.
  destruct (get (Settings.formatWatchUrl videoId) s) as [[response | e] s1]; [| reflexivity].
  unfold raiseHttpErrors.
  destruct (status response =? 429); [reflexivity |].
  destruct (400 <=? status response); [reflexivity |]. simpl.
  unfold lift. destruct (text response); reflexivity.
Qed.

Lemma fetchHtml_state (videoId : string) (s : St) :
  snd (fetchHtml htmlDecode videoId s) = snd (get (Settings.formatWatchUrl videoId) s).
Proof.
  rewrite fetchHtml_run.
  destruct (get (Settings.formatWatchUrl videoId) s) as [[response | e] s1]; [| reflexivity].
  destruct (status response =? 429); [reflexivity |].
  destruct (400 <=? status response); [reflexivity |].
  destruct (text response); reflexivity.
Qed.

Lemma fetchVideoHtml_run (videoId : string) (s : St) :
  fetchVideoHtml htmlDecode videoId s
  = match fetchHtml htmlDecode videoId s with
    | (Throw e, s1) => (Throw e, s1)
    | (Ok html, s1) =>
        if includes html CONSENT_MARKER then
          match search consent_value_at html with
          | None => (Throw (FailedToCreateConsentCookie videoId), s1)
          | Some v =>
              match fetchHtml htmlDecode videoId
                      (setCookie "CONSENT" ("YES+" ++ v) ".youtube.com" s1) with
              | (Throw e, s2) => (Throw e, s2)
              | (Ok html', s2) =>
                  if includes html' CONSENT_MARKER
                  then (Throw (FailedToCreateConsentCookie videoId), s2)
                  else (Ok html', s2)
              end
          end
        else (Ok html, s1)
    end.
Proof.
  unfold fetchVideoHtml, bind.
  destruct (fetchHtml htmlDecode videoId s) as [[html | e] s1]; [| reflexivity].
  destruct (includes html CONSENT_MARKER); [| reflexivity].
  unfold createConsentCookie.
  destruct (search consent_value_at html) as [v |]; [| reflexivity].
  destruct (fetchHtml htmlDecode videoId _) as [[html' | e] s2]; [| reflexivity].
  destruct (includes html' CONSENT_MARKER); reflexivity.
Qed.

(** X10. [fetchVideoHtml] never returns a page that holds the consent
    form. It asks for the watch page once; only when that page holds the
    consent form and a token is found in it does it set the cookie
    CONSENT to YES+ and the token, for .youtube.com, and ask once more.
    There is no third request, and without a token no second one. *)
Theorem fetchVideoHtml_never_returns_a_consent_page :
  forall (videoId : string) (s : St),
    let url := Settings.formatWatchUrl videoId in
    let run := fetchVideoHtml htmlDecode videoId s in
    (forall html s', run = (Ok html, s') -> includes html CONSENT_MARKER = false)
    /\ (snd run = snd (get url s)
        \/ exists html v,
             fetchHtml htmlDecode videoId s = (Ok html, snd (get url s))
             /\ includes html CONSENT_MARKER = true
             /\ search consent_value_at html = Some v
             /\ snd run
                = snd (get url (setCookie "CONSENT" ("YES+" ++ v) ".youtube.com"
                                          (snd (get url s)))))
    /\ (forall html s1,
          fetchHtml htmlDecode videoId s = (Ok html, s1) ->
          includes html CONSENT_MARKER = true ->
          search consent_value_at html = None ->
          run = (Throw (FailedToCreateConsentCookie videoId), s1)).
Proof.
  intros videoId s url run. unfold run. rewrite fetchVideoHtml_run.
  pose proof (fetchHtml_state videoId s) as Hstate. fold url in Hstate.
  destruct (fetchHtml htmlDecode videoId s) as [[html | e] s1] eqn:Hfirst; simpl in Hstate.
  - destruct (includes html CONSENT_MARKER) eqn:Hconsent.
    + destruct (search consent_value_at html) as [v |] eqn:Htoken.
      * set (s1c := setCookie "CONSENT" ("YES+" ++ v) ".youtube.com" s1).
        pose proof (fetchHtml_state videoId s1c) as Hsecond. fold url in Hsecond.
        assert (Hconsented :
                  forall r : Result string,
                    exists html0 v0,
                      (Ok html, s1) = (Ok html0, snd (get url s))
                      /\ includes html0 CONSENT_MARKER = true
                      /\ search consent_value_at html0 = Some v0
                      /\ snd (r, snd (fetchHtml htmlDecode videoId s1c))
                         = snd (get url (setCookie "CONSENT" ("YES+" ++ v0) ".youtube.com"
                                                   (snd (get url s))))).
        { intros r. exists html, v. rewrite <- Hstate. repeat split; assumption. }
        destruct (fetchHtml htmlDecode videoId s1c) as [[html' | e] s2] eqn:Hrun2;
          simpl in Hsecond.
        -- destruct (includes html' CONSENT_MARKER) eqn:Hconsent'.
           ++ split; [intros ? ? [=] |]. split; [| intros ? ? [= <- <-] _ Hnone; congruence].
              right. apply Hconsented.
           ++ split; [intros ? ? [= <- <-]; exact Hconsent' |].
              split; [| intros ? ? [= <- <-] _ Hnone; congruence].
              right. apply Hconsented.
        -- split; [intros ? ? [=] |]. split; [| intros ? ? [= <- <-] _ Hnone; congruence].
           right. apply Hconsented.
      * split; [intros ? ? [=] |]. split; [left; exact Hstate |].
        intros ? ? [= <- <-] _ _. reflexivity.
    + split; [intros ? ? [= <- <-]; exact Hconsent |]. split; [left; exact Hstate |].
      intros ? ? [= <- <-] H. congruence.
  - split; [intros ? ? [=] |]. split; [left; exact Hstate | intros ? ? [=]].
Qed.

(** X11. A watch-page request answered with a status of 400 or more
    other than 429 ends [fetchCaptionsJson] with [YouTubeRequestFailed],
    whose reason gives the status and its text, after that one request,
    whatever the retry count and the attempt number; so does, with the
    exception itself, a request the transport rejects with an exception
    that is not a [RequestBlocked]. *)
Theorem failed_request_is_not_retried :
  forall (videoId : string) (tryNumber : Z) (s s1 : St),
    (forall response,
       get (Settings.formatWatchUrl videoId) s = (Ok response, s1) ->
       400 <= status response -> status response <> 429 ->
       fetchCaptionsJson htmlDecode videoId tryNumber s
       = (Throw (YouTubeRequestFailed videoId
                   ("HTTP " ++ JsNumber.toString (JsNumber.of_Z (status response)) ++ ": "
                    ++ statusText response)), s1))
    /\ (forall e,
          get (Settings.formatWatchUrl videoId) s = (Throw e, s1) ->
          instanceof_RequestBlocked e = false ->
          fetchCaptionsJson htmlDecode videoId tryNumber s = (Throw e, s1)).
Proof.
  intros videoId tryNumber s s1. split.
  - intros response Hget H400 H429.
    rewrite fetchCaptionsJson_turn. unfold attempt, bind.
    rewrite fetchVideoHtml_run, fetchHtml_run, Hget.
    apply Z.eqb_neq in H429. apply Z.leb_le in H400. rewrite H429, H400. reflexivity.
  - intros e Hget Hblocked.
    rewrite fetchCaptionsJson_turn. unfold attempt, bind.
    rewrite fetchVideoHtml_run, fetchHtml_run, Hget, Hblocked. reflexivity.
Qed.

End WatchPage.

Lemma fetchVideoHtml_never_returns_a_consent_page_witness :
  JsString.includes Samples.watch_page Fetcher.CONSENT_MARKER = false.
Proof.
  apply (proj1 (fetchVideoHtml_never_returns_a_consent_page
                  (httpClient := Samples.scripted 0 None) (fun html => html) "vid" 0%nat)
           Samples.watch_page 1%nat).
  reflexivity.
Defined.

Lemma failed_request_is_not_retried_witness :
  Fetcher.fetchCaptionsJson (httpClient := Scenarios.missing) (fun html => html) "vid" 0 0%nat
  = (Errors.Throw (Errors.YouTubeRequestFailed "vid" "HTTP 404: Not Found"), 1%nat).
Proof.
  apply (proj1 (failed_request_is_not_retried (httpClient := Scenarios.missing)
                  (fun html => html) "vid" 0 0%nat 1%nat) Scenarios.not_found_response).
  - reflexivity.
  - vm_compute. discriminate.
  - discriminate.
Defined.

(** ** The API key and the captions of the player response *)

Section PageAndResponse.

Import JsString Errors Catalog Playability Fetcher.
Local Open Scope string_scope.

Lemma span_step (p : ascii -> bool) (c : ascii) (s : string) :
  JsNumber.span p (String c s)
  = if p c then let '(a, b) := JsNumber.span p s in (String c a, b) else ("", String c s).
Proof. reflexivity. Qed.

(** [span] cuts off the longest prefix in the class. *)
Lemma span_spec (p : ascii -> bool) (s a b : string) :
  JsNumber.span p s = (a, b) ->
  s = a ++ b /\ every p a = true
  /\ match b with String c _ => p c = false | EmptyString => True end.
Proof.
  revert a b. induction s as [| c s IH]; intros a b.
  - intros [= <- <-]. repeat split.
  - rewrite span_step. destruct (p c) eqn:Hc.
    + destruct (JsNumber.span p s) as [a' b'].
      intros [= <- <-]. destruct (IH a' b' eq_refl) as (Hs & Ha & Hb).
      simpl. rewrite Hc, Ha, <- Hs. repeat split. exact Hb.
    + intros [= <- <-]. repeat split. exact Hc.
Qed.

Lemma span_append (p : ascii -> bool) (a b : string) :
  every p a = true ->
  match b with String c _ => p c = false | EmptyString => True end ->
  JsNumber.span p (a ++ b) = (a, b).
Proof.
  intros Ha Hb. induction a as [| c a IH].
  - destruct b as [| c b]; [reflexivity |]. simpl "++". rewrite span_step, Hb. reflexivity.
  - simpl in Ha. apply andb_true_iff in Ha. destruct Ha as [Hc Ha].
    change (String c a ++ b) with (String c (a ++ b)).
    rewrite span_step, Hc, (IH Ha). reflexivity.
Qed.

Lemma search_step (at_head : string -> option string) (s : string) :
  search at_head s
  = match at_head s with
    | Some captured => Some captured
    | None => match s with EmptyString => None | String _ s' => search at_head s' end
    end.
Proof. destruct s; reflexivity. Qed.

(** What [search] finds is what the pattern captures at some position. *)
Lemma search_some (at_head : string -> option string) (s captured : string) :
  search at_head s = Some captured ->
  exists before rest, s = before ++ rest /\ at_head rest = Some captured.
Proof.
  induction s as [| c s IH]; rewrite search_step.
  - destruct (at_head "") eqn:H; [| discriminate].
    intros [= ->]. exists "", "". split; [reflexivity | exact H].
  - destruct (at_head (String c s)) eqn:H.
    + intros [= ->]. exists "", (String c s). split; [reflexivity | exact H].
    + intros Hs. destruct (IH Hs) as (before & rest & -> & Hrest).
      exists (String c before), rest. split; [reflexivity | exact Hrest].
Qed.

(** Where the pattern matches at some position, [search] finds a match. *)
Lemma search_finds (at_head : string -> option string) (before rest captured : string) :
  at_head rest = Some captured ->
  exists found, search at_head (before ++ rest) = Some found.
Proof.
  intros H. induction before as [| c before IH]; rewrite search_step.
  - simpl "++". rewrite H. eexists. reflexivity.
  - destruct (at_head (String c before ++ rest)); [eexists; reflexivity | exact IH].
Qed.

Lemma api_key_at_run (s : string) :
  api_key_at s
  = if startsWith s API_KEY_LABEL then
      let '(_, r1) := JsNumber.span is_space (drop (String.length API_KEY_LABEL) s) in
      match r1 with
      | String q r2 =>
          if Ascii.eqb q "034"%char then
            match JsNumber.span is_key_char r2 with
            | (String k key, String q' _) =>
                if Ascii.eqb q' "034"%char then Some (String k key) else None
            | _ => None
            end
          else None
      | EmptyString => None
      end
    else None.
Proof. reflexivity. Qed.

(** The pattern of the API key, matched at the head of a string. *)
Lemma api_key_at_some (s key : string) :
  api_key_at s = Some key ->
  key <> "" /\ every is_key_char key = true
  /\ exists ws after,
       every is_space ws = true
       /\ s = API_KEY_LABEL ++ ws ++ dq ++ key ++ dq ++ after.
Proof.
  rewrite api_key_at_run.
  destruct (startsWith s API_KEY_LABEL) eqn:Hlabel; [| discriminate].
  apply startsWith_split in Hlabel.
  destruct (JsNumber.span is_space (drop (String.length API_KEY_LABEL) s)) as [ws r1] eqn:Hws.
  apply span_spec in Hws. destruct Hws as (Hdrop & Hspaces & _).
  destruct r1 as [| q r2]; [discriminate |].
  destruct (Ascii.eqb q "034"%char) eqn:Hq; [| discriminate].
  apply Ascii.eqb_eq in Hq. subst q.
  destruct (JsNumber.span is_key_char r2) as [k r3] eqn:Hkey.
  apply span_spec in Hkey. destruct Hkey as (Hr2 & Hchars & _).
  destruct k as [| k0 k]; [discriminate |].
  destruct r3 as [| q' after]; [discriminate |].
  destruct (Ascii.eqb q' "034"%char) eqn:Hq'; [| discriminate].
  apply Ascii.eqb_eq in Hq'. subst q'.
  intros [= <-]. split; [discriminate |]. split; [exact Hchars |].
  exists ws, after. split; [exact Hspaces |].
  rewrite Hlabel at 1. rewrite Hdrop, Hr2. reflexivity.
Qed.

Lemma api_key_at_complete (ws key after : string) :
  key <> "" -> every is_key_char key = true -> every is_space ws = true ->
  api_key_at (API_KEY_LABEL ++ ws ++ dq ++ key ++ dq ++ after) = Some key.
Proof.
  intros Hkey Hchars Hspaces. rewrite api_key_at_run.
  rewrite startsWith_append.
  replace (drop (String.length API_KEY_LABEL)
             (API_KEY_LABEL ++ ws ++ dq ++ key ++ dq ++ after))
    with (ws ++ dq ++ key ++ dq ++ after) by reflexivity.
  rewrite (span_append is_space ws (dq ++ key ++ dq ++ after) Hspaces) by reflexivity.
  change (dq ++ key ++ dq ++ after) with (String "034"%char (key ++ dq ++ after)).
  cbv iota beta. rewrite Ascii.eqb_refl.
  rewrite (span_append is_key_char key (dq ++ after) Hchars) by reflexivity.
  destruct key as [| k key]; [congruence |]. reflexivity.
Qed.

(** X12. The key [extractInnertubeApiKey] returns is not empty, is made
    of letters, digits, underscores and hyphens, and stands in the page
    between quotes after the quoted label INNERTUBE_API_KEY, a colon and
    white space. A page that holds such an entry anywhere always gives a
    key. When none is found the failure is [IpBlocked] for a page that
    holds the CAPTCHA marker and [YouTubeDataUnparsable] otherwise. *)
Theorem extractInnertubeApiKey_reads_a_quoted_key :
  forall (html videoId : string),
    (forall key,
       extractInnertubeApiKey html videoId = Ok key ->
       key <> "" /\ every is_key_char key = true
       /\ exists before ws after,
            every is_space ws = true
            /\ html = before ++ API_KEY_LABEL ++ ws ++ dq ++ key ++ dq ++ after)
    /\ (forall before ws key after,
          key <> "" -> every is_key_char key = true -> every is_space ws = true ->
          html = before ++ API_KEY_LABEL ++ ws ++ dq ++ key ++ dq ++ after ->
          exists found, extractInnertubeApiKey html videoId = Ok found)
    /\ (forall e,
          extractInnertubeApiKey html videoId = Throw e ->
          e = if includes html RECAPTCHA_MARKER then IpBlocked videoId None
              else YouTubeDataUnparsable videoId).
Proof.
  intros html videoId. unfold extractInnertubeApiKey. split; [| split].
  - intros key. destruct (search api_key_at html) as [found |] eqn:Hsearch.
    + intros [= ->]. apply search_some in Hsearch.
      destruct Hsearch as (before & rest & -> & Hrest).
      apply api_key_at_some in Hrest.
      destruct Hrest as (Hne & Hchars & ws & after & Hspaces & ->).
      split; [exact Hne |]. split; [exact Hchars |].
      exists before, ws, after. split; [exact Hspaces | reflexivity].
    + destruct (includes html RECAPTCHA_MARKER); discriminate.
  - intros before ws key after Hne Hchars Hspaces ->.
    destruct (search_finds api_key_at before _ key
                (api_key_at_complete ws key after Hne Hchars Hspaces)) as [found ->].
    exists found. reflexivity.
  - intros e. destruct (search api_key_at html); [discriminate |].
    destruct (includes html RECAPTCHA_MARKER); intros [= <-]; reflexivity.
Qed.

(** X13. [extractCaptionsJson] checks playability first: a playability
    failure is the failure thrown, whatever the captions are. With
    playability passed it throws [TranscriptsDisabled] exactly when the
    response has no caption track list (no captions, no track list
    renderer, or no [captionTracks] in it), and otherwise returns the
    track list and the translation languages as they are. A track list
    that is empty is returned like any other, and [build] makes of it a
    catalog without transcripts. *)
Theorem extractCaptionsJson_needs_a_track_list :
  forall (innertubeData : InnertubeResponse) (videoId : string),
    let renderer := bind_option (captions innertubeData) playerCaptionsTracklistRenderer in
    (forall e,
       assertPlayability (playabilityStatus innertubeData) videoId = Throw e ->
       extractCaptionsJson innertubeData videoId = Throw e)
    /\ (assertPlayability (playabilityStatus innertubeData) videoId = Ok tt ->
        (extractCaptionsJson innertubeData videoId = Throw (TranscriptsDisabled videoId)
         <-> bind_option renderer raw_captionTracks = None)
        /\ (forall tracks,
              bind_option renderer raw_captionTracks = Some tracks ->
              extractCaptionsJson innertubeData videoId
              = Ok {| captionTracks := tracks;
                      cj_translationLanguages :=
                        bind_option renderer raw_translationLanguages |})
        /\ (bind_option renderer raw_captionTracks = Some [] ->
            exists captionsJson,
              extractCaptionsJson innertubeData videoId = Ok captionsJson
              /\ forall l, build videoId captionsJson = Ok l -> Catalog.iterate l = [])).
Proof.
  intros innertubeData videoId renderer. unfold extractCaptionsJson. fold renderer. split.
  - intros e ->. reflexivity.
  - intros Hplay. rewrite Hplay.
    destruct renderer as [raw |]; simpl;
      [| split; [split; reflexivity | split; [intros ? [=] | intros [=]]]].
    destruct (raw_captionTracks raw) as [tracks |] eqn:Htracks.
    + split; [split; discriminate |]. split; [intros ? [= <-]; reflexivity |].
      intros [= ->]. eexists. split; [reflexivity |].
      intros l. unfold build. simpl.
      destruct (build_translationLanguages _); [| discriminate].
      intros [= <-]. reflexivity.
    + split; [split; reflexivity |]. split; [intros ? [=] | intros [=]].
Qed.

Lemma extractInnertubeApiKey_reads_a_quoted_key_witness :
  extractInnertubeApiKey Samples.watch_page "vid" = Ok "AIzaSy-test_key"
  /\ every is_key_char "AIzaSy-test_key" = true.
Proof.
  split; [reflexivity |].
  apply (proj1 (extractInnertubeApiKey_reads_a_quoted_key Samples.watch_page "vid")
           "AIzaSy-test_key" eq_refl).
Defined.

Lemma extractCaptionsJson_needs_a_track_list_witness :
  extractCaptionsJson
    {| playabilityStatus := Some Samples.bot_detected;
       captions := None |} "vid"
  = Throw (RequestBlocked "vid" None).
Proof.
  apply (proj1 (extractCaptionsJson_needs_a_track_list
                  {| playabilityStatus := Some Samples.bot_detected; captions := None |}
                  "vid")).
  reflexivity.
Defined.

End PageAndResponse.

(** ** Stripping markup *)

Section Stripping.

Import JsString Types Errors Parser.
Local Open Scope string_scope.

Lemma match_at_other_character (re : HtmlRegex) (c : ascii) (r : string) :
  Ascii.eqb c "<"%char = false -> match_at re (String c r) = None.
Proof. intros H. unfold match_at. rewrite H. reflexivity. Qed.

(** Text before the first opening bracket is passed over. *)
Lemma remove_matches_plain_prefix (re : HtmlRegex) (a rest : string) :
  has_char "<"%char a = false ->
  remove_matches re 0 (a ++ rest) = a ++ remove_matches re 0 rest.
Proof.
  induction a as [| c a IH]; intros H; [reflexivity |].
  simpl in H. apply orb_false_iff in H. destruct H as [Hc Ha].
  change (String c a ++ rest) with (String c (a ++ rest)).
  rewrite remove_matches_step, (match_at_other_character re c _ Hc), (IH Ha). reflexivity.
Qed.

Lemma remove_matches_nil (re : HtmlRegex) (skip : nat) : remove_matches re skip "" = "".
Proof. destruct skip; reflexivity. Qed.

(** The characters of a match are dropped. *)
Lemma remove_matches_skip (re : HtmlRegex) (x rest : string) :
  remove_matches re (String.length x) (x ++ rest) = remove_matches re 0 rest.
Proof.
  induction x as [| c x IH]; [reflexivity |].
  change (String c x ++ rest) with (String c (x ++ rest)).
  rewrite remove_matches_step. exact IH.
Qed.

Lemma to_closing_bracket_found (inner rest : string) :
  has_char ">"%char inner = false ->
  to_closing_bracket (inner ++ ">" ++ rest) = Some (S (String.length inner)).
Proof.
  induction inner as [| c inner IH]; intros H; [reflexivity |].
  simpl in H. apply orb_false_iff in H. destruct H as [Hc Hinner].
  change (to_closing_bracket (String c inner ++ ">" ++ rest))
    with (if Ascii.eqb c ">"%char then Some 1%nat
          else option_map S (to_closing_bracket (inner ++ ">" ++ rest))).
  rewrite Hc, (IH Hinner). reflexivity.
Qed.

Lemma to_closing_bracket_not_found (s : string) :
  has_char ">"%char s = false -> to_closing_bracket s = None.
Proof.
  induction s as [| c s IH]; intros H; [reflexivity |].
  simpl in H. apply orb_false_iff in H. destruct H as [Hc Hs].
  simpl. rewrite Hc, (IH Hs). reflexivity.
Qed.

(** Text without a tag is left as it is. *)
Lemma remove_matches_without_tag (s : string) :
  has_tag s = false -> remove_matches EveryTag 0 s = s.
Proof.
  induction s as [| c s IH]; intros H; [reflexivity |].
  simpl in H. apply orb_false_iff in H. destruct H as [Hc Hs].
  rewrite remove_matches_step, match_at_every_tag.
  destruct (Ascii.eqb c "<"%char).
  - simpl in Hc. rewrite (to_closing_bracket_not_found s Hc). simpl. rewrite (IH Hs). reflexivity.
  - rewrite (IH Hs). reflexivity.
Qed.

(** X16. Stripping without formatting preserved leaves no tag, leaves
    text without a tag as it is, and so changes nothing when it is done
    a second time. A tag is an opening bracket with a closing bracket
    somewhere after it. *)
Theorem stripping_every_tag_is_complete_and_idempotent :
  forall text : string,
    let strip := replace_all (getHtmlRegex false) in
    has_tag (strip text) = false
    /\ (has_tag text = false -> strip text = text)
    /\ strip (strip text) = strip text.
Proof.
  intros text strip. unfold strip. split; [apply every_tag_is_removed |]. split.
  - apply remove_matches_without_tag.
  - apply remove_matches_without_tag. apply every_tag_is_removed.
Qed.

(** X17. In both modes text without an opening bracket is left as it
    is, and text before the first opening bracket is kept. Without
    formatting preserved, a tag (an opening bracket, characters other
    than a closing bracket, a closing bracket) is removed whole and the
    stripping goes on after it. *)
Theorem stripping_keeps_the_text_around_tags :
  forall (preserveFormatting : bool) (text inner rest : string),
    has_char "<"%char text = false ->
    replace_all (getHtmlRegex preserveFormatting) text = text
    /\ replace_all (getHtmlRegex preserveFormatting) (text ++ rest)
       = text ++ replace_all (getHtmlRegex preserveFormatting) rest
    /\ (has_char ">"%char inner = false ->
        replace_all (getHtmlRegex false) (text ++ "<" ++ inner ++ ">" ++ rest)
        = text ++ replace_all (getHtmlRegex false) rest).
Proof.
  intros preserveFormatting text inner rest Hplain. unfold replace_all. split; [| split].
  - rewrite <- (append_nil_r text) at 1.
    rewrite (remove_matches_plain_prefix _ text "" Hplain).
    rewrite remove_matches_nil, append_nil_r. reflexivity.
  - apply remove_matches_plain_prefix. exact Hplain.
  - intros Hinner. simpl getHtmlRegex.
    rewrite (remove_matches_plain_prefix _ text _ Hplain). f_equal.
    change ("<" ++ inner ++ ">" ++ rest) with (String "<"%char (inner ++ ">" ++ rest)).
    rewrite remove_matches_step, match_at_every_tag.
    change (Ascii.eqb "<"%char "<"%char) with true. cbv iota.
    rewrite (to_closing_bracket_found inner rest Hinner). simpl option_map. cbv iota.
    simpl Nat.pred.
    change (inner ++ ">" ++ rest) with (inner ++ String ">"%char rest).
    replace (inner ++ String ">"%char rest) with ((inner ++ ">") ++ rest)
      by (rewrite append_assoc; reflexivity).
    replace (S (String.length inner)) with (String.length (inner ++ ">"))
      by (rewrite length_append; simpl; lia).
    apply remove_matches_skip.
Qed.

Lemma stripping_keeps_the_text_around_tags_witness :
  replace_all (getHtmlRegex true) "2 > 1" = "2 > 1"
  /\ replace_all (getHtmlRegex false) ("Hello " ++ "<" ++ "b class=x" ++ ">" ++ "big</b>")
     = "Hello " ++ replace_all (getHtmlRegex false) "big</b>".
Proof.
  split.
  - exact (proj1 (stripping_keeps_the_text_around_tags true "2 > 1" "" "" eq_refl)).
  - exact (proj2 (proj2 (stripping_keeps_the_text_around_tags false "Hello " "b class=x"
                           "big</b>" eq_refl)) eq_refl).
Defined.

End Stripping.

(** ** URLs and messages *)

Section UrlsAndMessages.

Import JsString Errors.
Local Open Scope string_scope.

(** A replacement text without a dollar sign stands for itself. *)
Lemma getSubstitution_plain (matched before after template : string) :
  has_char "$"%char template = false ->
  getSubstitution matched before after template = template.
Proof.
  induction template as [| c rest IH]; intros H; [reflexivity |].
  simpl in H. apply orb_false_iff in H. destruct H as [Hc Hrest].
  simpl. rewrite Hc, (IH Hrest). reflexivity.
Qed.

Lemma every_key_char_plain (key : string) :
  every Fetcher.is_key_char key = true -> has_char "$"%char key = false.
Proof.
  induction key as [| c key IH]; intros H; [reflexivity |].
  simpl in H. apply andb_true_iff in H. destruct H as [Hc Hkey].
  simpl. rewrite (IH Hkey), orb_false_r.
  destruct (Ascii.eqb c "$"%char) eqn:E; [| reflexivity].
  apply Ascii.eqb_eq in E. subst c. discriminate.
Qed.

(** X18. The watch URL of a video id without a dollar sign is the fixed
    prefix followed by the id, and the player URL of a key made of key
    characters, as [extractInnertubeApiKey] returns them, is the fixed
    prefix followed by the key. A dollar sign is read as in any
    replacement text of [String.prototype.replace]: the id made of a
    dollar sign and an ampersand gives back the placeholder. *)
Theorem urls_are_the_prefix_followed_by_the_argument :
  (forall videoId : string,
     has_char "$"%char videoId = false ->
     Settings.formatWatchUrl videoId = "https://www.youtube.com/watch?v=" ++ videoId)
  /\ (forall apiKey : string,
        every Fetcher.is_key_char apiKey = true ->
        Settings.formatInnertubeUrl apiKey
        = "https://www.youtube.com/youtubei/v1/player?key=" ++ apiKey)
  /\ Settings.formatWatchUrl "$&" = "https://www.youtube.com/watch?v={video_id}".
Proof.
  split; [| split; [| reflexivity]].
  - intros videoId H. unfold Settings.formatWatchUrl, replace. cbn.
    rewrite (getSubstitution_plain _ _ _ _ H), append_nil_r. reflexivity.
  - intros apiKey H. apply every_key_char_plain in H.
    unfold Settings.formatInnertubeUrl, replace. cbn.
    rewrite (getSubstitution_plain _ _ _ _ H), append_nil_r. reflexivity.
Qed.

Lemma message_head (e : Error) (v : string) :
  videoId_of e = Some v ->
  message e
  = (nl ++ "Could not retrieve a transcript for the video "
     ++ Settings.formatWatchUrl v ++ "!")
    ++ match causeMessage e with
       | EmptyString => ""
       | String c m =>
           nl ++ "This is most likely caused by:" ++ nl ++ nl ++ String c m
           ++ GITHUB_REFERRAL
       end.
Proof.
  intros Hv.
  destruct e; simpl in Hv; try discriminate Hv; injection Hv as <-; unfold message;
    (destruct (causeMessage _); [rewrite append_nil_r |]; reflexivity).
Qed.

(** X19. The message of every exception of the library starts with the
    line that says a transcript could not be retrieved, and names the
    watch URL of the video the exception is about. *)
Theorem message_names_the_watch_url :
  forall (e : Error) (v : string),
    videoId_of e = Some v ->
    startsWith (message e) (nl ++ "Could not retrieve a transcript for the video ") = true
    /\ includes (message e) (Settings.formatWatchUrl v) = true.
Proof.
  intros e v H. rewrite (message_head e v H).
  set (tail := match causeMessage e with EmptyString => "" | String _ _ => _ end). split.
  - rewrite !append_assoc.
    apply (startsWith_append (nl ++ "Could not retrieve a transcript for the video ")
             (Settings.formatWatchUrl v ++ "!" ++ tail)).
  - apply includes_append_l.
    apply (includes_append_r (nl ++ "Could not retrieve a transcript for the video ")
             (Settings.formatWatchUrl v ++ "!")).
    apply includes_startsWith. apply startsWith_append.
Qed.

Lemma message_names_the_watch_url_witness :
  includes (message (TranscriptsDisabled "dQw4w9WgXcQ"))
           (Settings.formatWatchUrl "dQw4w9WgXcQ") = true.
Proof.
  apply (message_names_the_watch_url (TranscriptsDisabled "dQw4w9WgXcQ") "dQw4w9WgXcQ").
  reflexivity.
Defined.

(** X20. The message of a blocked request tells the kind of proxy the
    request went through: it holds the text for generic proxies, or the
    one for rotating residential proxies, exactly for a proxy
    configuration of that kind, and the three messages (no proxy,
    generic, rotating residential) of one failure differ from each
    other. Only the kind of the configuration counts. *)
Theorem blocked_message_tells_the_kind_of_proxy :
  forall (e : Error) (proxy_a proxy_b : Proxies.ProxyConfig),
    instanceof_RequestBlocked e = true ->
    Proxies.type proxy_a = Proxies.generic ->
    Proxies.type proxy_b = Proxies.webshare ->
    let plain := message (withProxyConfig e None) in
    let with_generic := message (withProxyConfig e (Some proxy_a)) in
    let with_webshare := message (withProxyConfig e (Some proxy_b)) in
    plain <> with_generic /\ plain <> with_webshare /\ with_generic <> with_webshare
    /\ causeMessage (withProxyConfig e (Some proxy_a)) = WITH_GENERIC_PROXY_CAUSE_MESSAGE
    /\ causeMessage (withProxyConfig e (Some proxy_b)) = WITH_WEBSHARE_PROXY_CAUSE_MESSAGE
    /\ includes with_generic WITH_GENERIC_PROXY_CAUSE_MESSAGE = true
    /\ includes with_webshare WITH_WEBSHARE_PROXY_CAUSE_MESSAGE = true.
Proof.
  intros e proxy_a proxy_b Hblocked Ha Hb plain with_generic with_webshare.
  assert (Hcause_a : causeMessage (withProxyConfig e (Some proxy_a))
                     = WITH_GENERIC_PROXY_CAUSE_MESSAGE)
    by (destruct e; try discriminate Hblocked; simpl; unfold blocked_causeMessage; simpl;
        rewrite Ha; reflexivity).
  assert (Hcause_b : causeMessage (withProxyConfig e (Some proxy_b))
                     = WITH_WEBSHARE_PROXY_CAUSE_MESSAGE)
    by (destruct e; try discriminate Hblocked; simpl; unfold blocked_causeMessage; simpl;
        rewrite Hb; reflexivity).
  assert (Hcause : causeMessage (withProxyConfig e None) = RequestBlocked_CAUSE_MESSAGE
                   \/ causeMessage (withProxyConfig e None) = IpBlocked_CAUSE_MESSAGE)
    by (destruct e; try discriminate Hblocked; [left | right]; reflexivity).
  assert (Hvideo : exists v, forall pc, videoId_of (withProxyConfig e pc) = Some v)
    by (destruct e; try discriminate Hblocked; eexists; intros pc; reflexivity).
  destruct Hvideo as [v Hvideo].
  unfold plain, with_generic, with_webshare.
  rewrite !(message_head _ v (Hvideo _)), Hcause_a, Hcause_b.
  assert (Hdiffer : forall a b : string, String.eqb a b = false ->
                                         forall head, head ++ a <> head ++ b).
  { intros a b Hab head H. apply append_inv_head in H. apply String.eqb_neq in Hab.
    contradiction. }
  split; [| split; [| split; [| split; [| split; [| split]]]]].
  - destruct Hcause as [-> | ->]; apply Hdiffer; vm_compute; reflexivity.
  - destruct Hcause as [-> | ->]; apply Hdiffer; vm_compute; reflexivity.
  - apply Hdiffer. vm_compute. reflexivity.
  - reflexivity.
  - reflexivity.
  - apply includes_append_r.
    apply (includes_append_r (nl ++ "This is most likely caused by:" ++ nl ++ nl)
             (WITH_GENERIC_PROXY_CAUSE_MESSAGE ++ GITHUB_REFERRAL)).
    apply includes_startsWith. apply startsWith_append.
  - apply includes_append_r.
    apply (includes_append_r (nl ++ "This is most likely caused by:" ++ nl ++ nl)
             (WITH_WEBSHARE_PROXY_CAUSE_MESSAGE ++ GITHUB_REFERRAL)).
    apply includes_startsWith. apply startsWith_append.
Qed.

Lemma blocked_message_tells_the_kind_of_proxy_witness :
  includes (message (IpBlocked "vid" (Some Samples.webshare_2)))
           WITH_WEBSHARE_PROXY_CAUSE_MESSAGE = true.
Proof.
  destruct (blocked_message_tells_the_kind_of_proxy (IpBlocked "vid" None)
              {| Proxies.type := Proxies.generic;
                 Proxies.toProxyDict := {| Proxies.http := "http://proxy:8080";
                                           Proxies.https := "http://proxy:8080" |};
                 Proxies.preventKeepingConnectionsAlive := false;
                 Proxies.retriesWhenBlocked := 0 |}
              Samples.webshare_2 eq_refl eq_refl eq_refl)
    as (_ & _ & _ & _ & _ & _ & H).
  exact H.
Defined.

End UrlsAndMessages.

(** ** Proxy configurations *)

Section ProxyConfigurations.

Import JsString Errors Proxies.
Local Open Scope string_scope.

(** X21. A generic proxy configuration is refused exactly when neither
    URL is given, an empty URL counting as not given. Otherwise each of
    the two entries of its proxy dictionary is the URL given for it, or
    the other URL when its own is not given, and so is never empty; the
    configuration asks for no retry and leaves connections alive. *)
Theorem generic_proxy_needs_one_url_and_shares_it :
  forall (httpUrl httpsUrl : option string),
    let given (url : option string) := exists c u, url = Some (String c u) in
    (GenericProxyConfig httpUrl httpsUrl = None <-> ~ given httpUrl /\ ~ given httpsUrl)
    /\ forall proxyConfig,
         GenericProxyConfig httpUrl httpsUrl = Some proxyConfig ->
         type proxyConfig = generic
         /\ retriesWhenBlocked proxyConfig = 0
         /\ preventKeepingConnectionsAlive proxyConfig = false
         /\ http (toProxyDict proxyConfig) <> ""
         /\ https (toProxyDict proxyConfig) <> ""
         /\ (given httpUrl -> httpUrl = Some (http (toProxyDict proxyConfig)))
         /\ (~ given httpUrl -> httpsUrl = Some (http (toProxyDict proxyConfig)))
         /\ (given httpsUrl -> httpsUrl = Some (https (toProxyDict proxyConfig)))
         /\ (~ given httpsUrl -> httpUrl = Some (https (toProxyDict proxyConfig))).
Proof.
  intros httpUrl httpsUrl given. unfold GenericProxyConfig, or_else.
  assert (Hyes : forall c u, given (Some (String c u))) by (intros c u; exists c, u; reflexivity).
  assert (Hempty : ~ given (Some "")) by (intros (c & u & [=])).
  assert (Hnone : ~ given None) by (intros (c & u & [=])).
  destruct httpUrl as [[| c u] |], httpsUrl as [[| c' u'] |]; simpl;
    (split;
     [split; [try discriminate; intros _; split; assumption
             | try reflexivity; intros [H1 H2]; exfalso;
               first [apply H1; apply Hyes | apply H2; apply Hyes]]
     | try discriminate; intros proxyConfig [= <-]; simpl;
       repeat split; try discriminate; try reflexivity; intros H; try reflexivity;
       exfalso; first [apply H; apply Hyes | apply (Hempty H) | apply (Hnone H)]]).
Qed.

End ProxyConfigurations.

(** ** The HTTP client *)

Section ClientRequests.

Import JsString Errors Fetcher HttpClientImpl.
Local Open Scope string_scope.

Lemma join_last (sep : string) (parts : list string) (p : string) :
  join sep (parts ++ [p])
  = match parts with
    | [] => p
    | _ => join sep parts ++ sep ++ p
    end.
Proof.
  induction parts as [| a rest IH]; [reflexivity |].
  destruct rest as [| b rest'].
  - reflexivity.
  - change (join sep ((a :: b :: rest') ++ [p]))
      with (a ++ sep ++ join sep ((b :: rest') ++ [p])).
    rewrite IH.
    change (join sep (a :: b :: rest')) with (a ++ sep ++ join sep (b :: rest')).
    rewrite !append_assoc. reflexivity.
Qed.

Lemma set_new_key {V : Type} (m : JsMap.t V) (k : string) (v : V) :
  JsMap.get m k = None -> JsMap.set m k v = (m ++ [(k, v)])%list.
Proof.
  induction m as [| [k0 v0] rest IH]; simpl; [reflexivity |].
  destruct (String.eqb k0 k); [discriminate |].
  intros H. rewrite (IH H). reflexivity.
Qed.

Lemma set_not_empty {V : Type} (m : JsMap.t V) (k : string) (v : V) : JsMap.set m k v <> [].
Proof.
  destruct m as [| [k0 v0] rest]; simpl; [discriminate |].
  destruct (String.eqb k0 k); discriminate.
Qed.

(** A cookie header is never the empty string. *)
Lemma getCookieHeader_not_empty (cookies : Cookies) :
  getCookieHeader cookies <> Some "".
Proof.
  destruct cookies as [| [name [value domain]] rest]; [discriminate |].
  unfold getCookieHeader. intros [= H]. revert H.
  change (map (fun entry => fst entry ++ "=" ++ fst (snd entry)) ((name, (value, domain)) :: rest))
    with ((name ++ "=" ++ value)
          :: map (fun entry : string * (string * string) =>
                    fst entry ++ "=" ++ fst (snd entry)) rest).
  destruct (map _ rest) as [| p ps].
  - simpl. destruct name; discriminate.
  - change (join "; " ((name ++ "=" ++ value) :: p :: ps))
      with ((name ++ "=" ++ value) ++ "; " ++ join "; " (p :: ps)).
    destruct name; discriminate.
Qed.

Lemma getHeaders_Cookie (cfg : Config) (cookies : Cookies) (additional : option Headers) :
  cookies <> [] ->
  JsMap.get (getHeaders cfg cookies additional) "Cookie" = getCookieHeader cookies.
Proof.
  intros Hne. unfold getHeaders.
  pose proof (getCookieHeader_not_empty cookies) as Hheader.
  destruct (getCookieHeader cookies) as [[| c h] |] eqn:E.
  - congruence.
  - apply get_set_same.
  - destruct cookies; [congruence | discriminate E].
Qed.

Lemma getHeaders_other_field (cfg : Config) (cookies : Cookies)
    (additional : option Headers) (field : string) :
  field <> "Cookie" ->
  JsMap.get (getHeaders cfg cookies additional) field
  = JsMap.get (spread (defaultHeaders cfg) (Proxies.from_option additional [])) field.
Proof.
  intros Hfield. unfold getHeaders.
  destruct (getCookieHeader cookies) as [[| c h] |]; try reflexivity.
  apply get_set_other. congruence.
Qed.

(** X22. The cookie header is missing exactly when no cookie is stored.
    [setCookie] stores the value and the domain under the name and
    leaves the other cookies alone; a cookie with a new name is written
    last in the header, after a semicolon and a space when it is not the
    only one. Once a cookie is stored, the Cookie field of every request
    is the cookie header, whatever Cookie field the default or the
    additional headers hold, and no other header field depends on the
    cookies. *)
Theorem cookie_header_lists_the_stored_cookies :
  forall (cfg : Config) (cookies : Cookies) (additional : option Headers)
         (name value domain : string),
    let stored := setCookie name value domain cookies in
    (getCookieHeader cookies = None <-> cookies = [])
    /\ JsMap.get stored name = Some (value, domain)
    /\ (forall other, other <> name -> JsMap.get stored other = JsMap.get cookies other)
    /\ (JsMap.get cookies name = None ->
        getCookieHeader stored
        = Some (match getCookieHeader cookies with
                | Some header => header ++ "; " ++ name ++ "=" ++ value
                | None => name ++ "=" ++ value
                end))
    /\ JsMap.get (getHeaders cfg stored additional) "Cookie" = getCookieHeader stored
    /\ (forall field,
          field <> "Cookie" ->
          JsMap.get (getHeaders cfg cookies additional) field
          = JsMap.get (spread (defaultHeaders cfg) (Proxies.from_option additional [])) field).
Proof.
  intros cfg cookies additional name value domain stored. unfold stored, setCookie.
  split; [| split; [| split; [| split; [| split]]]].
  - destruct cookies; split; try reflexivity; discriminate.
  - apply get_set_same.
  - intros other Hother. apply get_set_other. congruence.
  - intros Hnew. rewrite (set_new_key cookies name (value, domain) Hnew).
    unfold getCookieHeader. rewrite map_app. cbn [map fst snd]. rewrite join_last.
    destruct cookies as [| entry rest]; reflexivity.
  - apply getHeaders_Cookie. apply set_not_empty.
  - apply getHeaders_other_field.
Qed.

Lemma cookie_header_lists_the_stored_cookies_witness :
  getCookieHeader (setCookie "PREF" "hl=en" ".youtube.com"
                     (setCookie "CONSENT" "YES+cb" ".youtube.com" []))
  = Some "CONSENT=YES+cb; PREF=hl=en".
Proof.
  rewrite (proj1 (proj2 (proj2 (proj2
             (cookie_header_lists_the_stored_cookies
                (new None None Scenarios.no_env)
                (setCookie "CONSENT" "YES+cb" ".youtube.com" []) None
                "PREF" "hl=en" ".youtube.com"))))).
  - reflexivity.
  - reflexivity.
Defined.

End ClientRequests.

Section ClientPipeline.

Import JsString Errors Fetcher HttpClientImpl.
Local Open Scope string_scope.
Local Open Scope Z_scope.

Context {W : Type} {network : Network W}.

Variable cfg : Config.
Variable htmlDecode : string -> string.

Lemma client_fetchHtml (videoId : string) (cookies : Cookies) (w : W) :
  fetchHtml (httpClient := client cfg) htmlDecode videoId (cookies, w)
  = match send (watch_request cfg videoId (getHeaders cfg cookies None)) w with
    | (Throw e, w1) => (Throw e, (cookies, w1))
    | (Ok response, w1) =>
        if status response =? 429 then (Throw (IpBlocked videoId None), (cookies, w1))
        else if 400 <=? status response then
          (Throw (YouTubeRequestFailed videoId
                    ("HTTP " ++ JsNumber.toString (JsNumber.of_Z (status response)) ++ ": "
                     ++ statusText response)), (cookies, w1))
        else
          match text response with
          | Ok page => (Ok (htmlDecode page), (cookies, w1))
          | Throw e => (Throw e, (cookies, w1))
          end
    end.
Proof.
  rewrite fetchHtml_run. unfold Fetcher.get, client, get, watch_request.
  destruct (send _ w) as [[response | e] w1]; reflexivity.
Qed.

(** X23. On a client without cookies whose first request for the watch
    page is answered with the consent form and a token, [fetchVideoHtml]
    stores the cookie CONSENT with the value YES+ and the token for
    .youtube.com and asks for the page once more; this second request
    has the header fields of the first and the field Cookie with
    CONSENT=YES+ and the token. When it is answered with a page without
    the consent form, that page, decoded, is the result. *)
Theorem consent_cookie_goes_with_the_second_request :
  forall (videoId : string) (w w1 : W) (response : HttpResponse) (page token : string),
    send (watch_request cfg videoId (defaultHeaders cfg)) w = (Ok response, w1) ->
    status response < 400 ->
    text response = Ok page ->
    includes (htmlDecode page) CONSENT_MARKER = true ->
    search consent_value_at (htmlDecode page) = Some token ->
    let second :=
      watch_request cfg videoId
        (JsMap.set (defaultHeaders cfg) "Cookie" ("CONSENT=YES+" ++ token)) in
    let run := fetchVideoHtml (httpClient := client cfg) htmlDecode videoId ([], w) in
    snd run = ([("CONSENT", ("YES+" ++ token, ".youtube.com"))], snd (send second w1))
    /\ JsMap.get (headers second) "Cookie" = Some ("CONSENT=YES+" ++ token)
    /\ (forall field, field <> "Cookie" ->
                      JsMap.get (headers second) field = JsMap.get (defaultHeaders cfg) field)
    /\ (forall response2 w2 page2,
          send second w1 = (Ok response2, w2) ->
          status response2 < 400 ->
          text response2 = Ok page2 ->
          includes (htmlDecode page2) CONSENT_MARKER = false ->
          run = (Ok (htmlDecode page2),
                 ([("CONSENT", ("YES+" ++ token, ".youtube.com"))], w2))).
Proof.
  intros videoId w w1 response page token Hsend Hstatus Htext Hconsent Htoken second run.
  assert (H429 : (status response =? 429) = false) by (apply Z.eqb_neq; lia).
  assert (H400 : (400 <=? status response) = false) by (apply Z.leb_gt; lia).
  assert (Hrun : run
                 = match send second w1 with
                   | (Throw e, w2) =>
                       (Throw e, ([("CONSENT", ("YES+" ++ token, ".youtube.com"))], w2))
                   | (Ok response2, w2) =>
                       let cookies := [("CONSENT", ("YES+" ++ token, ".youtube.com"))] in
                       if status response2 =? 429
                       then (Throw (IpBlocked videoId None), (cookies, w2))
                       else if 400 <=? status response2 then
                         (Throw (YouTubeRequestFailed videoId
                                   ("HTTP "
                                    ++ JsNumber.toString (JsNumber.of_Z (status response2))
                                    ++ ": " ++ statusText response2)), (cookies, w2))
                       else
                         match text response2 with
                         | Ok page2 =>
                             if includes (htmlDecode page2) CONSENT_MARKER
                             then (Throw (FailedToCreateConsentCookie videoId), (cookies, w2))
                             else (Ok (htmlDecode page2), (cookies, w2))
                         | Throw e => (Throw e, (cookies, w2))
                         end
                   end).
  { unfold run. rewrite fetchVideoHtml_run, client_fetchHtml.
    change (getHeaders cfg [] None) with (defaultHeaders cfg).
    rewrite Hsend, H429, H400, Htext, Hconsent, Htoken.
    change (Fetcher.setCookie "CONSENT" ("YES+" ++ token) ".youtube.com" ([], w1))
      with ([("CONSENT", ("YES+" ++ token, ".youtube.com"))] : Cookies, w1).
    rewrite client_fetchHtml.
    change (getHeaders cfg [("CONSENT", ("YES+" ++ token, ".youtube.com"))] None)
      with (JsMap.set (defaultHeaders cfg) "Cookie" ("CONSENT=YES+" ++ token)).
    fold second.
    destruct (send second w1) as [[response2 | e] w2]; [| reflexivity].
    cbv zeta.
    destruct (status response2 =? 429); [reflexivity |].
    destruct (400 <=? status response2); [reflexivity |].
    destruct (text response2) as [page2 | e]; [| reflexivity].
    destruct (includes (htmlDecode page2) CONSENT_MARKER); reflexivity. }
  split; [| split; [| split]].
  - rewrite Hrun. destruct (send second w1) as [[response2 | e] w2]; [| reflexivity].
    cbv zeta.
    destruct (status response2 =? 429); [reflexivity |].
    destruct (400 <=? status response2); [reflexivity |].
    destruct (text response2) as [page2 | e]; [| reflexivity].
    destruct (includes (htmlDecode page2) CONSENT_MARKER); reflexivity.
  - apply get_set_same.
  - intros field Hfield. apply get_set_other. congruence.
  - intros response2 w2 page2 Hsend2 Hstatus2 Htext2 Hconsent2.
    rewrite Hrun, Hsend2. cbv zeta.
    replace (status response2 =? 429) with false by (symmetry; apply Z.eqb_neq; lia).
    replace (400 <=? status response2) with false by (symmetry; apply Z.leb_gt; lia).
    rewrite Htext2, Hconsent2. reflexivity.
Qed.

End ClientPipeline.

Lemma consent_cookie_goes_with_the_second_request_witness :
  Fetcher.fetchVideoHtml
    (httpClient := HttpClientImpl.client (network := Scenarios.consenting)
                     (HttpClientImpl.new None None Scenarios.no_env))
    (fun html => html) "vid" ([], 0%nat)
  = (Errors.Ok Samples.watch_page,
     ([("CONSENT"%string, ("YES+cb.20210328"%string, ".youtube.com"%string))], 2%nat)).
Proof.
  destruct (consent_cookie_goes_with_the_second_request (network := Scenarios.consenting)
              (HttpClientImpl.new None None Scenarios.no_env) (fun html => html)
              "vid" 0%nat 1%nat Scenarios.consent_page_response Scenarios.consent_page
              "cb.20210328" eq_refl eq_refl eq_refl eq_refl eq_refl)
    as (_ & _ & _ & H).
  apply (H Samples.watch_page_response 2%nat Samples.watch_page); reflexivity.
Defined.

Section ClientConfiguration.

Import JsString Errors Fetcher HttpClientImpl.
Local Open Scope string_scope.
Local Open Scope Z_scope.



End ClientConfiguration.

(** ** The retry budget *)

Section RetryBudget.

Import JsString Errors Catalog Fetcher.
Local Open Scope string_scope.
Local Open Scope Z_scope.

Lemma withProxyConfig_other (e : Error) (proxyConfig : option Proxies.ProxyConfig) :
  instanceof_RequestBlocked e = false -> withProxyConfig e proxyConfig = e.
Proof. destruct e; try reflexivity; discriminate. Qed.

Lemma generic_proxy_never_retries (httpUrl httpsUrl : option string)
    (proxyConfig : Proxies.ProxyConfig) :
  Proxies.GenericProxyConfig httpUrl httpsUrl = Some proxyConfig ->
  Proxies.retriesWhenBlocked proxyConfig = 0.
Proof.
  unfold Proxies.GenericProxyConfig.
  destruct (Proxies.or_else httpUrl httpsUrl) as [[| c u] |]; try discriminate.
  destruct (Proxies.or_else httpsUrl httpUrl) as [[| c' u'] |]; try discriminate.
  intros [= <-]. reflexivity.
Qed.

(** X15. On a transport without a proxy configuration, or with a generic
    one, [fetchCaptionsJson] runs the pipeline once: the result is that
    of the one run, and a failure of that run is thrown at once, a
    blocked request with the proxy configuration of the transport
    attached and any other failure as it is. *)
Theorem pipeline_runs_once_without_a_rotating_proxy :
  forall (St : Type) (httpClient : HttpClient St) (htmlDecode : string -> string)
         (videoId : string) (tryNumber : Z) (s : St),
    (getProxyConfig = None
     \/ exists httpUrl httpsUrl,
          Proxies.GenericProxyConfig httpUrl httpsUrl = getProxyConfig) ->
    0 <= tryNumber ->
    fetchCaptionsJson htmlDecode videoId tryNumber s
    = match attempt htmlDecode videoId s with
      | (Ok captionsJson, s') => (Ok captionsJson, s')
      | (Throw error, s') =>
          (Throw (if instanceof_RequestBlocked error
                  then withProxyConfig error getProxyConfig
                  else error), s')
      end.
Proof.
  intros St httpClient htmlDecode videoId tryNumber s Hproxy Htry.
  assert (Hretries : retriesWhenBlocked = 0).
  { unfold retriesWhenBlocked.
    destruct Hproxy as [-> | (httpUrl & httpsUrl & Hgeneric)]; [reflexivity |].
    destruct getProxyConfig as [proxyConfig |]; [| reflexivity].
    apply (generic_proxy_never_retries _ _ _ Hgeneric). }
  rewrite fetchCaptionsJson_turn, Hretries.
  destruct (attempt htmlDecode videoId s) as [[captionsJson | error] s']; [reflexivity |].
  destruct (instanceof_RequestBlocked error); [| reflexivity].
  replace (tryNumber + 1 <? 0) with false by (symmetry; apply Z.ltb_ge; lia).
  reflexivity.
Qed.

Lemma pipeline_runs_once_without_a_rotating_proxy_witness :
  fetchCaptionsJson (httpClient := Samples.scripted 9 (Some Scenarios.generic_proxy))
    (fun html => html) "vid" 0 0%nat
  = (Throw (IpBlocked "vid" (Some Scenarios.generic_proxy)), 1%nat).
Proof.
  rewrite (pipeline_runs_once_without_a_rotating_proxy nat
             (Samples.scripted 9 (Some Scenarios.generic_proxy)) (fun html => html) "vid" 0 0%nat).
  - reflexivity.
  - right. exists (Some "http://proxy.example:8080"), None. reflexivity.
  - lia.
Defined.

End RetryBudget.

(** ** The facade *)

Section Facade.

Import JsString Types Errors Catalog Fetcher.
Local Open Scope string_scope.

Context {St : Type} {httpClient : HttpClient St}.

Variable XMLParser_parse : string -> Result JsValue.t.
Variable htmlDecode : string -> string.

Lemma api_fetch_run (videoId : string) (languages : list string) (s s1 : St)
    (l : TranscriptList) :
  Fetcher.fetch htmlDecode videoId s = (Ok l, s1) ->
  Api.fetch XMLParser_parse htmlDecode videoId (Some languages) None s
  = match lookup_codes languages [manuallyCreatedTranscripts l; generatedTranscripts l] with
    | Some t => TrackFetch.fetch XMLParser_parse htmlDecode t false s1
    | None =>
        (Throw (NoTranscriptFound (tl_videoId l) languages (TranscriptList_toString l)), s1)
    end.
Proof.
  intros Hlist. unfold Api.fetch, Api.list_, bind. simpl Proxies.from_option.
  rewrite Hlist. unfold lift, findTranscript, _findTranscript.
  destruct (lookup_codes languages _); reflexivity.
Qed.

(** X25. [getSubtitles] asks for the given language and then for
    English: on the catalog listed for the video it fetches the track of
    the given code when a tier has one, manual before generated, else
    the English track, and throws [NoTranscriptFound] for the two codes
    when there is neither; no formatting is preserved. Without a
    language it is [getSubtitles] for English. [getText] joins with line
    breaks the texts of what [getSubtitles] returns, and fails as it
    fails. *)
Theorem subtitles_fall_back_to_english :
  forall (videoId lang : string) (s s1 : St) (l : TranscriptList),
    Fetcher.fetch htmlDecode videoId s = (Ok l, s1) ->
    let track_of := lookup_tiers [manuallyCreatedTranscripts l; generatedTranscripts l] in
    let subtitles_of t :=
      let run := TrackFetch.fetch XMLParser_parse htmlDecode t false s1 in
      (match fst run with
       | Ok fetched => Ok (Fetched.toRawData fetched)
       | Throw e => Throw e
       end, snd run) in
    let subtitles := Api.getSubtitles XMLParser_parse htmlDecode videoId (Some lang) s in
    (forall t, track_of lang = Some t -> subtitles = subtitles_of t)
    /\ (forall t, track_of lang = None -> track_of "en" = Some t -> subtitles = subtitles_of t)
    /\ (track_of lang = None -> track_of "en" = None ->
        subtitles
        = (Throw (NoTranscriptFound (tl_videoId l) [lang; "en"] (TranscriptList_toString l)),
           s1))
    /\ Api.getSubtitles XMLParser_parse htmlDecode videoId None s
       = Api.getSubtitles XMLParser_parse htmlDecode videoId (Some "en") s
    /\ Api.getText XMLParser_parse htmlDecode videoId (Some lang) s
       = (match fst subtitles with
          | Ok raw => Ok (join nl (map (fun entry => fst (fst entry)) raw))
          | Throw e => Throw e
          end, snd subtitles).
Proof.
  intros videoId lang s s1 l Hlist track_of subtitles_of subtitles.
  assert (Hrun : subtitles
                 = match lookup_codes [lang; "en"]
                           [manuallyCreatedTranscripts l; generatedTranscripts l] with
                   | Some t => subtitles_of t
                   | None =>
                       (Throw (NoTranscriptFound (tl_videoId l) [lang; "en"]
                                 (TranscriptList_toString l)), s1)
                   end).
  { unfold subtitles, Api.getSubtitles, bind. simpl Proxies.from_option.
    rewrite (api_fetch_run videoId [lang; "en"] s s1 l Hlist).
    destruct (lookup_codes [lang; "en"] _) as [t |]; [| reflexivity].
    unfold subtitles_of.
    destruct (TrackFetch.fetch XMLParser_parse htmlDecode t false s1) as [[fetched | e] s2];
      reflexivity. }
  split; [| split; [| split; [| split]]].
  - intros t Ht. rewrite Hrun. unfold lookup_codes. fold track_of. rewrite Ht. reflexivity.
  - intros t Hnone Ht. rewrite Hrun. unfold lookup_codes. fold track_of.
    rewrite Hnone, Ht. reflexivity.
  - intros Hnone Hen. rewrite Hrun. unfold lookup_codes. fold track_of.
    rewrite Hnone, Hen. reflexivity.
  - reflexivity.
  - unfold subtitles, Api.getText, Api.getSubtitles, bind. simpl Proxies.from_option.
    destruct (Api.fetch XMLParser_parse htmlDecode videoId (Some [lang; "en"]) None s)
      as [[fetched | e] s2]; [| reflexivity].
    simpl. unfold Fetched.toRawData, Fetched.iterate. rewrite map_map. reflexivity.
Qed.

(** The codes of the tracks of a tier, in the order of the iteration. *)
Lemma filed_codes (videoId : string) (targets : list TranslationLanguage) (generated : bool)
    (m : JsMap.t Transcript) :
  filed videoId targets generated m -> map languageCode (JsMap.values m) = map fst m.
Proof.
  intros [_ Hall]. unfold JsMap.values. induction m as [| [k t] rest IH]; [reflexivity |].
  simpl. destruct (Hall k t (or_introl eq_refl)) as (-> & _). f_equal.
  apply IH. intros k' t' Hin. apply Hall. right. exact Hin.
Qed.

Lemma filed_origins (videoId : string) (targets : list TranslationLanguage) (generated : bool)
    (m : JsMap.t Transcript) (t : Transcript) :
  filed videoId targets generated m -> In t (JsMap.values m) -> isGenerated t = generated.
Proof.
  intros [_ Hall] Hin. unfold JsMap.values in Hin. apply in_map_iff in Hin.
  destruct Hin as ([k t'] & <- & Hin). apply (Hall k t' Hin).
Qed.

(** X26. [getInfo] fails as listing the transcripts fails. For a
    listing from which a catalog is built it returns the given video id
    and one entry for each track of the catalog, the manually created
    ones first, every entry with the code and origin of its track;
    [hasSubtitles] is true exactly when the listing has a caption
    track. *)
Theorem info_lists_the_tracks_of_the_catalog :
  forall (videoId : string) (s : St),
    (forall e s1,
       Fetcher.fetch htmlDecode videoId s = (Throw e, s1) ->
       Api.getInfo htmlDecode videoId s = (Throw e, s1))
    /\ (forall captionsJson l s1,
          fetchCaptionsJson htmlDecode videoId 0 s = (Ok captionsJson, s1) ->
          build videoId captionsJson = Ok l ->
          exists info,
            Api.getInfo htmlDecode videoId s = (Ok info, s1)
            /\ Api.videoId info = videoId
            /\ (Api.hasSubtitles info = true <-> captionTracks captionsJson <> [])
            /\ map Api.code (Api.languages info)
               = (map fst (manuallyCreatedTranscripts l)
                  ++ map fst (generatedTranscripts l))%list
            /\ map Api.isGenerated (Api.languages info)
               = (map (fun _ => false) (manuallyCreatedTranscripts l)
                  ++ map (fun _ => true) (generatedTranscripts l))%list).
Proof.
  intros videoId s. split.
  - intros e s1 Hlist. unfold Api.getInfo, Api.list_, bind. rewrite Hlist. reflexivity.
  - intros captionsJson l s1 Hcaptions Hbuild.
    assert (Hlist : Fetcher.fetch htmlDecode videoId s = (Ok l, s1)).
    { unfold Fetcher.fetch, bind. rewrite Hcaptions. unfold lift. rewrite Hbuild. reflexivity. }
    eexists. split; [unfold Api.getInfo, Api.list_, bind, ret; rewrite Hlist; reflexivity |].
    pose proof (build_filed _ _ _ false Hbuild) as Hmanual.
    pose proof (build_filed _ _ _ true Hbuild) as Hgenerated.
    unfold tier in Hmanual, Hgenerated.
    simpl Api.videoId. simpl Api.hasSubtitles. simpl Api.languages.
    split; [reflexivity |]. split; [| split].
    + rewrite length_map. unfold Catalog.iterate. split.
      * intros Hsome Hnone.
        destruct (build_Ok _ _ _ Hbuild) as (_ & _ & Htracks).
        rewrite Hnone in Htracks. injection Htracks as Hm Hg.
        rewrite <- Hm, <- Hg in Hsome. discriminate Hsome.
      * intros Hsome.
        destruct (captionTracks captionsJson) as [| track rest] eqn:Htracks; [congruence |].
        destruct (last_that_passes (fun _ => true) (track :: rest)) as
          (before & last & after & Hsplit & _ & Hafter);
          [exists track; split; [left; reflexivity | reflexivity] |].
        assert (Hnone : after = []).
        { destruct after as [| x after']; [reflexivity |].
          specialize (Hafter x (or_introl eq_refl)). discriminate. }
        subst after.
        assert (Hget : JsMap.get (tier (is_asr last) l) (ct_languageCode last) <> None).
        { rewrite (build_get_None _ _ _ (is_asr last) (ct_languageCode last) Hbuild).
          intros Hno. rewrite Htracks, Hsplit in Hno.
          specialize (Hno last (in_elt last before [])).
          assert (is_track (ct_languageCode last) (is_asr last) last = true)
            by (apply is_track_true; split; reflexivity).
          congruence. }
        destruct (JsMap.get (tier (is_asr last) l) (ct_languageCode last)) as [t |] eqn:Ht;
          [| congruence].
        apply get_In in Ht. apply (in_map snd) in Ht. simpl in Ht.
        apply Nat.ltb_lt. rewrite length_app. unfold JsMap.values, tier in *.
        destruct (is_asr last).
        -- destruct (map snd (generatedTranscripts l)); [contradiction | simpl; lia].
        -- destruct (map snd (manuallyCreatedTranscripts l)); [contradiction | simpl; lia].
    + rewrite map_map.
      change (map languageCode (Catalog.iterate l)
              = (map fst (manuallyCreatedTranscripts l)
                 ++ map fst (generatedTranscripts l))%list).
      unfold Catalog.iterate. rewrite map_app.
      rewrite (filed_codes _ _ _ _ Hmanual), (filed_codes _ _ _ _ Hgenerated). reflexivity.
    + rewrite map_map.
      change (map isGenerated (Catalog.iterate l)
              = (map (fun _ => false) (manuallyCreatedTranscripts l)
                 ++ map (fun _ => true) (generatedTranscripts l))%list).
      unfold Catalog.iterate. rewrite map_app. f_equal.
      * unfold JsMap.values. rewrite map_map. apply map_ext_in.
        intros [k t] Hin. apply (proj2 Hmanual k t Hin).
      * unfold JsMap.values. rewrite map_map. apply map_ext_in.
        intros [k t] Hin. apply (proj2 Hgenerated k t Hin).
Qed.

End Facade.

Lemma subtitles_fall_back_to_english_witness :
  Api.getSubtitles (httpClient := Samples.scripted 0 None)
    (fun _ => Errors.Ok Samples.tree_of_three_entries) (fun text => text)
    "vid" (Some "fr"%string) 0%nat
  = (Errors.Ok [("first"%string, 0%float, 1.5%float); ("third"%string, 3.5%float, 0%float)],
     3%nat).
Proof.
  destruct (subtitles_fall_back_to_english (httpClient := Samples.scripted 0 None)
              (fun _ => Errors.Ok Samples.tree_of_three_entries) (fun text => text)
              "vid" "fr" 0%nat 2%nat Samples.catalog eq_refl) as (_ & Hfallback & _).
  rewrite (Hfallback Samples.track_en_generated eq_refl eq_refl).
  vm_compute. reflexivity.
Defined.

Lemma info_lists_the_tracks_of_the_catalog_witness :
  exists info,
    Api.getInfo (httpClient := Samples.scripted 0 None) (fun html => html) "vid" 0%nat
    = (Errors.Ok info, 2%nat)
    /\ Api.hasSubtitles info = true
    /\ map Api.code (Api.languages info) = ["de"%string; "en"%string]
    /\ map Api.isGenerated (Api.languages info) = [false; true].
Proof.
  destruct (proj2 (info_lists_the_tracks_of_the_catalog
                     (httpClient := Samples.scripted 0 None) (fun html => html) "vid" 0%nat)
              Samples.captions_en_generated_de_manual Samples.catalog 2%nat)
    as (info & Hrun & _ & Hsubtitles & Hcodes & Horigins).
  - vm_compute. reflexivity.
  - reflexivity.
  - exists info. split; [exact Hrun |]. split; [| split; [exact Hcodes | exact Horigins]].
    apply Hsubtitles. discriminate.
Defined.

(** ** Timestamps of times on the millisecond grid *)

Section ExactTimestamps.

Import JsString Types Formatters.
Local Open Scope string_scope.
Local Open Scope Z_scope.

Lemma upto_spec (f : Z -> bool) (k : nat) :
  forall n, upto k n f = true -> forall i, n <= i < n + Z.of_nat k -> f i = true.
Proof.
  induction k as [| k IH]; intros n H i Hi; [lia |].
  simpl in H. apply andb_true_iff in H. destruct H as [Hn Hrest].
  destruct (Z.eq_dec i n) as [-> | Hne]; [exact Hn |].
  apply (IH (n + 1) Hrest). lia.
Qed.

(** Evaluated: the fields of every whole second below three hours, the
    fields of every time below five seconds written with three
    decimals, and the decimal form of every integer below 1000. *)
Lemma whole_seconds_checked : upto (Z.to_nat 10800) 0 whole_second_fields = true.
Proof. vm_cast_no_check (@eq_refl bool true). Qed.

Lemma milliseconds_checked : upto (Z.to_nat 5000) 0 millisecond_fields = true.
Proof. vm_cast_no_check (@eq_refl bool true). Qed.

Lemma integers_checked : upto (Z.to_nat 1000) 0 integer_is_written_in_digits = true.
Proof. vm_cast_no_check (@eq_refl bool true). Qed.

Lemma padded_integer (width : nat) (k : Z) :
  0 <= k < 1000 ->
  padded width (JsNumber.of_Z k) = padStart width "0" (JsNumber.digits_of k).
Proof.
  intros Hk. unfold padded.
  pose proof (upto_spec _ _ 0 integers_checked k) as H.
  unfold integer_is_written_in_digits in H.
  rewrite (proj1 (String.eqb_eq _ _) (H ltac:(lia))). reflexivity.
Qed.

(** The timestamp of a time whose four fields are known integers. *)
Lemma timestamp_of_fields {F : TextBasedFormatter} (time : float) (hours mins secs ms : Z) :
  timestamp_fields time hours mins secs ms = true ->
  secondsToTimestamp time
  = formatTimestamp (JsNumber.of_Z hours) (JsNumber.of_Z mins) (JsNumber.of_Z secs)
                    (JsNumber.of_Z ms).
Proof.
  unfold timestamp_fields, secondsToTimestamp. cbv zeta.
  rewrite !andb_true_iff. intros [[[Hh Hm] Hs] Hms].
  apply FloatAxioms.Leibniz.eqb_spec in Hh, Hm, Hs, Hms.
  rewrite Hh, Hm, Hs, Hms. reflexivity.
Qed.

Lemma srt_formatTimestamp (hours mins secs ms : float) :
  formatTimestamp (TextBasedFormatter := SRTFormatter) hours mins secs ms
  = padded 2 hours ++ ":" ++ padded 2 mins ++ ":" ++ padded 2 secs ++ "," ++ padded 3 ms.
Proof. reflexivity. Qed.

Lemma webvtt_formatTimestamp (hours mins secs ms : float) :
  formatTimestamp (TextBasedFormatter := WebVTTFormatter) hours mins secs ms
  = padded 2 hours ++ ":" ++ padded 2 mins ++ ":" ++ padded 2 secs ++ "." ++ padded 3 ms.
Proof. reflexivity. Qed.

(** X27. For every whole number of seconds below three hours, the
    timestamp is the hours, the minutes and the seconds of that number,
    each with two digits, and 000 for the milliseconds: after a comma
    for SRT, after a point for WebVTT. *)
Theorem whole_seconds_are_written_exactly :
  forall n : Z,
    0 <= n < 10800 ->
    secondsToTimestamp (F := SRTFormatter) (JsNumber.of_Z n)
    = two_digits (n / 3600) ++ ":" ++ two_digits (n mod 3600 / 60) ++ ":"
      ++ two_digits (n mod 60) ++ "," ++ "000"
    /\ secondsToTimestamp (F := WebVTTFormatter) (JsNumber.of_Z n)
       = two_digits (n / 3600) ++ ":" ++ two_digits (n mod 3600 / 60) ++ ":"
         ++ two_digits (n mod 60) ++ "." ++ "000".
Proof.
  intros n Hn.
  pose proof (upto_spec _ _ 0 whole_seconds_checked n ltac:(lia)) as Hfields.
  unfold whole_second_fields in Hfields.
  assert (Hh : 0 <= n / 3600 < 1000)
    by (split; [apply Z.div_pos; lia | apply Z.div_lt_upper_bound; lia]).
  assert (Hm : 0 <= n mod 3600 / 60 < 1000).
  { pose proof (Z.mod_pos_bound n 3600 ltac:(lia)).
    split; [apply Z.div_pos; lia | apply Z.div_lt_upper_bound; lia]. }
  assert (Hs : 0 <= n mod 60 < 1000) by (pose proof (Z.mod_pos_bound n 60 ltac:(lia)); lia).
  split; rewrite (timestamp_of_fields _ _ _ _ _ Hfields);
    rewrite ?srt_formatTimestamp, ?webvtt_formatTimestamp;
    rewrite (padded_integer 2 _ Hh), (padded_integer 2 _ Hm), (padded_integer 2 _ Hs);
    reflexivity.
Qed.

Lemma whole_seconds_are_written_exactly_witness :
  secondsToTimestamp (F := SRTFormatter) (JsNumber.of_Z 3725) = "01:02:05,000"
  /\ secondsToTimestamp (F := WebVTTFormatter) (JsNumber.of_Z 3725) = "01:02:05.000".
Proof.
  apply (whole_seconds_are_written_exactly 3725). lia.
Defined.

(** X28. A time below five seconds that is written with three decimals
    and read with [parseFloat], as the parser reads the start of a
    caption, gets the timestamp of its seconds and its milliseconds:
    00:00, the seconds with two digits and the three decimals, after a
    comma for SRT and a point for WebVTT. *)
Theorem written_milliseconds_are_read_and_written_back :
  forall ms : Z,
    0 <= ms < 5000 ->
    let time := JsNumber.parseFloat (written_time ms) in
    secondsToTimestamp (F := SRTFormatter) time
    = "00:00:" ++ two_digits (ms / 1000) ++ "," ++ three_digits (ms mod 1000)
    /\ secondsToTimestamp (F := WebVTTFormatter) time
       = "00:00:" ++ two_digits (ms / 1000) ++ "." ++ three_digits (ms mod 1000).
Proof.
  intros ms Hms time.
  pose proof (upto_spec _ _ 0 milliseconds_checked ms ltac:(lia)) as Hfields.
  unfold millisecond_fields in Hfields. fold time in Hfields.
  assert (Hs : 0 <= ms / 1000 < 1000)
    by (split; [apply Z.div_pos; lia | apply Z.div_lt_upper_bound; lia]).
  assert (Hm : 0 <= ms mod 1000 < 1000) by (apply Z.mod_pos_bound; lia).
  split; rewrite (timestamp_of_fields _ _ _ _ _ Hfields);
    rewrite ?srt_formatTimestamp, ?webvtt_formatTimestamp;
    rewrite (padded_integer 2 0 ltac:(lia)), (padded_integer 2 _ Hs), (padded_integer 3 _ Hm);
    reflexivity.
Qed.

Lemma written_milliseconds_are_read_and_written_back_witness :
  written_time 1005 = "1.005"
  /\ secondsToTimestamp (F := SRTFormatter) (JsNumber.parseFloat "1.005") = "00:00:01,005"
  /\ secondsToTimestamp (F := WebVTTFormatter) (JsNumber.parseFloat "1.005") = "00:00:01.005".
Proof.
  split; [reflexivity |].
  apply (written_milliseconds_are_read_and_written_back 1005). lia.
Defined.

End ExactTimestamps.

(** ** JSON output *)

Section JsonOutput.

Import JsString Types Fetched JsonFormatters.
Local Open Scope string_scope.

Lemma every_append (p : ascii -> bool) (a b : string) :
  every p (a ++ b) = every p a && every p b.
Proof.
  induction a as [| c a IH]; [reflexivity |].
  simpl. rewrite IH, andb_assoc. reflexivity.
Qed.

Lemma read_quoted_character (c : ascii) (rest : string) :
  read_string_body (Json.quote_char c ++ rest)
  = option_map (String c) (read_string_body rest).
Proof.
  destruct c as [[] [] [] [] [] [] [] []]; reflexivity.
Qed.

Lemma quoted_character_is_printable (c : ascii) :
  every printable (Json.quote_char c) = true.
Proof.
  destruct c as [[] [] [] [] [] [] [] []]; reflexivity.
Qed.

Lemma read_quoted_body (s : string) :
  read_string_body (Json.quote_body s ++ dq) = Some s.
Proof.
  induction s as [| c s IH]; [reflexivity |].
  simpl Json.quote_body. rewrite append_assoc, read_quoted_character, IH. reflexivity.
Qed.

Lemma quoted_is_printable (s : string) : every printable (Json.quote s) = true.
Proof.
  unfold Json.quote. rewrite !every_append.
  assert (H : every printable (Json.quote_body s) = true).
  { induction s as [| c s IH]; [reflexivity |].
    simpl Json.quote_body. rewrite every_append, quoted_character_is_printable, IH.
    reflexivity. }
  rewrite H. reflexivity.
Qed.

(** X29. The text [JSON.stringify] writes for a string is a JSON string
    literal that reads back as the string: so two strings are never
    written alike. It holds no control character: a line break or a tab
    of a caption is written as an escape. *)
Theorem quoted_text_reads_back :
  forall s : string,
    read_string_literal (Json.quote s) = Some s
    /\ every printable (Json.quote s) = true
    /\ forall s', Json.quote s = Json.quote s' -> s = s'.
Proof.
  assert (Hread : forall s, read_string_literal (Json.quote s) = Some s).
  { intros s. unfold Json.quote.
    change (dq ++ Json.quote_body s ++ dq) with (String "034"%char (Json.quote_body s ++ dq)).
    apply read_quoted_body. }
  intros s. split; [apply Hread |]. split; [apply quoted_is_printable |].
  intros s' H. pose proof (Hread s) as Hs. rewrite H, Hread in Hs. congruence.
Qed.














End JsonOutput.
